(** * vivliostyle-cli: the build and render pipeline

    A shallow embedding of the build pipeline (configuration merge, theme
    resolution, entry parsing, staging, manifest generation, the render
    handshake of [generatePDF] and [loadTOC], and [parsePageSize]), with
    the properties of the written specification stated over it.

    Conventions.
    - an optional field ([title?: string]) is an [option]; [undefined] is
      [None];
    - the JavaScript operator [a || b] is [js_or]: it yields [a] when [a]
      is truthy and [b] otherwise, so an empty string, [false], [0] and
      [undefined] all fall through;
    - a thrown exception, a returned value and a promise that never
      settles are the three constructors of [outcome];
    - the state the code mutates (the [themes] array of [build], the file
      system, the browser, the in-page viewer) is one record threaded
      through a state monad; everything the code does to the outside is
      also appended to a trace of effects;
    - what the code calls in Node, puppeteer, VFM and jsdom is a field of
      the record [Env]: the theorems hold for every such environment;
    - a command of shelljs that fails reports its error and returns, so
      the run goes on ([shell]); a file is created only in a directory
      that exists, and which directories exist follows from the
      [rm -rf] and [mkdir -p] of the trace ([dirs_after]). *)

From Stdlib Require Import ZArith String Ascii List Bool Lia.
From Stdlib Require Import DecimalString DecimalPos.
Import ListNotations.

Local Open Scope string_scope.
Local Open Scope list_scope.

(** ** JavaScript values *)

Module JS.

(** Truthiness of a value, as [ToBoolean] computes it. *)
Class Truthy (A : Type) := truthy : A -> bool.

#[global] Instance truthy_bool : Truthy bool := fun b => b.
#[global] Instance truthy_string : Truthy string :=
  fun s => negb (String.eqb s "").
#[global] Instance truthy_Z : Truthy Z := fun z => negb (Z.eqb z 0).
#[global] Instance truthy_option {A} `{Truthy A} : Truthy (option A) :=
  fun o => match o with Some a => truthy a | None => false end.

(** [a || b] where both operands may be [undefined]. *)
Definition js_or {A} `{Truthy A} (a b : option A) : option A :=
  if truthy a then a else b.

(** [a || d] where the last operand [d] is a literal: the result is
    never [undefined]. *)
Definition js_or_lit {A} `{Truthy A} (a : option A) (d : A) : A :=
  match a with
  | Some x => if truthy x then x else d
  | None => d
  end.

(** [a && b] on two strings used as a condition. *)
Definition js_and_cond {A B} `{Truthy A} `{Truthy B} (a : A) (b : B) : bool :=
  truthy a && truthy b.

(** [s.endsWith(suffix)] *)
Definition endsWith (s suffix : string) : bool :=
  let n := String.length s in
  let k := String.length suffix in
  (k <=? n)%nat && String.eqb (substring (n - k) k s) suffix.

(** [s.startsWith(p)] *)
Definition startsWith (s p : string) : bool := String.prefix p s.

(** [s.split(sep)] for a one-character separator: never the empty list,
    ["".split(",")] is [[""]]. *)
Fixpoint split (sep : ascii) (s : string) : list string :=
  match s with
  | EmptyString => [EmptyString]
  | String c rest =>
      if Ascii.eqb c sep then EmptyString :: split sep rest
      else match split sep rest with
           | h :: t => String c h :: t
           | [] => [String c EmptyString]
           end
  end.

(** [s.replace(/\//g, '-')] *)
Fixpoint replace_slashes (s : string) : string :=
  match s with
  | EmptyString => EmptyString
  | String c rest =>
      String (if Ascii.eqb c "/"%char then "-"%char else c)
             (replace_slashes rest)
  end.

(** [s.replace(/\.md$/, '.html')] *)
Definition replace_md_suffix (s : string) : string :=
  if endsWith s ".md"
  then substring 0 (String.length s - 3) s ++ ".html"
  else s.

(** [/^https?:\/\//.test(s)] *)
Definition is_http_url (s : string) : bool :=
  startsWith s "http://" || startsWith s "https://".

(** The decimal numeral of an integer. *)
Definition string_of_Z (z : Z) : string :=
  NilZero.string_of_int (Z.to_int z).

(** A JavaScript number, by what the code can observe of it: its
    truthiness and the text that a template literal prints. A finite
    number other than zero is [± s × 10^(n − k)], where the positive
    integer [s] has [k] decimal digits and is the shortest that denotes
    the number (ECMAScript, [Number::toString]); [1e21] is
    [Finite false 1 22] and [1.5] is [Finite false 15 1]. *)
Inductive Number :=
| NaN
| Zero
| Infinity (negative : bool)
| Finite (negative : bool) (s : positive) (n : Z).

(** [NaN] and the zeros are the falsy numbers. *)
#[global] Instance truthy_Number : Truthy Number :=
  fun x => match x with NaN | Zero => false | _ => true end.

(** The decimal digits of [s]. *)
Definition digits (s : positive) : string :=
  NilEmpty.string_of_uint (Pos.to_uint s).

Fixpoint zeros (k : nat) : string :=
  match k with
  | O => EmptyString
  | S k => String "0" (zeros k)
  end.

(** [Number::toString] in radix 10: an integer below [10^21] is printed
    in full, a number with at most 21 integer digits or at most 6
    leading fractional zeros with a decimal point, anything else in
    exponent notation. *)
Definition number_to_string (x : Number) : string :=
  match x with
  | NaN => "NaN"
  | Zero => "0"
  | Infinity negative => (if negative then "-" else "") ++ "Infinity"
  | Finite negative s n =>
      let d := digits s in
      let k := Z.of_nat (String.length d) in
      (if negative then "-" else "")
      ++ (if (k <=? n)%Z && (n <=? 21)%Z then
            d ++ zeros (Z.to_nat (n - k))
          else if (0 <? n)%Z && (n <=? 21)%Z then
            substring 0 (Z.to_nat n) d ++ "."
            ++ substring (Z.to_nat n) (Z.to_nat (k - n)) d
          else if (-6 <? n)%Z && (n <=? 0)%Z then
            "0." ++ zeros (Z.to_nat (- n)) ++ d
          else
            let e := (n - 1)%Z in
            (if (k =? 1)%Z then d
             else substring 0 1 d ++ "."
                  ++ substring 1 (Z.to_nat (k - 1)) d)
            ++ "e" ++ (if (e <? 0)%Z then "-" else "+")
            ++ string_of_Z (Z.abs e))
  end.

End JS.
Import JS.

Infix "|||" := js_or (at level 50, left associativity).
Infix "||!" := js_or_lit (at level 50, left associativity).

(** ** Exceptions and outcomes *)

(** What the code throws itself is [Error msg]; [TimeoutError] is the
    rejection of puppeteer's [waitForFunction]; [TypeError] is a property
    access on [undefined]; [External tag] is a failure inside a
    collaborator (file system, browser, Markdown transform, ...). *)
Inductive exn :=
| Error (msg : string)
| TimeoutError
| TypeError
| External (tag : string).

(** The result of running a (possibly asynchronous) computation. *)
Inductive outcome (A : Type) :=
| Returned (a : A)
| Thrown (e : exn)
| Pending.
Arguments Returned {A} a.
Arguments Thrown {A} e.
Arguments Pending {A}.

(** ** Page size *)

(** [size?: number | string] *)
Inductive SizeVal :=
| SizeNum (n : Number)
| SizeStr (s : string).

#[global] Instance truthy_SizeVal : Truthy SizeVal :=
  fun v => match v with SizeNum n => truthy n | SizeStr s => truthy s end.

(** The template literal [`${size}`]. *)
Definition size_to_string (v : SizeVal) : string :=
  match v with SizeNum n => number_to_string n | SizeStr s => s end.

(** [PageSize] of [./server]: a named format, or an explicit pair. *)
Inductive PageSize :=
| Format (format : string)
| Dimensions (width height : string).

(** [parsePageSize]: the array pattern [[width, height, ...others]] is the
    match on the list of components; a missing component is [undefined],
    which is as falsy as an empty one. *)
Definition parsePageSize (size : SizeVal) : outcome PageSize :=
  let parts := if truthy size then split ","%char (size_to_string size) else [] in
  match parts with
  | _ :: _ :: _ :: _ =>
      Thrown (Error ("Cannot parse size: " ++ size_to_string size))
  | [width; height] =>
      if js_and_cond width height then Returned (Dimensions width height)
      else Returned (Format (Some width ||! "Letter"))
  | [width] => Returned (Format (Some width ||! "Letter"))
  | [] => Returned (Format "Letter")
  end.

(** ** Data model *)

Record Entry := {
  e_path : string;
  e_title : option string;
  e_theme : option string;
}.

Inductive ThemeType := ThemePath | ThemeUri.

Record ParsedTheme := {
  t_type : ThemeType;
  t_name : string;
  t_location : string;
}.

Inductive DocType := Markdown | Html.

Record Loc := { path : string; dir : string }.

Record ParsedEntry := {
  pe_type : DocType;
  pe_title : option string;
  pe_theme : option ParsedTheme;
  pe_source : Loc;
  pe_target : Loc;
}.

(** [toc?: boolean | string] *)
Inductive TocVal :=
| TocBool (b : bool)
| TocFile (p : string).

#[global] Instance truthy_TocVal : Truthy TocVal :=
  fun v => match v with TocBool b => b | TocFile p => truthy p end.

(** An element of [entry]: a path, or an [Entry] object. *)
Inductive RawEntry :=
| RawPath (p : string)
| RawObject (e : Entry).

#[global] Instance truthy_RawEntry : Truthy RawEntry :=
  fun r => match r with RawPath p => truthy p | RawObject _ => true end.

(** [entry: string | string[] | Entry | Entry[]] *)
Inductive EntryField :=
| EntryOne (r : RawEntry)
| EntryArray (l : list RawEntry).

Record VivliostyleConfig := {
  cfg_title : option string;
  cfg_author : option string;
  cfg_language : option string;
  cfg_theme : option string;
  cfg_outDir : option string;
  cfg_outFile : option string;
  cfg_entry : EntryField;
  cfg_entryContext : option string;
  cfg_toc : option TocVal;
  cfg_size : option string;
  cfg_pressReady : option bool;
  cfg_timeout : option Z;
}.

Inductive LoadMode := Document | Book.
#[global] Instance truthy_LoadMode : Truthy LoadMode := fun _ => true.

(** [BuildCliFlags]. The fields the interface declares without [?] keep
    their type; [loadMode], a string enumeration that [build] still
    defaults, is optional here so that the default is reachable. *)
Record BuildCliFlags := {
  cli_configPath : string;
  cli_input : string;
  cli_outFile : string;
  cli_rootDir : option string;
  cli_theme : option string;
  cli_size : option SizeVal;
  cli_title : option string;
  cli_language : option string;
  cli_author : option string;
  cli_pressReady : bool;
  cli_verbose : option bool;
  cli_timeout : Z;
  cli_loadMode : option LoadMode;
  cli_sandbox : bool;
  cli_executableChromium : option string;
}.

(** The fields of [package.json] that the code reads: [name] and [author]
    in [build], the stylesheet candidates in [parseTheme]. *)
Record PackageJson := {
  pkg_name : option string;
  pkg_author : option string;
  pkg_vivliostyle_theme_style : option string;
  pkg_vivliostyle_theme_stylesheet : option string;
  pkg_style : option string;
  pkg_main : option string;
}.

(** Entries as the manifest receives them: [{title, path}]. *)
Record ManifestEntry := {
  me_path : string;
  me_title : option string;
}.

Record ManifestOption := {
  mo_title : option string;
  mo_author : option string;
  mo_language : option string;
  mo_modified : string;
  mo_entries : list ManifestEntry;
  mo_toc : option TocVal;
}.

Record ReadingOrderItem := {
  ro_href : string;
  ro_type : string;
  ro_title : option string;
}.

Record Resource := {
  res_href : string;
  res_rel : string;
  res_type : string;
  res_title : string;
}.

Record ManifestMetadata := {
  md_type : string;
  md_title : option string;
  md_author : option string;
  md_language : option string;
  md_modified : string;
}.

(** The object literal [manifest] that is serialised to [manifest.json]. *)
Record Manifest := {
  m_context : string;
  m_metadata : ManifestMetadata;
  m_links : list string;
  m_readingOrder : list ReadingOrderItem;
  m_resources : list Resource;
}.

(** One [<li><a href=...>label</a></li>] of the generated contents page. *)
Record TocLink := { tl_href : string; tl_label : string }.

(** The payload of a viewer event; only its action tag [a] is read. *)
Record Payload := { a : string }.

(** [Meta] and [TOCItem] of [./broker] are carried through unchanged. *)
Definition Meta := string.
Definition TOCItem := string.
Definition PdfBytes := string.

(** What is written to a file. *)
Inductive contents :=
| ManifestJson (m : Manifest)
| TocHtml (items : list TocLink)
| Text (s : string).

(** ** Effects

    Every operation on the outside world is one constructor; a run of the
    program leaves the list of the operations it completed, oldest first. *)
Inductive op :=
| FsRmRf (p : string)
| FsMkdirP (p : string)
| FsCp (src dst : string)
| FsWrite (p : string) (c : contents)
| StatFile (p : string)
| FindEntryPointFile (input root : string)
| LaunchServers (root : string)
| LaunchBrowser (executablePath : option string) (args : list string)
| BrowserVersion
| NewPage
| PageGoto (url : string)
| WaitForViewer
| GetMetadata
| AddListener
| RemoveListener
| ShowTOC (visible : bool)
| GetTOC
| ResolveTOC
| EmulateMediaType (media : string)
| WaitForReady (timeout : Z)
| PagePdf
| BrowserClose
| PostLoad
| PostMetadata (m : Meta)
| PostToc (t : list TOCItem)
| PostSave (p : string) (pressReady : bool)
| Log (msg : string)
| ProcessExit (code : Z).

Inductive BrowserState := NotLaunched | Running | Closed.

(** The mutable state: the [themes] array of [build], the browser process,
    the viewer's contents panel and [done] listener, the promise of
    [loadTOC], and the trace. *)
Record World := {
  themes : list ParsedTheme;
  browser : BrowserState;
  tocVisible : bool;
  listening : bool;
  tocPromise : option (list TOCItem);
  trace : list op;
}.

Definition initial_world : World :=
  {| themes := []; browser := NotLaunched; tocVisible := false;
     listening := false; tocPromise := None; trace := [] |}.

(** ** The environment: Node, the file system and the collaborators *)

Record UrlParams := {
  up_sourcePort : Z;
  up_sourceIndex : string;
  up_brokerPort : Z;
  up_loadMode : LoadMode;
  up_outputSize : option PageSize;
}.

Record Env := {
  (* process and path *)
  cwd : string;
  path_resolve : string -> string -> string;
  path_join : string -> string -> string;
  path_relative : string -> string -> string;
  path_dirname : string -> string;
  path_basename : string -> string;
  path_basename_ext : string -> string -> string;
  (* fs and require *)
  existsSync : string -> bool;
  isDirectorySync : string -> bool;
  require_config : string -> outcome VivliostyleConfig;
  nearest_package : outcome (option PackageJson);
  read_package_json : string -> outcome PackageJson;
  now_iso : string;
  (* resolve-pkg *)
  resolvePkg : string -> option string;
  (* VFM: the data of the processed file, and its rendering *)
  markdown_data : string -> outcome (option string * option string);
  markdown_render : string -> option string -> outcome string;
  (* jsdom: the text of the first <title>, the href of the first
     stylesheet link *)
  html_data : string -> outcome (option string * option string);
  (* ./util and ./server *)
  stat_isDirectory : string -> bool;
  entryPointFile : string -> string -> string;
  server_ports : string -> Z * Z;
  getBrokerUrl : UrlParams -> string;
  default_chromium : string;
  (* the viewer inside the page *)
  viewer_metadata : Meta;
  viewer_toc : list TOCItem;
  done_events : list Payload;
  ready_after : option nat;
  pdf_bytes : PdfBytes;
  (* the operations that fail, and how *)
  fails : op -> option exn;
}.

(** ** The monad of the program: state, exceptions, pending promises *)

Definition M (A : Type) : Type := World -> outcome A * World.

Definition ret {A} (x : A) : M A := fun w => (Returned x, w).

Definition bind {A B} (m : M A) (k : A -> M B) : M B :=
  fun w =>
    match m w with
    | (Returned x, w') => k x w'
    | (Thrown e, w') => (Thrown e, w')
    | (Pending, w') => (Pending, w')
    end.

Definition throw {A} (e : exn) : M A := fun w => (Thrown e, w).

Definition never {A} : M A := fun w => (Pending, w).

(** A synchronous result that may be an exception. *)
Definition lift {A} (o : outcome A) : M A := fun w => (o, w).

Notation "x <- m ;; k" := (bind m (fun x => k))
  (at level 61, m at next level, right associativity).
Notation "m ;;; k" := (bind m (fun _ => k))
  (at level 61, right associativity).

Definition get_world : M World := fun w => (Returned w, w).

(** How a completed operation changes the state besides the trace. *)
Definition apply_op (o : op) (w : World) : World :=
  let w1 :=
    match o with
    | LaunchBrowser _ _ =>
        {| themes := themes w; browser := Running; tocVisible := tocVisible w;
           listening := listening w; tocPromise := tocPromise w; trace := trace w |}
    | BrowserClose =>
        {| themes := themes w; browser := Closed; tocVisible := tocVisible w;
           listening := listening w; tocPromise := tocPromise w; trace := trace w |}
    | ShowTOC b =>
        {| themes := themes w; browser := browser w; tocVisible := b;
           listening := listening w; tocPromise := tocPromise w; trace := trace w |}
    | AddListener =>
        {| themes := themes w; browser := browser w; tocVisible := tocVisible w;
           listening := true; tocPromise := tocPromise w; trace := trace w |}
    | RemoveListener =>
        {| themes := themes w; browser := browser w; tocVisible := tocVisible w;
           listening := false; tocPromise := tocPromise w; trace := trace w |}
    | _ => w
    end in
  {| themes := themes w1; browser := browser w1; tocVisible := tocVisible w1;
     listening := listening w1; tocPromise := tocPromise w1;
     trace := trace w1 ++ [o] |}.

(** Perform an operation: it throws what the environment says it throws,
    otherwise it completes and is recorded. *)
Definition perform (env : Env) (o : op) : M unit :=
  fun w =>
    match fails env o with
    | Some e => (Thrown e, w)
    | None => (Returned tt, apply_op o w)
    end.

(** [p] is the directory [d] or lies below it. *)
Definition is_under (d p : string) : bool :=
  String.eqb p d || startsWith p (d ++ "/").

(** The directories that exist once the operations [tr] are done, given
    those that existed before: [rm -rf] removes a directory with all that
    lies below it, [mkdir -p] creates a directory with all that lies
    above it. *)
Fixpoint dirs_after (tr : list op) (before : string -> bool) (d : string)
    : bool :=
  match tr with
  | [] => before d
  | FsRmRf r :: rest =>
      dirs_after rest (fun x => negb (is_under r x) && before x) d
  | FsMkdirP m :: rest =>
      dirs_after rest (fun x => is_under x m || before x) d
  | _ :: rest => dirs_after rest before d
  end.

(** A file can be created at [p] when the directory of [p] exists. *)
Definition creatable (env : Env) (w : World) (p : string) : bool :=
  dirs_after (trace w) (isDirectorySync env) (path_dirname env p).

(** Whether a shelljs command does its work: not when the environment
    makes it fail, and [cp] not when the file cannot be created. *)
Definition shell_ok (env : Env) (o : op) (w : World) : bool :=
  match fails env o with
  | Some _ => false
  | None =>
      match o with
      | FsCp _ dst => creatable env w dst
      | _ => true
      end
  end.

(** A command of shelljs ([rm], [mkdir], [cp]). The program leaves
    [shelljs.config.fatal] unset and reads no result: a command that
    fails reports its error and returns, nothing is done and the run
    goes on. *)
Definition shell (env : Env) (o : op) : M unit :=
  fun w => (Returned tt, if shell_ok env o w then apply_op o w else w).

(** [fs.writeFileSync(p, c)]: it throws when the environment makes it
    fail or the file cannot be created. *)
Definition writeFileSync (env : Env) (p : string) (c : contents) : M unit :=
  fun w =>
    match fails env (FsWrite p c) with
    | Some e => (Thrown e, w)
    | None =>
        if creatable env w p then (Returned tt, apply_op (FsWrite p c) w)
        else (Thrown (External "ENOENT"), w)
    end.

(** [themes.push(t)] *)
Definition push_theme (t : ParsedTheme) : M unit :=
  fun w =>
    (Returned tt,
     {| themes := themes w ++ [t]; browser := browser w;
        tocVisible := tocVisible w; listening := listening w;
        tocPromise := tocPromise w; trace := trace w |}).

(** [resolve(toc)] on the promise of [loadTOC] *)
Definition resolve_toc (toc : list TOCItem) : M unit :=
  fun w =>
    (Returned tt,
     {| themes := themes w; browser := browser w;
        tocVisible := tocVisible w; listening := listening w;
        tocPromise := Some toc; trace := trace w ++ [ResolveTOC] |}).

(** [array.map(f)] when [f] has effects: left to right. *)
Fixpoint mapM {A B} (f : A -> M B) (l : list A) : M (list B) :=
  match l with
  | [] => ret []
  | x :: rest => y <- f x ;; ys <- mapM f rest ;; ret (y :: ys)
  end.

(** [for (const x of l) body] *)
Fixpoint forM_ {A} (l : list A) (body : A -> M unit) : M unit :=
  match l with
  | [] => ret tt
  | x :: rest => body x ;;; forM_ rest body
  end.

(** [const themes = []] *)
Definition reset_themes : M unit :=
  fun w =>
    (Returned tt,
     {| themes := []; browser := browser w; tocVisible := tocVisible w;
        listening := listening w; tocPromise := tocPromise w;
        trace := trace w |}).

(** [new Promise(...)]: not yet resolved *)
Definition new_promise : M unit :=
  fun w =>
    (Returned tt,
     {| themes := themes w; browser := browser w; tocVisible := tocVisible w;
        listening := listening w; tocPromise := None; trace := trace w |}).

(** An operation inside the page, which always completes. *)
Definition emit (o : op) : M unit := fun w => (Returned tt, apply_op o w).

(** ** Configuration and themes *)

(** [config?.field] *)
Definition opt_field {A} (config : option VivliostyleConfig)
    (field : VivliostyleConfig -> option A) : option A :=
  match config with Some c => field c | None => None end.

(** [ctxPath]: [loc && path.resolve(context, loc)] *)
Definition ctxPath (env : Env) (context : string) (loc : option string)
    : option string :=
  match loc with
  | Some l => if truthy l then Some (path_resolve env context l) else Some l
  | None => None
  end.

(** [collectVivliostyleConfig] *)
Definition collectVivliostyleConfig (env : Env) (configPath : string)
    : outcome (option VivliostyleConfig) :=
  if negb (existsSync env configPath) then Returned None
  else match require_config env configPath with
       | Returned c => Returned (Some c)
       | Thrown e => Thrown e
       | Pending => Pending
       end.

(** An object is always truthy. *)
#[global] Instance truthy_ParsedTheme : Truthy ParsedTheme := fun _ => true.

(** The text that string concatenation gives an optional string. *)
Definition show_opt (o : option string) : string :=
  match o with Some s => s | None => "undefined" end.

(** [parseTheme] *)
Definition parseTheme (env : Env) (themeString : option string)
    : outcome (option ParsedTheme) :=
  match themeString with
  | None => Returned None
  | Some themeString =>
      if is_http_url themeString then
        Returned (Some {| t_type := ThemeUri;
                          t_name := path_basename env themeString;
                          t_location := themeString |})
      else
        let pkgRoot := resolvePkg env themeString in
        match pkgRoot with
        | None => Thrown (Error ("package not found: " ++ themeString))
        | Some pkgRoot =>
            if negb (truthy pkgRoot) then
              Thrown (Error ("package not found: " ++ themeString))
            else if endsWith pkgRoot ".css" then
              Returned (Some {| t_type := ThemePath;
                                t_name := path_basename env pkgRoot;
                                t_location := pkgRoot |})
            else
              match read_package_json env (path_join env pkgRoot "package.json") with
              | Thrown e => Thrown e
              | Pending => Pending
              | Returned packageJson =>
                  let maybeCSS :=
                    pkg_vivliostyle_theme_style packageJson
                    ||| pkg_vivliostyle_theme_stylesheet packageJson
                    ||| pkg_style packageJson
                    ||| pkg_main packageJson in
                  match maybeCSS with
                  | Some css =>
                      if negb (truthy css) || negb (endsWith css ".css") then
                        Thrown (Error ("invalid css file: " ++ css))
                      else
                        match pkg_name packageJson with
                        | None => Thrown TypeError
                        | Some name =>
                            Returned (Some {| t_type := ThemePath;
                                              t_name := replace_slashes name ++ ".css";
                                              t_location := path_resolve env pkgRoot css |})
                        end
                  | None => Thrown (Error ("invalid css file: " ++ show_opt None))
                  end
              end
        end
  end.

(** The constants that [build] computes from the flags, the configuration
    file and the package descriptor, under the names they have there. *)
Record Merged := {
  configBaseDir : string;
  distDir : string;
  artifactDir : string;
  title : option string;
  author : option string;
  language : string;
  outFile : string;
  size : option SizeVal;
  contextDir : string;
  toc : TocVal;
  pressReady : bool;
  verbose : bool;
  timeout : Z;
  sandbox : bool;
  loadMode : LoadMode;
  executableChromium : option string;
}.

(** [pkgJson?.field] *)
Definition pkg_field {A} (pkgJson : option PackageJson)
    (field : PackageJson -> option A) : option A :=
  match pkgJson with Some p => field p | None => None end.

(** The configuration path of [build]. *)
Definition config_path (env : Env) (cliFlags : BuildCliFlags) : string :=
  if truthy (cli_configPath cliFlags)
  then path_resolve env (cwd env) (cli_configPath cliFlags)
  else path_join env (cwd env) "vivliostyle.config.js".

(** The section "merge config" of [build], with the directories computed
    just before it. *)
Definition mergeConfig (env : Env) (cliFlags : BuildCliFlags)
    (config : option VivliostyleConfig) (pkgJson : option PackageJson)
    (configPath : string) : Merged :=
  let configBaseDir :=
    match config with Some _ => path_dirname env configPath | None => cwd env end in
  let distDir :=
    path_resolve env (cwd env)
      (ctxPath env configBaseDir (opt_field config cfg_outDir) ||! ".vivliostyle") in
  let artifactDirName := "artifacts" in
  let artifactDir := path_join env distDir artifactDirName in
  {| configBaseDir := configBaseDir;
     distDir := distDir;
     artifactDir := artifactDir;
     title := cli_title cliFlags ||| opt_field config cfg_title
              ||| pkg_field pkgJson pkg_name;
     author := cli_author cliFlags ||| opt_field config cfg_author
               ||| pkg_field pkgJson pkg_author;
     language := opt_field config cfg_language ||! "en";
     outFile :=
       path_resolve env (cwd env)
         (Some (cli_outFile cliFlags)
          ||| ctxPath env configBaseDir (opt_field config cfg_outFile)
          ||! "./output.pdf");
     size := cli_size cliFlags ||| option_map SizeStr (opt_field config cfg_size);
     contextDir :=
       path_resolve env (cwd env)
         (cli_rootDir cliFlags
          ||| ctxPath env configBaseDir (opt_field config cfg_entryContext)
          ||! ".");
     toc := opt_field config cfg_toc ||! TocBool true;
     pressReady := Some (cli_pressReady cliFlags)
                   ||| opt_field config cfg_pressReady ||! false;
     verbose := cli_verbose cliFlags ||! false;
     timeout := Some (cli_timeout cliFlags)
                ||| opt_field config cfg_timeout ||! 3000%Z;
     sandbox := Some (cli_sandbox cliFlags) ||! true;
     loadMode := cli_loadMode cliFlags ||! Book;
     executableChromium := cli_executableChromium cliFlags |}.

(** ** Entries *)

(** [normalizeEnry] *)
Definition normalizeEnry (e : RawEntry) : Entry :=
  match e with
  | RawObject o => o
  | RawPath p => {| e_path := p; e_title := None; e_theme := None |}
  end.

(** [parseMetadata] *)
Definition parseMetadata (env : Env) (type : DocType) (sourcePath : string)
    : outcome (option string * option ParsedTheme) :=
  match type with
  | Markdown =>
      match markdown_data env sourcePath with
      | Returned (data_title, data_theme) =>
          match parseTheme env data_theme with
          | Returned theme => Returned (data_title, theme)
          | Thrown e => Thrown e
          | Pending => Pending
          end
      | Thrown e => Thrown e
      | Pending => Pending
      end
  | Html =>
      match html_data env sourcePath with
      | Returned (textContent, href) =>
          match parseTheme env href with
          | Returned theme => Returned (textContent ||| None, theme)
          | Thrown e => Thrown e
          | Pending => Pending
          end
      | Thrown e => Thrown e
      | Pending => Pending
      end
  end.

(** [themes.every((t) => t.name !== parsedTheme.name)] *)
Definition name_is_new (ts : list ParsedTheme) (parsedTheme : ParsedTheme) : bool :=
  forallb (fun t => negb (String.eqb (t_name t) (t_name parsedTheme))) ts.

(** [parseEntry], a closure of [build] over [contextDir], [artifactDir],
    [config] and the array [themes]. *)
Definition parseEntry (env : Env) (config : option VivliostyleConfig)
    (contextDir artifactDir : string) (entry : Entry) : M ParsedEntry :=
  let sourcePath := path_resolve env contextDir (e_path entry) in
  let sourceDir := path_dirname env sourcePath in
  let contextEntryPath := path_relative env contextDir sourcePath in
  let targetPath :=
    replace_md_suffix (path_resolve env artifactDir contextEntryPath) in
  let targetDir := path_dirname env targetPath in
  let type := if endsWith sourcePath ".html" then Html else Markdown in
  meta <- lift (parseMetadata env type sourcePath) ;;
  let '(title, theme) := meta in
  entryTheme <- lift (parseTheme env (e_theme entry)) ;;
  w <- get_world ;;
  let parsedTheme := entryTheme ||| theme ||| hd_error (themes w) in
  match parsedTheme with
  | Some t => if name_is_new (themes w) t then push_theme t else ret tt
  | None => ret tt
  end ;;;
  ret {| pe_type := type;
         pe_source := {| path := sourcePath; dir := sourceDir |};
         pe_target := {| path := targetPath; dir := targetDir |};
         pe_title := e_title entry ||| title ||| opt_field config cfg_title;
         pe_theme := parsedTheme |}.

(** [rawEntries] of [build] *)
Definition rawEntries (cliFlags : BuildCliFlags)
    (config : option VivliostyleConfig) : list RawEntry :=
  if truthy (cli_input cliFlags) then [RawPath (cli_input cliFlags)]
  else match config with
       | Some c =>
           match cfg_entry c with
           | EntryArray l => l
           | EntryOne r => if truthy r then [r] else []
           end
       | None => []
       end.

(** ** Manifest and contents page *)

Definition toc_resource : Resource :=
  {| res_href := "toc.html"; res_rel := "contents";
     res_type := "text/html"; res_title := "Table of Contents" |}.

(** The object [manifest] that [generateManifest] builds. *)
Definition manifest_object (options : ManifestOption) : Manifest :=
  let resources := if truthy (mo_toc options) then [toc_resource] else [] in
  {| m_context := "https://readium.org/webpub-manifest/context.jsonld";
     m_metadata :=
       {| md_type := "http://schema.org/Book";
          md_title := mo_title options;
          md_author := mo_author options;
          md_language := mo_language options;
          md_modified := mo_modified options |};
     m_links := [];
     m_readingOrder :=
       map (fun entry =>
              {| ro_href := me_path entry;
                 ro_type := "text/html";
                 ro_title := me_title entry |})
           (mo_entries options);
     m_resources := resources |}.

(** [generateManifest] *)
Definition generateManifest (env : Env) (outputPath : string)
    (options : ManifestOption) : M unit :=
  writeFileSync env outputPath (ManifestJson (manifest_object options)).

(** [generateToC]: one list item per entry. *)
Definition generateToC (env : Env) (entries : list ParsedEntry)
    (distDir : string) : contents :=
  let items :=
    map (fun entry =>
           {| tl_href := path_relative env distDir (path (pe_target entry));
              tl_label :=
                pe_title entry
                ||! path_basename_ext env (path (pe_target entry)) ".html" |})
        entries in
  TocHtml items.

(** ** The render handshake *)

(** [loadMetadata] *)
Definition loadMetadata (env : Env) : M Meta :=
  perform env GetMetadata ;;; ret (viewer_metadata env).

(** The function [listener] inside [loadTOC]. *)
Definition listener (env : Env) (payload : Payload) : M unit :=
  if negb (String.eqb (a payload) "toc") then ret tt
  else
    emit RemoveListener ;;;
    emit (ShowTOC false) ;;;
    emit GetTOC ;;;
    resolve_toc (viewer_toc env).

(** The viewer emits one [done] event: the listener runs if it is still
    registered. *)
Definition emit_done (env : Env) (payload : Payload) : M unit :=
  w <- get_world ;;
  if listening w then listener env payload else ret tt.

(** Awaiting the promise of [loadTOC]: it yields the value it was resolved
    with, and never settles otherwise. *)
Definition await_toc : M (list TOCItem) :=
  w <- get_world ;;
  match tocPromise w with
  | Some t => ret t
  | None => never
  end.

(** [loadTOC]: the promise body registers the listener and shows the
    contents panel; the viewer then emits its [done] events. *)
Definition loadTOC (env : Env) : M (list TOCItem) :=
  new_promise ;;;
  emit AddListener ;;;
  emit (ShowTOC true) ;;;
  forM_ (done_events env) (emit_done env) ;;;
  await_toc.

(** [page.waitForFunction(ready, {polling: 1000, timeout})], after
    puppeteer's contract: the predicate is polled every 1000 ms; the k-th
    poll happens at k * 1000 ms; the call rejects with a timeout error
    once [timeout] ms have passed, and a timeout of 0 disables the limit.
    [ready_after env = Some k] says that the k-th poll is the first one to
    see [readyState === 'complete']. *)
Definition waitForReady (env : Env) (timeout : Z) : M unit :=
  match ready_after env with
  | Some k =>
      if Z.eqb timeout 0 || Z.ltb (Z.of_nat k * 1000) timeout
      then emit (WaitForReady timeout)
      else throw TimeoutError
  | None => if Z.eqb timeout 0 then never else throw TimeoutError
  end.

Record PdfArgs := {
  pa_input : string;
  pa_rootDir : option string;
  pa_outputPath : string;
  pa_size : option SizeVal;
  pa_loadMode : LoadMode;
  pa_executableChromium : option string;
  pa_sandbox : bool;
  pa_verbose : bool;
  pa_timeout : Z;
  pa_pressReady : bool;
}.

(** [generatePDF]. The three [page.on] handlers only log and are left out,
    as are the calls of [debug]. *)
Definition generatePDF (env : Env) (args : PdfArgs) : M string :=
  let input := pa_input args in
  let outputPath := pa_outputPath args in
  perform env (StatFile input) ;;;
  let root :=
    pa_rootDir args
    ||! (if stat_isDirectory env input then input else path_dirname env input) in
  perform env (FindEntryPointFile input root) ;;;
  let sourceIndex := entryPointFile env input root in
  let outputFile :=
    if existsSync env outputPath && isDirectorySync env outputPath
    then path_resolve env outputPath "output.pdf"
    else outputPath in
  outputSize <-
    (if truthy (pa_size args) then
       match pa_size args with
       | Some size => s <- lift (parsePageSize size) ;; ret (Some s)
       | None => ret None
       end
     else ret None) ;;
  perform env (LaunchServers root) ;;;
  let '(sourcePort, brokerPort) := server_ports env root in
  let navigateURL :=
    getBrokerUrl env
      {| up_sourcePort := sourcePort; up_sourceIndex := sourceIndex;
         up_brokerPort := brokerPort; up_loadMode := pa_loadMode args;
         up_outputSize := outputSize |} in
  perform env (Log "Launching build environment...") ;;;
  perform env
    (LaunchBrowser
       (Some (pa_executableChromium args ||! default_chromium env))
       [if pa_sandbox args then "" else "--no-sandbox"]) ;;;
  perform env BrowserVersion ;;;
  perform env NewPage ;;;
  perform env (Log "Building pages...") ;;;
  perform env (PageGoto navigateURL) ;;;
  perform env WaitForViewer ;;;
  metadata <- loadMetadata env ;;
  toc <- loadTOC env ;;
  perform env (EmulateMediaType "print") ;;;
  waitForReady env (pa_timeout args) ;;;
  perform env (Log "Generating PDF...") ;;;
  perform env PagePdf ;;;
  perform env (Log "Processing PDF...") ;;;
  perform env BrowserClose ;;;
  perform env PostLoad ;;;
  perform env (PostMetadata metadata) ;;;
  perform env (PostToc toc) ;;;
  perform env (PostSave outputFile (pa_pressReady args)) ;;;
  ret outputFile.

(** ** Staging and [build] *)

(** The stylesheet reference handed to the Markdown transform. *)
Definition stylesheet_of (env : Env) (distDir : string) (entry : ParsedEntry)
    : option string :=
  match pe_theme entry with
  | Some theme =>
      match t_type theme with
      | ThemePath =>
          Some (path_relative env (dir (pe_target entry))
                  (path_join env distDir (t_name theme)))
      | ThemeUri => Some (t_location theme)
      end
  | None => None
  end.

(** The body of the loop "populate entries". *)
Definition populate (env : Env) (distDir : string) (entry : ParsedEntry)
    : M unit :=
  match pe_type entry with
  | Html => shell env (FsCp (path (pe_source entry)) (path (pe_target entry)))
  | Markdown =>
      let stylesheet := stylesheet_of env distDir entry in
      file <- lift (markdown_render env (path (pe_source entry)) stylesheet) ;;
      shell env (FsMkdirP (dir (pe_target entry))) ;;;
      writeFileSync env (path (pe_target entry)) (Text file)
  end.

(** The body of the loop "copy theme". *)
Definition copyTheme (env : Env) (distDir : string) (theme : ParsedTheme)
    : M unit :=
  match t_type theme with
  | ThemePath =>
      shell env (FsCp (t_location theme) (path_join env distDir (t_name theme)))
  | ThemeUri => ret tt
  end.

(** The entries handed to [generateManifest]. *)
Definition manifest_entries (env : Env) (distDir : string)
    (entries : list ParsedEntry) : list ManifestEntry :=
  map (fun entry =>
         {| me_title := pe_title entry;
            me_path := path_relative env distDir (path (pe_target entry)) |})
      entries.

(** The options that [build] hands to [generateManifest]. *)
Definition manifest_options (env : Env) (c : Merged)
    (entries : list ParsedEntry) : ManifestOption :=
  {| mo_title := title c;
     mo_author := author c;
     mo_language := Some (language c);
     mo_toc := Some (toc c);
     mo_entries := manifest_entries env (distDir c) entries;
     mo_modified := now_iso env |}.

(** The first half of [build]: configuration, themes and entries. *)
Definition resolveEntries (env : Env) (cliFlags : BuildCliFlags)
    : M (Merged * list ParsedEntry) :=
  pkgJson <- lift (nearest_package env) ;;
  let configPath := config_path env cliFlags in
  config <- lift (collectVivliostyleConfig env configPath) ;;
  let c := mergeConfig env cliFlags config pkgJson configPath in
  reset_themes ;;;
  let theme := cli_theme cliFlags ||| opt_field config cfg_theme in
  rootTheme <- (if truthy theme then lift (parseTheme env theme) else ret None) ;;
  match rootTheme with
  | Some t => push_theme t
  | None => ret tt
  end ;;;
  entries <-
    mapM (parseEntry env config (contextDir c) (artifactDir c))
         (map normalizeEnry (rawEntries cliFlags config)) ;;
  if Nat.eqb (List.length entries) 0 then throw (Error "no entry found")
  else ret (c, entries).

(** The second half of [build]: staging, manifest, contents page, PDF.
    The first of the two closing messages is logged without its emoji. *)
Definition stageAndRender (env : Env) (c : Merged)
    (entries : list ParsedEntry) : M unit :=
  shell env (FsRmRf (distDir c)) ;;;
  shell env (FsMkdirP (artifactDir c)) ;;;
  forM_ entries (populate env (distDir c)) ;;;
  w <- get_world ;;
  forM_ (themes w) (copyTheme env (distDir c)) ;;;
  let manifestPath := path_join env (distDir c) "manifest.json" in
  generateManifest env manifestPath (manifest_options env c entries) ;;;
  (if truthy (toc c) then
     let distTocPath := path_join env (distDir c) "toc.html" in
     match toc c with
     | TocFile p =>
         shell env
           (FsCp (show_opt (ctxPath env (contextDir c) (Some p))) distTocPath)
     | TocBool _ =>
         writeFileSync env distTocPath (generateToC env entries (distDir c))
     end
   else ret tt) ;;;
  outputFile <-
    generatePDF env
      {| pa_input := manifestPath;
         pa_rootDir := Some (distDir c);
         pa_outputPath := outFile c;
         pa_size := size c;
         pa_pressReady := pressReady c;
         pa_verbose := verbose c;
         pa_timeout := timeout c;
         pa_loadMode := loadMode c;
         pa_sandbox := sandbox c;
         pa_executableChromium := executableChromium c |} ;;
  perform env (Log "Done") ;;;
  perform env (Log (outputFile ++ " has been created")) ;;;
  perform env (ProcessExit 0).

(** [build] *)
Definition build (env : Env) (cliFlags : BuildCliFlags) : M unit :=
  r <- resolveEntries env cliFlags ;;
  let '(c, entries) := r in
  stageAndRender env c entries.

(** Running a computation from the initial state. *)
Definition run {A} (m : M A) : outcome A * World := m initial_world.

(** ** A concrete environment

    A small project directory [/proj] used to run the definitions. The
    path functions below agree with Node's on the paths used here:
    absolute paths without [.], [..] or repeated separators. *)
Module Sample.

Definition resolve (context loc : string) : string :=
  if startsWith loc "/" then loc
  else if String.eqb loc "." then context
  else if startsWith loc "./"
  then context ++ "/" ++ substring 2 (String.length loc - 2) loc
  else context ++ "/" ++ loc.

Definition join (p q : string) : string := p ++ "/" ++ q.

Definition basename (p : string) : string := last (split "/"%char p) "".

Definition dirname (p : string) : string :=
  substring 0 (String.length p - String.length (basename p) - 1) p.

Definition relative (from to : string) : string :=
  if startsWith to (from ++ "/")
  then substring (String.length from + 1)
                 (String.length to - String.length from - 1) to
  else to.

Definition basename_ext (p ext : string) : string :=
  let b := basename p in
  if endsWith b ext
  then substring 0 (String.length b - String.length ext) b
  else b.

(** A configuration file that sets only [entry]. *)
Definition config_with (entry : EntryField) : VivliostyleConfig :=
  {| cfg_title := None; cfg_author := None; cfg_language := None;
     cfg_theme := None; cfg_outDir := None; cfg_outFile := None;
     cfg_entry := entry; cfg_entryContext := None; cfg_toc := None;
     cfg_size := None; cfg_pressReady := None; cfg_timeout := None |}.

(** Flags as the command line leaves them when nothing is passed. *)
Definition no_flags : BuildCliFlags :=
  {| cli_configPath := ""; cli_input := ""; cli_outFile := "";
     cli_rootDir := None; cli_theme := None; cli_size := None;
     cli_title := None; cli_language := None; cli_author := None;
     cli_pressReady := false; cli_verbose := None; cli_timeout := 0;
     cli_loadMode := None; cli_sandbox := true;
     cli_executableChromium := None |}.

(** The environment: [config] is the module at
    [/proj/vivliostyle.config.js] if any; [documents] gives the title
    and theme found inside each source document; the viewer emits
    [events] and is ready at poll [ready]. *)
Definition env_of (config : option VivliostyleConfig)
    (documents : string -> option string * option string)
    (events : list Payload) (ready : option nat) : Env :=
  {| cwd := "/proj";
     path_resolve := resolve;
     path_join := join;
     path_relative := relative;
     path_dirname := dirname;
     path_basename := basename;
     path_basename_ext := basename_ext;
     existsSync := fun p =>
       match config with
       | Some _ => String.eqb p "/proj/vivliostyle.config.js"
       | None => false
       end;
     isDirectorySync := fun _ => false;
     require_config := fun p =>
       match config with
       | Some c => Returned c
       | None => Thrown (External "MODULE_NOT_FOUND")
       end;
     nearest_package := Returned None;
     read_package_json := fun _ => Thrown (External "ENOENT");
     now_iso := "2020-06-01T00:00:00.000Z";
     resolvePkg := fun _ => None;
     markdown_data := fun p => Returned (documents p);
     markdown_render := fun p stylesheet => Returned ("<html>" ++ p ++ "</html>")%string;
     html_data := fun p => Returned (documents p);
     stat_isDirectory := fun _ => false;
     entryPointFile := fun input root => relative root input;
     server_ports := fun _ => (13000, 13001)%Z;
     getBrokerUrl := fun _ => "http://localhost:13001/broker/index.html";
     default_chromium := "/usr/bin/chromium";
     viewer_metadata := "{}";
     viewer_toc := [];
     done_events := events;
     ready_after := ready;
     pdf_bytes := "%PDF";
     fails := fun _ => None |}.

Definition no_documents (p : string) : option string * option string :=
  (None, None).

Definition pdf_args (timeout : Z) : PdfArgs :=
  {| pa_input := "/proj/.vivliostyle/manifest.json";
     pa_rootDir := Some "/proj/.vivliostyle";
     pa_outputPath := "/proj/output.pdf";
     pa_size := None;
     pa_loadMode := Book;
     pa_executableChromium := None;
     pa_sandbox := true;
     pa_verbose := false;
     pa_timeout := timeout;
     pa_pressReady := false |}.

(** Two Markdown entries; only the first document names a theme, and
    no theme is set on the command line or in the configuration. *)
Definition two_entries : VivliostyleConfig :=
  config_with (EntryArray [RawPath "a.md"; RawPath "b.md"]).

Definition first_has_theme (p : string) : option string * option string :=
  if String.eqb p "/proj/a.md"
  then (Some "A", Some "https://example.com/theme.css")
  else (None, None).

Definition remote_theme : ParsedTheme :=
  {| t_type := ThemeUri; t_name := "theme.css";
     t_location := "https://example.com/theme.css" |}.

(** A configuration file with a title and a timeout. *)
Definition titled_config : VivliostyleConfig :=
  {| cfg_title := Some "Book"; cfg_author := None; cfg_language := None;
     cfg_theme := None; cfg_outDir := None; cfg_outFile := None;
     cfg_entry := EntryOne (RawPath "a.md"); cfg_entryContext := None;
     cfg_toc := Some (TocBool false); cfg_size := None;
     cfg_pressReady := None; cfg_timeout := Some 5000%Z |}.

(** [--title "" --timeout 0 --no-sandbox --language ja] *)
Definition falsy_flags : BuildCliFlags :=
  {| cli_configPath := ""; cli_input := ""; cli_outFile := "";
     cli_rootDir := None; cli_theme := None; cli_size := None;
     cli_title := Some ""; cli_language := Some "ja"; cli_author := None;
     cli_pressReady := false; cli_verbose := None; cli_timeout := 0;
     cli_loadMode := None; cli_sandbox := false;
     cli_executableChromium := None |}.

(** [-c missing.config.js a.md] *)
Definition missing_config_flags : BuildCliFlags :=
  {| cli_configPath := "missing.config.js"; cli_input := "a.md";
     cli_outFile := "";
     cli_rootDir := None; cli_theme := None; cli_size := None;
     cli_title := None; cli_language := None; cli_author := None;
     cli_pressReady := false; cli_verbose := None; cli_timeout := 0;
     cli_loadMode := None; cli_sandbox := true;
     cli_executableChromium := None |}.

(** Two documents that name different stylesheets of one basename. *)
Definition clashing_themes (p : string) : option string * option string :=
  if String.eqb p "/proj/a.md"
  then (Some "A", Some "https://example.com/theme.css")
  else (None, Some "https://other.example.org/theme.css").

Definition two_raw_entries : list Entry :=
  map normalizeEnry [RawPath "a.md"; RawPath "b.md"].

(** The manifest of the project [two_entries] with [first_has_theme]. *)
Definition manifest : Manifest :=
  {| m_context := "https://readium.org/webpub-manifest/context.jsonld";
     m_metadata :=
       {| md_type := "http://schema.org/Book";
          md_title := None; md_author := None;
          md_language := Some "en";
          md_modified := "2020-06-01T00:00:00.000Z" |};
     m_links := [];
     m_readingOrder :=
       [ {| ro_href := "artifacts/a.html"; ro_type := "text/html";
            ro_title := Some "A" |};
         {| ro_href := "artifacts/b.html"; ro_type := "text/html";
            ro_title := None |} ];
     m_resources := [toc_resource] |}.

Definition toc_done : Payload := {| a := "toc" |}.
Definition nav_done : Payload := {| a := "nav" |}.

End Sample.


(** ** Vocabulary of the properties *)

(** The precedence that the specification words: the first value that is
    supplied wins, whatever it is. *)
Definition spec_precedence {A} (cli config pkg dflt : option A) : option A :=
  match cli, config, pkg with
  | Some v, _, _ => Some v
  | None, Some v, _ => Some v
  | None, None, Some v => Some v
  | None, None, None => dflt
  end.

(** A falsy value counts as not supplied. *)
Definition if_truthy {A} `{Truthy A} (o : option A) : option A :=
  if truthy o then o else None.

(** [s] has no comma. *)
Fixpoint no_comma (s : string) : bool :=
  match s with
  | EmptyString => true
  | String c rest => negb (Ascii.eqb c ","%char) && no_comma rest
  end.



Definition is_page_pdf (o : op) : bool :=
  match o with PagePdf => true | _ => false end.

Definition is_post_save (o : op) : bool :=
  match o with PostSave _ _ => true | _ => false end.

Definition is_browser_close (o : op) : bool :=
  match o with BrowserClose => true | _ => false end.

Definition is_toc_action (p : Payload) : bool := String.eqb (a p) "toc".

(** In the trace [tr], every operation that satisfies [q] comes after one
    that satisfies [p]. *)
Definition precedes (p q : op -> bool) (tr : list op) : Prop :=
  forall pre o post,
    tr = pre ++ o :: post -> q o = true -> exists o', In o' pre /\ p o' = true.

(** The same, computed: scan until the first [q] or the first [p]. *)
Fixpoint precedes_b (p q : op -> bool) (tr : list op) : bool :=
  match tr with
  | [] => true
  | o :: rest =>
      if q o then false
      else if p o then true
      else precedes_b p q rest
  end.

(** The state once [loadTOC] has registered its listener and shown the
    contents panel, and the state once the listener has run for a [toc]
    event. *)
Definition toc_shown (w : World) : World :=
  apply_op (ShowTOC true) (apply_op AddListener (snd (new_promise w))).

Definition toc_read (env : Env) (w : World) : World :=
  snd (resolve_toc (viewer_toc env)
         (apply_op GetTOC (apply_op (ShowTOC false) (apply_op RemoveListener w)))).

(** Readiness is not seen by any poll that happens before the timeout. *)
Definition never_ready_within (env : Env) (timeout : Z) : Prop :=
  match ready_after env with
  | Some k => (timeout <= Z.of_nat k * 1000)%Z
  | None => True
  end.

(** Everything [generatePDF] does before it waits for pagination
    succeeds: no operation fails, the page size (if any) parses, and the
    viewer reports the end of the [toc] action. *)
Definition reaches_pagination (env : Env) (args : PdfArgs) : Prop :=
  (forall o, fails env o = None)
  /\ existsb is_toc_action (done_events env) = true
  /\ (forall s, pa_size args = Some s -> truthy s = true ->
                exists ps, parsePageSize s = Returned ps).

(** Neither a capture, nor a save, nor the closing of the browser. *)
Definition no_capture_save_close (o : op) : bool :=
  negb (is_page_pdf o || is_post_save o || is_browser_close o).

(** The target path that [parseEntry] computes from an entry path. *)
Definition target_path (env : Env) (contextDir artifactDir : string)
    (entryPath : string) : string :=
  let sourcePath := path_resolve env contextDir entryPath in
  replace_md_suffix
    (path_resolve env artifactDir (path_relative env contextDir sourcePath)).

(** A state property after a computation, given one before it; the
    postcondition also holds of the state in which an exception left. *)
Definition hoare {A} (P : World -> Prop) (m : M A) (Q : World -> Prop) : Prop :=
  forall w, P w -> Q (snd (m w)).

Definition distinct_names (w : World) : Prop := NoDup (map t_name (themes w)).
Definition no_themes (w : World) : Prop := themes w = [].

(** The theme set grows at its end only, and keeps its names distinct. *)
Definition themes_extend (w w' : World) : Prop :=
  (exists added, themes w' = themes w ++ added)
  /\ (NoDup (map t_name (themes w)) -> NoDup (map t_name (themes w'))).

(** The record that a theme set holds under a name: the first one. *)
Definition lookup_theme (name : string) (ts : list ParsedTheme)
    : option ParsedTheme :=
  find (fun t => String.eqb (t_name t) name) ts.

(** The themes of the parsed entries, in the order of the entries. *)
Definition entry_themes (entries : list ParsedEntry) : list ParsedTheme :=
  flat_map (fun pe => match pe_theme pe with Some t => [t] | None => [] end)
    entries.

(** [appends Q m]: from any state, running [m] only appends operations to
    the trace, and each of them satisfies [Q]; this holds of the state in
    which [m] returns, throws or stays pending alike. *)
Definition appends {A} (Q : op -> Prop) (m : M A) : Prop :=
  forall w, exists ops, trace (snd (m w)) = trace w ++ ops /\ Forall Q ops.

(** Nothing in [generatePDF] writes a file through [fs]. *)
Definition not_fs_write (o : op) : Prop :=
  match o with FsWrite _ _ => False | _ => True end.

(** Every manifest that is written is [m0]. *)
Definition writes_only_manifest (m0 : Manifest) (o : op) : Prop :=
  match o with
  | FsWrite _ (ManifestJson m) => m = m0
  | _ => True
  end.


(** How a run of [generatePDF] ends when readiness is not reached. *)
Definition timeout_outcome (env : Env) (args : PdfArgs) (w0 : World)
    (r : outcome string * World) : Prop :=
  (forall outputFile, fst r <> Returned outputFile)
  /\ (exists ops,
        trace (snd r) = trace w0 ++ ops
        /\ forallb no_capture_save_close ops = true)
  /\ (reaches_pagination env args ->
      fst r = Thrown TimeoutError /\ browser (snd r) = Running).

(** ** Vocabulary of the further properties *)

(** [s] has no slash. *)
Fixpoint no_slash (s : string) : bool :=
  match s with
  | EmptyString => true
  | String c rest => negb (Ascii.eqb c "/"%char) && no_slash rest
  end.

(** The stylesheet that [parseTheme] picks in a package descriptor. *)
Definition maybeCSS_of (packageJson : PackageJson) : option string :=
  pkg_vivliostyle_theme_style packageJson
  ||| pkg_vivliostyle_theme_stylesheet packageJson
  ||| pkg_style packageJson
  ||| pkg_main packageJson.

(** An environment with installed packages: [roots] is [resolve-pkg],
    [descriptors] reads a [package.json]. *)
Definition with_packages (env : Env) (roots : string -> option string)
    (descriptors : string -> outcome PackageJson) : Env :=
  {| cwd := cwd env;
     path_resolve := path_resolve env;
     path_join := path_join env;
     path_relative := path_relative env;
     path_dirname := path_dirname env;
     path_basename := path_basename env;
     path_basename_ext := path_basename_ext env;
     existsSync := existsSync env;
     isDirectorySync := isDirectorySync env;
     require_config := require_config env;
     nearest_package := nearest_package env;
     read_package_json := descriptors;
     now_iso := now_iso env;
     resolvePkg := roots;
     markdown_data := markdown_data env;
     markdown_render := markdown_render env;
     html_data := html_data env;
     stat_isDirectory := stat_isDirectory env;
     entryPointFile := entryPointFile env;
     server_ports := server_ports env;
     getBrokerUrl := getBrokerUrl env;
     default_chromium := default_chromium env;
     viewer_metadata := viewer_metadata env;
     viewer_toc := viewer_toc env;
     done_events := done_events env;
     ready_after := ready_after env;
     pdf_bytes := pdf_bytes env;
     fails := fails env |}.

(** A scoped theme package whose descriptor names its stylesheet in
    [style]. *)
Definition scoped_package : PackageJson :=
  {| pkg_name := Some "@vivliostyle/theme-bunko";
     pkg_author := None;
     pkg_vivliostyle_theme_style := None;
     pkg_vivliostyle_theme_stylesheet := None;
     pkg_style := Some "theme.css";
     pkg_main := Some "index.js" |}.

(** A package whose descriptor names a Sass file first and a stylesheet as
    [main]. *)
Definition sass_package : PackageJson :=
  {| pkg_name := Some "sassy";
     pkg_author := None;
     pkg_vivliostyle_theme_style := Some "theme.scss";
     pkg_vivliostyle_theme_stylesheet := None;
     pkg_style := None;
     pkg_main := Some "theme.css" |}.

Definition package_env : Env :=
  with_packages (Sample.env_of None Sample.no_documents [] None)
    (fun name =>
       if String.eqb name "@vivliostyle/theme-bunko"
       then Some "/proj/node_modules/@vivliostyle/theme-bunko"
       else if String.eqb name "sassy" then Some "/proj/node_modules/sassy"
       else if String.eqb name "./local.css" then Some "/proj/local.css"
       else None)
    (fun p =>
       if String.eqb p "/proj/node_modules/@vivliostyle/theme-bunko/package.json"
       then Returned scoped_package
       else if String.eqb p "/proj/node_modules/sassy/package.json"
       then Returned sass_package
       else Thrown (External "ENOENT")).

(** The operations that [build] may perform on files, for the merged
    configuration [c], the parsed entries and the theme set [ts]: in the
    staging directory what is listed here, and outside of it the save of
    the PDF at the output file; nothing else is removed, created, copied,
    written or saved. *)
Definition staged_op (env : Env) (c : Merged) (entries : list ParsedEntry)
    (ts : list ParsedTheme) (o : op) : Prop :=
  match o with
  | FsRmRf p => p = distDir c
  | FsMkdirP p =>
      p = artifactDir c
      \/ exists pe, In pe entries /\ pe_type pe = Markdown
                    /\ p = dir (pe_target pe)
  | FsWrite p (Text file) =>
      exists pe, In pe entries /\ pe_type pe = Markdown
                 /\ p = path (pe_target pe)
                 /\ markdown_render env (path (pe_source pe))
                      (stylesheet_of env (distDir c) pe) = Returned file
  | FsWrite p (ManifestJson m) =>
      p = path_join env (distDir c) "manifest.json"
      /\ m = manifest_object (manifest_options env c entries)
  | FsWrite p (TocHtml items) =>
      p = path_join env (distDir c) "toc.html"
      /\ TocHtml items = generateToC env entries (distDir c)
  | FsCp src dst =>
      (exists pe, In pe entries /\ pe_type pe = Html
                  /\ src = path (pe_source pe) /\ dst = path (pe_target pe))
      \/ (exists t, In t ts /\ t_type t = ThemePath
                    /\ src = t_location t
                    /\ dst = path_join env (distDir c) (t_name t))
      \/ (exists p, toc c = TocFile p
                    /\ src = path_resolve env (contextDir c) p
                    /\ dst = path_join env (distDir c) "toc.html")
  | PostSave p ready =>
      p = (if existsSync env (outFile c) && isDirectorySync env (outFile c)
           then path_resolve env (outFile c) "output.pdf"
           else outFile c)
      /\ ready = pressReady c
  | _ => True
  end.

(** [appends_with ts Q m]: started with the theme set [ts], [m] keeps it
    and appends only operations that satisfy [Q]. *)
Definition appends_with {A} (ts : list ParsedTheme) (Q : op -> Prop)
    (m : M A) : Prop :=
  forall w, themes w = ts ->
    themes (snd (m w)) = ts
    /\ exists ops, trace (snd (m w)) = trace w ++ ops /\ Forall Q ops.

Definition is_path_theme (t : ParsedTheme) : bool :=
  match t_type t with ThemePath => true | ThemeUri => false end.

(** An environment in which some operations fail. *)
Definition with_failures (env : Env) (failing : op -> option exn) : Env :=
  {| cwd := cwd env;
     path_resolve := path_resolve env;
     path_join := path_join env;
     path_relative := path_relative env;
     path_dirname := path_dirname env;
     path_basename := path_basename env;
     path_basename_ext := path_basename_ext env;
     existsSync := existsSync env;
     isDirectorySync := isDirectorySync env;
     require_config := require_config env;
     nearest_package := nearest_package env;
     read_package_json := read_package_json env;
     now_iso := now_iso env;
     resolvePkg := resolvePkg env;
     markdown_data := markdown_data env;
     markdown_render := markdown_render env;
     html_data := html_data env;
     stat_isDirectory := stat_isDirectory env;
     entryPointFile := entryPointFile env;
     server_ports := server_ports env;
     getBrokerUrl := getBrokerUrl env;
     default_chromium := default_chromium env;
     viewer_metadata := viewer_metadata env;
     viewer_toc := viewer_toc env;
     done_events := done_events env;
     ready_after := ready_after env;
     pdf_bytes := pdf_bytes env;
     fails := failing |}.

(** The staging directory cannot be removed. *)
Definition rm_fails (o : op) : option exn :=
  match o with
  | FsRmRf _ => Some (External "EACCES")
  | _ => None
  end.

(** The file that [generatePDF] saves and returns. *)
Definition output_file (env : Env) (args : PdfArgs) : string :=
  if existsSync env (pa_outputPath args) && isDirectorySync env (pa_outputPath args)
  then path_resolve env (pa_outputPath args) "output.pdf"
  else pa_outputPath args.

(** What [generatePDF] may do to files: nothing through the file system
    calls of [build], and the one save of the PDF at the output file. *)
Definition rendered_op (env : Env) (args : PdfArgs) (o : op) : Prop :=
  match o with
  | FsRmRf _ | FsMkdirP _ | FsCp _ _ | FsWrite _ _ => False
  | PostSave p ready => p = output_file env args /\ ready = pa_pressReady args
  | _ => True
  end.

(** Readiness is seen by a poll that happens before the timeout, or at
    some poll when the timeout is disabled. *)
Definition ready_in_time (env : Env) (timeout : Z) : Prop :=
  exists k, ready_after env = Some k
            /\ (timeout = 0%Z \/ (Z.of_nat k * 1000 < timeout)%Z).

(** The name of the call behind an operation. *)
Definition op_name (o : op) : string :=
  match o with
  | FsRmRf _ => "shelljs.rm"
  | FsMkdirP _ => "shelljs.mkdir"
  | FsCp _ _ => "shelljs.cp"
  | FsWrite _ _ => "fs.writeFileSync"
  | StatFile _ => "statFile"
  | FindEntryPointFile _ _ => "findEntryPointFile"
  | LaunchServers _ => "launchSourceAndBrokerServer"
  | LaunchBrowser _ _ => "launchBrowser"
  | BrowserVersion => "browser.version"
  | NewPage => "browser.newPage"
  | PageGoto _ => "page.goto"
  | WaitForViewer => "page.waitFor"
  | GetMetadata => "coreViewer.getMetadata"
  | AddListener => "coreViewer.addListener"
  | RemoveListener => "coreViewer.removeListener"
  | ShowTOC _ => "coreViewer.showTOC"
  | GetTOC => "coreViewer.getTOC"
  | ResolveTOC => "resolve"
  | EmulateMediaType _ => "page.emulateMediaType"
  | WaitForReady _ => "page.waitForFunction"
  | PagePdf => "page.pdf"
  | BrowserClose => "browser.close"
  | PostLoad => "PostProcess.load"
  | PostMetadata _ => "post.metadata"
  | PostToc _ => "post.toc"
  | PostSave _ _ => "post.save"
  | Log _ => "log"
  | ProcessExit _ => "process.exit"
  end.

Definition named (name : string) (o : op) : bool := String.eqb (op_name o) name.

(** The calls of [generatePDF] on the browser and the post-processor, in
    the order of the source. *)
Definition render_sequence : list string :=
  [ "statFile"; "findEntryPointFile"; "launchSourceAndBrokerServer";
    "launchBrowser"; "browser.version"; "browser.newPage"; "page.goto";
    "page.waitFor"; "coreViewer.getMetadata"; "coreViewer.addListener";
    "coreViewer.showTOC"; "coreViewer.removeListener"; "coreViewer.getTOC";
    "resolve"; "page.emulateMediaType"; "page.waitForFunction"; "page.pdf";
    "browser.close"; "PostProcess.load"; "post.metadata"; "post.toc";
    "post.save" ].

(** Each call of the sequence happens only after the one before it. *)
Fixpoint in_sequence (names : list string) (ops : list op) : Prop :=
  match names with
  | first :: ((second :: _) as rest) =>
      precedes (named first) (named second) ops /\ in_sequence rest ops
  | _ => True
  end.

(** What holds whenever [m] returns: of the value, the final state and
    the operations added. *)
Definition returns_with {A} (P : A -> World -> list op -> Prop) (m : M A)
    : Prop :=
  forall w x w',
    m w = (Returned x, w') ->
    exists ops, trace w' = trace w ++ ops /\ P x w' ops.

(** The arguments with which the browser may be launched. *)
Definition launched_as (exe : option string) (argv : list string) (o : op)
    : Prop :=
  match o with
  | LaunchBrowser exe' argv' => exe' = exe /\ argv' = argv
  | _ => True
  end.

(** The last operations of a successful build: the save of the file
    [f], the two messages and the exit with code 0; the browser is
    closed. *)
Definition ends_with_exit (u : unit) (w' : World) (ops : list op) : Prop :=
  browser w' = Closed
  /\ exists before f pressReady,
       ops = before ++ [ PostSave f pressReady; Log "Done";
                         Log (f ++ " has been created"); ProcessExit 0 ].

(** [m] adds operations among which [q] comes only after [p]. *)
Definition ordered {A} (p q : op -> bool) (m : M A) : Prop :=
  forall w, exists ops,
    trace (snd (m w)) = trace w ++ ops /\ precedes p q ops.

(** An operation that [generatePDF] performs only once the contents were
    read: the media type, the wait for readiness, the capture, the closing
    of the browser, the post-processing; or the removal of the listener. *)
Definition after_contents (o : op) : bool :=
  named "coreViewer.removeListener" o || named "page.emulateMediaType" o
  || named "page.waitForFunction" o || named "page.pdf" o
  || named "browser.close" o || named "PostProcess.load" o
  || named "post.save" o.

(** How [generatePDF] ends when the contents are never reported. *)
Definition waits_for_contents (env : Env) (args : PdfArgs) (w0 : World)
    (r : outcome string * World) : Prop :=
  (forall f, fst r <> Returned f)
  /\ (exists ops,
        trace (snd r) = trace w0 ++ ops
        /\ forallb (fun o => negb (after_contents o)) ops = true)
  /\ ((forall o, fails env o = None) ->
      (forall s, pa_size args = Some s -> truthy s = true ->
                 exists ps, parsePageSize s = Returned ps) ->
      fst r = Pending
      /\ browser (snd r) = Running
      /\ tocVisible (snd r) = true
      /\ listening (snd r) = true).

(** How [generatePDF] returns. *)
Definition returns_saved (env : Env) (args : PdfArgs) (w0 : World)
    (r : outcome string * World) : Prop :=
  (forall f, fst r = Returned f ->
             f = output_file env args
             /\ browser (snd r) = Closed
             /\ tocVisible (snd r) = false
             /\ listening (snd r) = false
             /\ exists before,
                  trace (snd r)
                  = trace w0 ++ before ++ [PostSave f (pa_pressReady args)])
  /\ (reaches_pagination env args -> ready_in_time env (pa_timeout args) ->
      fst r = Returned (output_file env args)).

(** The operations of a run follow the order of the source. *)
Definition runs_in_sequence (w0 : World) (r : outcome string * World) : Prop :=
  exists ops,
    trace (snd r) = trace w0 ++ ops /\ in_sequence render_sequence ops.

(** How [generatePDF] ends when the page size does not parse. *)
Definition fails_before_launch (env : Env) (e : exn) (w0 : World)
    (r : outcome string * World) : Prop :=
  browser (snd r) = browser w0
  /\ (exists e', fst r = Thrown e')
  /\ (exists ops,
        trace (snd r) = trace w0 ++ ops
        /\ forallb (fun o => named "statFile" o || named "findEntryPointFile" o)
             ops = true)
  /\ ((forall o, fails env o = None) -> fst r = Thrown e).

(** The sections of [build] after the clean-up of the staging
    directory, under names of their own: [stage_files] is "populate
    entries", "copy theme", "generate manifest" and "generate toc";
    [render_and_exit] is "generate PDF" with the closing messages and
    the exit; [stage] is everything before the render. *)
Definition stage_files (env : Env) (c : Merged) (entries : list ParsedEntry)
    : M unit :=
  forM_ entries (populate env (distDir c)) ;;;
  w <- get_world ;;
  forM_ (themes w) (copyTheme env (distDir c)) ;;;
  generateManifest env (path_join env (distDir c) "manifest.json")
    (manifest_options env c entries) ;;;
  (if truthy (toc c) then
     match toc c with
     | TocFile p =>
         shell env
           (FsCp (show_opt (ctxPath env (contextDir c) (Some p)))
                 (path_join env (distDir c) "toc.html"))
     | TocBool _ =>
         writeFileSync env (path_join env (distDir c) "toc.html")
           (generateToC env entries (distDir c))
     end
   else ret tt).

Definition render_args (env : Env) (c : Merged) : PdfArgs :=
  {| pa_input := path_join env (distDir c) "manifest.json";
     pa_rootDir := Some (distDir c);
     pa_outputPath := outFile c;
     pa_size := size c;
     pa_pressReady := pressReady c;
     pa_verbose := verbose c;
     pa_timeout := timeout c;
     pa_loadMode := loadMode c;
     pa_sandbox := sandbox c;
     pa_executableChromium := executableChromium c |}.

Definition render_and_exit (env : Env) (c : Merged) : M unit :=
  outputFile <- generatePDF env (render_args env c) ;;
  perform env (Log "Done") ;;;
  perform env (Log (outputFile ++ " has been created")) ;;;
  perform env (ProcessExit 0).

Definition stage (env : Env) (c : Merged) (entries : list ParsedEntry)
    : M unit :=
  shell env (FsRmRf (distDir c)) ;;;
  shell env (FsMkdirP (artifactDir c)) ;;;
  stage_files env c entries.

(** The state after a shelljs command. *)
Definition after_shell (env : Env) (o : op) (w : World) : World :=
  snd (shell env o w).

(** The operation [o] if the command does its work in [w]. *)
Definition if_done (env : Env) (o : op) (w : World) : list op :=
  if shell_ok env o w then [o] else [].

(** A computation that returns from no state. *)
Definition never_returns {A} (m : M A) : Prop :=
  forall w x, fst (m w) <> Returned x.

(** * Properties *)

(** ** Page size *)

Lemma split_not_nil sep s : split sep s <> [].
Proof.
  destruct s as [|c s]; simpl; [discriminate|].
  destruct (Ascii.eqb c sep); [discriminate|].
  destruct (split sep s); discriminate.
Qed.

Lemma split_no_comma s : no_comma s = true -> split ","%char s = [s].
Proof.
  induction s as [|c s IH]; simpl; intros H; [reflexivity|].
  apply andb_true_iff in H as [Hc Hs].
  apply negb_true_iff in Hc. rewrite Hc, (IH Hs). reflexivity.
Qed.

Lemma split_app_comma w h :
  no_comma w = true ->
  split ","%char (w ++ String ","%char h) = w :: split ","%char h.
Proof.
  induction w as [|c w IH]; simpl; intros H; [reflexivity|].
  apply andb_true_iff in H as [Hc Hs].
  apply negb_true_iff in Hc. rewrite Hc, (IH Hs). reflexivity.
Qed.

Lemma truthy_string_false (s : string) : truthy s = false -> s = "".
Proof.
  unfold truthy, truthy_string. intros H.
  apply negb_false_iff in H. now apply String.eqb_eq.
Qed.

Lemma parsePageSize_throws_iff s :
  (exists e, parsePageSize (SizeStr s) = Thrown e)
  <-> 2 < List.length (split ","%char s).
Proof.
  unfold parsePageSize. simpl size_to_string.
  destruct (truthy (SizeStr s)) eqn:Ht.
  - destruct (split ","%char s) as [|x [|y [|z r]]] eqn:Hs; simpl.
    + split; [intros [e He]; discriminate | lia].
    + split; [intros [e He]; discriminate | lia].
    + split; [intros [e He] | lia].
      destruct (js_and_cond x y); discriminate.
    + split; [lia | eauto].
  - apply truthy_string_false in Ht. subst s. simpl.
    split; [intros [e He]; discriminate | lia].
Qed.

Lemma parsePageSize_pair w h :
  no_comma w = true -> no_comma h = true ->
  parsePageSize (SizeStr (w ++ "," ++ h)) =
  Returned (if truthy w && truthy h then Dimensions w h
            else Format (if truthy w then w else "Letter")).
Proof.
  intros Hw Hh. unfold parsePageSize. simpl size_to_string.
  assert (Ht : truthy (SizeStr (w ++ "," ++ h)) = true).
  { unfold truthy, truthy_SizeVal, truthy, truthy_string.
    destruct w; reflexivity. }
  rewrite Ht. change ("," ++ h)%string with (String ","%char h).
  rewrite (split_app_comma _ _ Hw), (split_no_comma _ Hh).
  unfold js_and_cond, js_or_lit.
  destruct (truthy w), (truthy h); reflexivity.
Qed.

(** C4 (as amended). [parsePageSize "210mm,297mm"] is the pair,
    [parsePageSize "A4"] is the format ["A4"], and ["1,2,3"] is rejected;
    a size is rejected exactly when it has more than two comma-separated
    components; a size with one comma is never rejected: it is the pair
    when both components are non-empty, and otherwise the format named by
    the first component, or [Letter] when that one is empty. *)
Theorem parsePageSize_shorthand :
  parsePageSize (SizeStr "210mm,297mm") = Returned (Dimensions "210mm" "297mm")
  /\ parsePageSize (SizeStr "A4") = Returned (Format "A4")
  /\ parsePageSize (SizeStr "1,2,3") = Thrown (Error "Cannot parse size: 1,2,3")
  /\ (forall s,
        (exists e, parsePageSize (SizeStr s) = Thrown e)
        <-> 2 < List.length (split ","%char s))
  /\ (forall w h,
        no_comma w = true -> no_comma h = true ->
        parsePageSize (SizeStr (w ++ "," ++ h)) =
        Returned (if truthy w && truthy h then Dimensions w h
                  else Format (if truthy w then w else "Letter"))).
Proof.
  repeat split; try reflexivity.
  - apply parsePageSize_throws_iff.
  - apply parsePageSize_throws_iff.
  - apply parsePageSize_pair.
Qed.

Lemma parsePageSize_shorthand_witness :
  no_comma "210mm" = true /\ no_comma "" = true
  /\ parsePageSize (SizeStr ("210mm" ++ "," ++ "")) = Returned (Format "210mm").
Proof.
  split; [reflexivity|]. split; [reflexivity|].
  exact (proj2 (proj2 (proj2 (proj2 parsePageSize_shorthand)))
           "210mm" "" eq_refl eq_refl).
Defined.

(** C4, as the specification words it, fails: a pair with an empty
    component is not rejected. *)
Lemma parsePageSize_empty_component_accepted :
  parsePageSize (SizeStr "210mm,") = Returned (Format "210mm")
  /\ parsePageSize (SizeStr ",297mm") = Returned (Format "Letter").
Proof. split; reflexivity. Qed.

(** ** The theme set *)

Lemma name_is_new_iff ts t :
  name_is_new ts t = true <-> ~ In (t_name t) (map t_name ts).
Proof.
  unfold name_is_new. rewrite forallb_forall, in_map_iff. split.
  - intros H [x [Hn Hx]]. specialize (H x Hx).
    apply negb_true_iff in H. apply String.eqb_neq in H. contradiction.
  - intros H x Hx. apply negb_true_iff, String.eqb_neq.
    intros Hn. apply H. exists x. auto.
Qed.

Lemma NoDup_names_snoc ts t :
  NoDup (map t_name ts) -> name_is_new ts t = true ->
  NoDup (map t_name (ts ++ [t])).
Proof.
  intros Hnd Hnew. apply name_is_new_iff in Hnew.
  rewrite map_app. simpl.
  apply NoDup_app; [assumption | repeat constructor; intros [] | ].
  intros x Hx [Hx'|[]]. subst x. contradiction.
Qed.

Lemma NoDup_names_unique ts t t' :
  NoDup (map t_name ts) -> In t ts -> In t' ts ->
  t_name t' = t_name t -> t' = t.
Proof.
  induction ts as [|x ts IH]; simpl; intros Hnd Ht Ht' Hn; [contradiction|].
  inversion Hnd as [|? ? Hx Hnd']; subst.
  destruct Ht as [<-|Ht], Ht' as [<-|Ht'].
  - reflexivity.
  - exfalso. apply Hx. rewrite <- Hn. now apply in_map.
  - exfalso. apply Hx. rewrite Hn. now apply in_map.
  - now apply IH.
Qed.

(** What one call of [parseEntry] does to [themes]: nothing, or one push
    of a record whose name was not there. *)
Lemma parseEntry_themes env config ctx art entry w :
  let w' := snd (parseEntry env config ctx art entry w) in
  themes w' = themes w
  \/ exists t, themes w' = themes w ++ [t] /\ name_is_new (themes w) t = true.
Proof.
  unfold parseEntry, bind, lift, get_world, ret, push_theme.
  destruct (parseMetadata env _ _) as [[ttl th]| |]; simpl; auto.
  destruct (parseTheme env (e_theme entry)) as [et| |]; simpl; auto.
  destruct (et ||| th ||| hd_error (themes w)) as [t|]; simpl; auto.
  destruct (name_is_new (themes w) t) eqn:Hnew; simpl; eauto.
Qed.

Lemma themes_extend_refl w : themes_extend w w.
Proof. split; [exists []; now rewrite app_nil_r | auto]. Qed.

Lemma themes_extend_trans w1 w2 w3 :
  themes_extend w1 w2 -> themes_extend w2 w3 -> themes_extend w1 w3.
Proof.
  intros [[a1 E1] N1] [[a2 E2] N2]. split; [|auto].
  exists (a1 ++ a2). now rewrite E2, E1, app_assoc.
Qed.

Lemma parseEntry_extends env config ctx art entry w :
  themes_extend w (snd (parseEntry env config ctx art entry w)).
Proof.
  destruct (parseEntry_themes env config ctx art entry w) as [E|[t [E Hnew]]];
    unfold themes_extend; rewrite E.
  - split; [exists []; now rewrite app_nil_r | auto].
  - split; [now exists [t] | intros; now apply NoDup_names_snoc].
Qed.

(** A relation on states that every step preserves holds across
    [array.map], also when a step throws. *)
Lemma mapM_preserves {A B} (f : A -> M B) (R : World -> World -> Prop) :
  (forall w, R w w) ->
  (forall w1 w2 w3, R w1 w2 -> R w2 w3 -> R w1 w3) ->
  (forall x w, R w (snd (f x w))) ->
  forall l w, R w (snd (mapM f l w)).
Proof.
  intros Hrefl Htrans Hstep l.
  induction l as [|x l IH]; intros w; simpl; [apply Hrefl|].
  unfold bind. specialize (Hstep x w).
  destruct (f x w) as [[y| |] w1]; simpl in *; try assumption.
  specialize (IH w1).
  destruct (mapM f l w1) as [[ys| |] w2]; simpl in *;
    eapply Htrans; eassumption.
Qed.

Lemma first_wins_of_extend w w' :
  NoDup (map t_name (themes w)) -> themes_extend w w' ->
  forall t t', In t (themes w) -> In t' (themes w') ->
               t_name t' = t_name t -> t' = t.
Proof.
  intros Hnd [[added E] N] t t' Ht Ht' Hn.
  apply (NoDup_names_unique (themes w')); auto.
  rewrite E. apply in_or_app. now left.
Qed.

Lemma mapM_parseEntry_extends env config ctx art entries w :
  themes_extend w (snd (mapM (parseEntry env config ctx art) entries w)).
Proof.
  apply mapM_preserves.
  - apply themes_extend_refl.
  - apply themes_extend_trans.
  - intros. apply parseEntry_extends.
Qed.

Lemma hoare_bind {A B} (P Q R : World -> Prop) (m : M A) (k : A -> M B) :
  hoare P m Q -> (forall x, hoare Q (k x) R) -> (forall w, Q w -> R w) ->
  hoare P (bind m k) R.
Proof.
  intros Hm Hk HQR w Hw. unfold bind. specialize (Hm w Hw).
  destruct (m w) as [[x| |] w1]; simpl in *; auto.
  now apply Hk.
Qed.

Lemma hoare_lift {A} (P : World -> Prop) (o : outcome A) : hoare P (lift o) P.
Proof. intros w Hw. exact Hw. Qed.

Lemma hoare_ret {A} (P : World -> Prop) (x : A) : hoare P (ret x) P.
Proof. intros w Hw. exact Hw. Qed.

Lemma hoare_throw {A} (P : World -> Prop) (e : exn) : hoare P (@throw A e) P.
Proof. intros w Hw. exact Hw. Qed.

Lemma no_themes_distinct w : no_themes w -> distinct_names w.
Proof. unfold no_themes, distinct_names. intros ->. constructor. Qed.

Lemma resolveEntries_themes env cliFlags :
  hoare distinct_names (resolveEntries env cliFlags) distinct_names.
Proof.
  unfold resolveEntries.
  apply hoare_bind with (Q := distinct_names);
    [apply hoare_lift | intros pkgJson | auto].
  apply hoare_bind with (Q := distinct_names);
    [apply hoare_lift | intros config | auto].
  apply hoare_bind with (Q := no_themes);
    [intros w _; reflexivity | intros _ | apply no_themes_distinct].
  apply hoare_bind with (Q := no_themes);
    [ destruct (truthy _); [apply hoare_lift | apply hoare_ret]
    | intros rootTheme | apply no_themes_distinct].
  apply hoare_bind with (Q := distinct_names); [ | intros _ | auto].
  - destruct rootTheme as [t|]; intros w E; unfold distinct_names; simpl.
    + rewrite E. simpl. repeat constructor. intros [].
    + now apply no_themes_distinct.
  - apply hoare_bind with (Q := distinct_names); [ | intros entries | auto].
    + intros w Hw. now apply mapM_parseEntry_extends.
    + destruct (Nat.eqb _ _); [apply hoare_throw | apply hoare_ret].
Qed.

(** Everything that a returning call of [parseEntry] determines. *)
Lemma parseEntry_inv env config ctx art entry w pe w' :
  parseEntry env config ctx art entry w = (Returned pe, w') ->
  exists docTitle docTheme entryTheme,
    parseMetadata env
      (if endsWith (path_resolve env ctx (e_path entry)) ".html"
       then Html else Markdown)
      (path_resolve env ctx (e_path entry)) = Returned (docTitle, docTheme)
    /\ parseTheme env (e_theme entry) = Returned entryTheme
    /\ pe_theme pe = entryTheme ||| docTheme ||| hd_error (themes w)
    /\ pe_title pe = e_title entry ||| docTitle ||| opt_field config cfg_title
    /\ themes w'
       = match pe_theme pe with
         | Some t => if name_is_new (themes w) t then themes w ++ [t]
                     else themes w
         | None => themes w
         end.
Proof.
  unfold parseEntry, bind, lift, get_world, ret, push_theme.
  destruct (parseMetadata env _ _) as [[ttl th]| |]; simpl; try discriminate.
  destruct (parseTheme env (e_theme entry)) as [et| |]; simpl; try discriminate.
  intros H. exists ttl, th, et.
  destruct (et ||| th ||| hd_error (themes w)) as [t|] eqn:Ht; simpl in H.
  - destruct (name_is_new (themes w) t) eqn:Hn; inversion H; subst; simpl;
      rewrite ?Hn; repeat split; reflexivity.
  - inversion H; subst; simpl. repeat split; reflexivity.
Qed.

(** The first half of [build], with the root theme it resolved. *)
Lemma resolveEntries_returned_root env cliFlags w c entries w' :
  resolveEntries env cliFlags w = (Returned (c, entries), w') ->
  exists pkgJson config rootTheme w1,
    nearest_package env = Returned pkgJson
    /\ collectVivliostyleConfig env (config_path env cliFlags) = Returned config
    /\ c = mergeConfig env cliFlags config pkgJson (config_path env cliFlags)
    /\ (if truthy (cli_theme cliFlags ||| opt_field config cfg_theme)
        then parseTheme env (cli_theme cliFlags ||| opt_field config cfg_theme)
             = Returned rootTheme
        else rootTheme = None)
    /\ themes w1 = match rootTheme with Some t => [t] | None => [] end
    /\ mapM (parseEntry env config (contextDir c) (artifactDir c))
            (map normalizeEnry (rawEntries cliFlags config)) w1
       = (Returned entries, w').
Proof.
  unfold resolveEntries, bind, lift, reset_themes, ret, throw, push_theme.
  destruct (nearest_package env) as [pkgJson| |]; simpl; try discriminate.
  destruct (collectVivliostyleConfig env _) as [config| |]; simpl;
    try discriminate.
  intros H. exists pkgJson, config.
  destruct (truthy (cli_theme cliFlags ||| opt_field config cfg_theme));
    [ destruct (parseTheme env _) as [rootTheme| |]; simpl in H;
      try discriminate; exists rootTheme; destruct rootTheme as [t|]
    | exists None; simpl in H ].
  all: match type of H with
       | context [mapM ?f ?l ?w1] =>
           exists w1; destruct (mapM f l w1) as [[es| |] w2] eqn:Hm
       end; try discriminate.
  all: destruct es; simpl in H; try discriminate.
  all: inversion H; subst; repeat split; auto.
Qed.

Lemma find_app {A} (f : A -> bool) (l l' : list A) :
  find f (l ++ l')
  = match find f l with Some x => Some x | None => find f l' end.
Proof.
  induction l as [|x l IH]; simpl; [reflexivity|].
  destruct (f x); [reflexivity | exact IH].
Qed.

Lemma lookup_none name ts :
  lookup_theme name ts = None -> ~ In name (map t_name ts).
Proof.
  unfold lookup_theme. intros H Hin. apply in_map_iff in Hin as [t [Hn Ht]].
  apply (find_none _ _ H) in Ht. rewrite Hn, String.eqb_refl in Ht.
  discriminate.
Qed.

(** Looking up a name after [parseEntry] has seen the theme [t]: the
    record that was there, else [t] if it has that name. *)
Lemma lookup_pushed name ts t :
  lookup_theme name (if name_is_new ts t then ts ++ [t] else ts)
  = lookup_theme name (ts ++ [t]).
Proof.
  destruct (name_is_new ts t) eqn:Hnew; [reflexivity|].
  unfold lookup_theme. rewrite find_app.
  destruct (find _ ts) as [x|] eqn:Hf; [reflexivity|].
  simpl. destruct (String.eqb_spec (t_name t) name) as [E|E]; [|reflexivity].
  exfalso. apply (lookup_none name ts Hf). rewrite <- E.
  assert (H : ~ ~ In (t_name t) (map t_name ts)).
  { intros Hn. apply name_is_new_iff in Hn. congruence. }
  destruct (in_dec string_dec (t_name t) (map t_name ts)); tauto.
Qed.

Lemma lookup_app_congr name l1 l2 l :
  lookup_theme name l1 = lookup_theme name l2 ->
  lookup_theme name (l1 ++ l) = lookup_theme name (l2 ++ l).
Proof. unfold lookup_theme. rewrite !find_app. now intros ->. Qed.

Lemma mapM_parseEntry_lookup env config ctx art entries :
  forall w outs w',
    mapM (parseEntry env config ctx art) entries w = (Returned outs, w') ->
    forall name,
      lookup_theme name (themes w')
      = lookup_theme name (themes w ++ entry_themes outs).
Proof.
  induction entries as [|x l IH]; simpl; intros w outs w' H name.
  - inversion H; subst. simpl. now rewrite app_nil_r.
  - unfold bind in H.
    destruct (parseEntry env config ctx art x w) as [[y| |] w1] eqn:Hx;
      try discriminate.
    destruct (mapM _ l w1) as [[ys| |] w2] eqn:Hl; try discriminate.
    inversion H; subst.
    rewrite (IH _ _ _ Hl name).
    destruct (parseEntry_inv _ _ _ _ _ _ _ _ Hx)
      as [_ [_ [_ [_ [_ [_ [_ Hth]]]]]]].
    unfold entry_themes. simpl flat_map. fold (entry_themes ys).
    destruct (pe_theme y) as [t|]; rewrite Hth; [|reflexivity].
    simpl app. change (t :: entry_themes ys) with ([t] ++ entry_themes ys).
    rewrite app_assoc. apply lookup_app_congr, lookup_pushed.
Qed.

(** C6. The theme set of a build is keyed by name, and the first theme
    resolved under a name is the one it keeps. It never holds two
    records of one name, whatever the entries are and also when
    resolving one of them fails; processing any sequence of entries from
    a duplicate-free set only appends to it, keeps it duplicate-free,
    and a record that was in the set is still the only one of its name
    afterwards. When the entries are parsed, the record that the set
    holds under a name is the first of that name among the records it
    held before and the themes of the entries, in their order; in
    [build] these are the root theme, if one is configured, and then the
    themes of the entries: every theme that is resolved is in the set
    under its name, unless an earlier one took the name. *)
Theorem themes_deduplicated_first_wins :
  (forall env cliFlags w,
      NoDup (map t_name (themes w)) ->
      NoDup (map t_name (themes (snd (resolveEntries env cliFlags w)))))
  /\ (forall env config ctx art entries w,
        NoDup (map t_name (themes w)) ->
        let w' := snd (mapM (parseEntry env config ctx art) entries w) in
        NoDup (map t_name (themes w'))
        /\ (exists added, themes w' = themes w ++ added)
        /\ (forall t t', In t (themes w) -> In t' (themes w') ->
                         t_name t' = t_name t -> t' = t))
  /\ (forall env config ctx art entries w outs w',
        mapM (parseEntry env config ctx art) entries w = (Returned outs, w') ->
        forall name,
          lookup_theme name (themes w')
          = lookup_theme name (themes w ++ entry_themes outs))
  /\ (forall env cliFlags w c entries w',
        resolveEntries env cliFlags w = (Returned (c, entries), w') ->
        exists config rootTheme,
          collectVivliostyleConfig env (config_path env cliFlags)
          = Returned config
          /\ (if truthy (cli_theme cliFlags ||| opt_field config cfg_theme)
              then parseTheme env
                     (cli_theme cliFlags ||| opt_field config cfg_theme)
                   = Returned rootTheme
              else rootTheme = None)
          /\ NoDup (map t_name (themes w'))
          /\ forall name,
               lookup_theme name (themes w')
               = lookup_theme name
                   (match rootTheme with Some t => [t] | None => [] end
                    ++ entry_themes entries)).
Proof.
  split; [|split; [|split]].
  - intros. now apply resolveEntries_themes.
  - intros env config ctx art entries w Hnd w'.
    pose proof (mapM_parseEntry_extends env config ctx art entries w) as Hext.
    fold w' in Hext. split; [|split].
    + now apply Hext.
    + apply Hext.
    + now apply first_wins_of_extend.
  - intros env config ctx art entries. apply mapM_parseEntry_lookup.
  - intros env cliFlags w c entries w' Hr.
    destruct (resolveEntries_returned_root _ _ _ _ _ _ Hr)
      as [pkgJson [config [rootTheme [w1 [_ [Hc [_ [Hroot [Hth Hm]]]]]]]]].
    exists config, rootTheme. split; [exact Hc|]. split; [exact Hroot|].
    split.
    + pose proof (mapM_parseEntry_extends env config (contextDir c)
                    (artifactDir c)
                    (map normalizeEnry (rawEntries cliFlags config)) w1)
        as [_ Hnd].
      rewrite Hm in Hnd. apply Hnd. rewrite Hth.
      destruct rootTheme; simpl; repeat constructor. intros [].
    + intros name. rewrite <- Hth. eapply mapM_parseEntry_lookup; eauto.
Qed.

Lemma themes_deduplicated_first_wins_witness :
  let env := Sample.env_of (Some Sample.two_entries) Sample.clashing_themes [] None in
  let other := {| t_type := ThemeUri; t_name := "theme.css";
                  t_location := "https://other.example.org/theme.css" |} in
  NoDup (map t_name (themes initial_world))
  /\ NoDup (map t_name
             (themes (snd (resolveEntries env Sample.no_flags initial_world))))
  /\ (let w' := snd (mapM (parseEntry env None "/proj" "/proj/.vivliostyle/artifacts")
                          Sample.two_raw_entries initial_world) in
      NoDup (map t_name (themes w'))
      /\ (exists added, themes w' = themes initial_world ++ added)
      /\ (forall t t', In t (themes initial_world) -> In t' (themes w') ->
                       t_name t' = t_name t -> t' = t))
  /\ (exists c entries w',
        resolveEntries env Sample.no_flags initial_world
        = (Returned (c, entries), w')
        /\ entry_themes entries = [Sample.remote_theme; other]
        /\ lookup_theme "theme.css" (themes w') = Some Sample.remote_theme).
Proof.
  intros env other.
  assert (H : NoDup (map t_name (themes initial_world))) by constructor.
  split; [exact H|]. split; [|split].
  - exact (proj1 themes_deduplicated_first_wins env Sample.no_flags
             initial_world H).
  - exact (proj1 (proj2 themes_deduplicated_first_wins) env None "/proj"
             "/proj/.vivliostyle/artifacts" Sample.two_raw_entries
             initial_world H).
  - destruct (resolveEntries env Sample.no_flags initial_world)
      as [[[c entries]| |] w'] eqn:E; try (vm_compute in E; discriminate).
    exists c, entries, w'. split; [reflexivity|].
    assert (Ht : entry_themes entries = [Sample.remote_theme; other]).
    { vm_compute in E. inversion E. reflexivity. }
    split; [exact Ht|].
    destruct (proj2 (proj2 (proj2 themes_deduplicated_first_wins))
                env Sample.no_flags initial_world c entries w' E)
      as [config [rootTheme [Hc [Hroot [_ Hl]]]]].
    assert (Hconfig : config = Some Sample.two_entries).
    { change (Returned (Some Sample.two_entries) = Returned config) in Hc.
      now inversion Hc. }
    rewrite Hconfig in Hroot. change (rootTheme = None) in Hroot.
    rewrite Hl, Ht, Hroot. reflexivity.
Defined.

(** Two entries whose documents name different stylesheets called
    [theme.css]: the set keeps the first record only. *)
Example themes_clash_keeps_first :
  themes (snd (run (resolveEntries
                      (Sample.env_of (Some Sample.two_entries)
                         Sample.clashing_themes [] None)
                      Sample.no_flags)))
  = [Sample.remote_theme].
Proof. reflexivity. Qed.

(** ** Entries and the manifest *)

Lemma mapM_Forall2 {A B} (f : A -> M B) (R : A -> B -> Prop) :
  (forall x w y w', f x w = (Returned y, w') -> R x y) ->
  forall l w outs w', mapM f l w = (Returned outs, w') -> Forall2 R l outs.
Proof.
  intros Hf l. induction l as [|x l IH]; simpl; intros w outs w' H.
  - inversion H. constructor.
  - unfold bind in H.
    destruct (f x w) as [[y| |] w1] eqn:Hx; try discriminate.
    destruct (mapM f l w1) as [[ys| |] w2] eqn:Hl; try discriminate.
    inversion H; subst. constructor; eauto.
Qed.

(** What [parseEntry] returns, field by field. *)
Lemma parseEntry_returned env config ctx art entry w pe w' :
  parseEntry env config ctx art entry w = (Returned pe, w') ->
  path (pe_source pe) = path_resolve env ctx (e_path entry)
  /\ path (pe_target pe) = target_path env ctx art (e_path entry)
  /\ pe_type pe = (if endsWith (path_resolve env ctx (e_path entry)) ".html"
                   then Html else Markdown).
Proof.
  unfold parseEntry, bind, lift, get_world, ret, push_theme.
  destruct (parseMetadata env _ _) as [[ttl th]| |]; simpl; try discriminate.
  destruct (parseTheme env (e_theme entry)) as [et| |]; simpl; try discriminate.
  destruct (et ||| th ||| hd_error (themes w)) as [t|]; simpl.
  - destruct (name_is_new (themes w) t); simpl; intros H; inversion H;
      simpl; auto.
  - intros H; inversion H; simpl; auto.
Qed.

Lemma resolveEntries_returned env cliFlags w c entries w' :
  resolveEntries env cliFlags w = (Returned (c, entries), w') ->
  exists pkgJson config w1,
    nearest_package env = Returned pkgJson
    /\ collectVivliostyleConfig env (config_path env cliFlags) = Returned config
    /\ c = mergeConfig env cliFlags config pkgJson (config_path env cliFlags)
    /\ mapM (parseEntry env config (contextDir c) (artifactDir c))
            (map normalizeEnry (rawEntries cliFlags config)) w1
       = (Returned entries, w')
    /\ entries <> [].
Proof.
  unfold resolveEntries, bind, lift, reset_themes, ret, throw.
  destruct (nearest_package env) as [pkgJson| |]; simpl; try discriminate.
  destruct (collectVivliostyleConfig env _) as [config| |]; simpl;
    try discriminate.
  intros H. exists pkgJson, config.
  destruct (truthy (cli_theme cliFlags ||| opt_field config cfg_theme));
    [ destruct (parseTheme env _) as [[t|]| |]; simpl in H; try discriminate
    | simpl in H ].
  all: match type of H with
       | context [mapM ?f ?l ?w1] =>
           exists w1; destruct (mapM f l w1) as [[es| |] w2] eqn:Hm
       end; try discriminate.
  all: destruct es; simpl in H; try discriminate.
  all: inversion H; subst; repeat split; auto; discriminate.
Qed.

(** ** What a computation adds to the trace *)

Section Appends.
Variable Q : op -> Prop.

Lemma appends_nothing {A} (m : M A) :
  (forall w, trace (snd (m w)) = trace w) -> appends Q m.
Proof.
  intros H w. exists []. rewrite H, app_nil_r. split; [reflexivity|constructor].
Qed.

Lemma appends_ret {A} (x : A) : appends Q (ret x).
Proof. now apply appends_nothing. Qed.

Lemma appends_throw {A} e : appends Q (@throw A e).
Proof. now apply appends_nothing. Qed.

Lemma appends_never {A} : appends Q (@never A).
Proof. now apply appends_nothing. Qed.

Lemma appends_lift {A} (o : outcome A) : appends Q (lift o).
Proof. now apply appends_nothing. Qed.

Lemma appends_get_world : appends Q get_world.
Proof. now apply appends_nothing. Qed.

Lemma appends_push_theme t : appends Q (push_theme t).
Proof. now apply appends_nothing. Qed.

Lemma appends_reset_themes : appends Q reset_themes.
Proof. now apply appends_nothing. Qed.

Lemma appends_new_promise : appends Q new_promise.
Proof. now apply appends_nothing. Qed.

Lemma trace_apply_op o w : trace (apply_op o w) = trace w ++ [o].
Proof. destruct o; try destruct visible; reflexivity. Qed.

Lemma appends_emit o : Q o -> appends Q (emit o).
Proof.
  intros HQ w. exists [o]. unfold emit. simpl snd.
  rewrite trace_apply_op. split; [reflexivity | now constructor].
Qed.

Lemma appends_perform env o : Q o -> appends Q (perform env o).
Proof.
  intros HQ w. unfold perform. destruct (fails env o).
  - exists []. simpl. rewrite app_nil_r. split; [reflexivity|constructor].
  - exists [o]. simpl snd. rewrite trace_apply_op.
    split; [reflexivity | now constructor].
Qed.

Lemma appends_shell env o : Q o -> appends Q (shell env o).
Proof.
  intros HQ w. unfold shell. destruct (shell_ok env o w); simpl snd.
  - exists [o]. rewrite trace_apply_op.
    split; [reflexivity | now constructor].
  - exists []. rewrite app_nil_r. split; [reflexivity|constructor].
Qed.

Lemma appends_writeFileSync env p c :
  Q (FsWrite p c) -> appends Q (writeFileSync env p c).
Proof.
  intros HQ w. unfold writeFileSync.
  destruct (fails env (FsWrite p c));
    [|destruct (creatable env w p)]; simpl snd;
    try (exists []; rewrite app_nil_r; split; [reflexivity|constructor]).
  exists [FsWrite p c]. rewrite trace_apply_op.
  split; [reflexivity | now constructor].
Qed.

Lemma appends_resolve_toc t : Q ResolveTOC -> appends Q (resolve_toc t).
Proof.
  intros HQ w. exists [ResolveTOC]. simpl. split; [reflexivity | now constructor].
Qed.

Lemma appends_bind {A B} (m : M A) (k : A -> M B) :
  appends Q m -> (forall x, appends Q (k x)) -> appends Q (bind m k).
Proof.
  intros Hm Hk w. unfold bind. destruct (Hm w) as [ops1 [E1 F1]].
  destruct (m w) as [[x| |] w1]; simpl in *; eauto.
  destruct (Hk x w1) as [ops2 [E2 F2]].
  exists (ops1 ++ ops2). rewrite E2, E1, app_assoc.
  split; [reflexivity | now apply Forall_app].
Qed.

Lemma appends_forM_ {A} (l : list A) (body : A -> M unit) :
  (forall x, appends Q (body x)) -> appends Q (forM_ l body).
Proof.
  intros Hb. induction l as [|x l IH]; simpl.
  - apply appends_ret.
  - apply appends_bind; auto.
Qed.

Lemma appends_mapM {A B} (f : A -> M B) (l : list A) :
  (forall x, appends Q (f x)) -> appends Q (mapM f l).
Proof.
  intros Hf. induction l as [|x l IH]; simpl.
  - apply appends_ret.
  - apply appends_bind; auto. intros y.
    apply appends_bind; auto. intros ys. apply appends_ret.
Qed.

End Appends.

(** Syntax-directed proof that a computation appends only [Q]. *)
Ltac appends_step :=
  first
    [ apply appends_ret | apply appends_throw | apply appends_never
    | apply appends_lift | apply appends_get_world | apply appends_push_theme
    | apply appends_reset_themes | apply appends_new_promise
    | apply appends_bind; [ | intros ? ]
    | apply appends_forM_; intros ?
    | apply appends_mapM; intros ?
    | apply appends_perform | apply appends_shell | apply appends_writeFileSync
    | apply appends_emit | apply appends_resolve_toc
    | match goal with
      | |- appends _ (match ?x with _ => _ end) => destruct x
      | |- appends _ (let '(_, _) := ?x in _) => destruct x
      end ].

Lemma appends_parseEntry Q env config ctx art entry :
  appends Q (parseEntry env config ctx art entry).
Proof. unfold parseEntry. repeat appends_step. Qed.

Lemma appends_resolveEntries Q env cliFlags :
  appends Q (resolveEntries env cliFlags).
Proof.
  unfold resolveEntries. repeat appends_step.
Qed.

Lemma resolveEntries_trace env cliFlags w :
  trace (snd (resolveEntries env cliFlags w)) = trace w.
Proof.
  destruct (appends_resolveEntries (fun _ => False) env cliFlags w)
    as [ops [E F]].
  destruct ops as [|o ops]; [now rewrite app_nil_r in E|].
  inversion F; contradiction.
Qed.

Lemma appends_loadTOC (Q : op -> Prop) env :
  Q AddListener -> Q RemoveListener -> Q GetTOC -> Q ResolveTOC ->
  (forall b, Q (ShowTOC b)) ->
  appends Q (loadTOC env).
Proof.
  intros. unfold loadTOC, emit_done, listener, await_toc.
  repeat appends_step; auto.
Qed.

Lemma appends_waitForReady (Q : op -> Prop) env timeout :
  Q (WaitForReady timeout) -> appends Q (waitForReady env timeout).
Proof. intros. unfold waitForReady. repeat appends_step; auto. Qed.

Lemma appends_generatePDF env args :
  appends not_fs_write (generatePDF env args).
Proof.
  unfold generatePDF, loadMetadata.
  repeat first [ apply appends_loadTOC | apply appends_waitForReady
               | appends_step ]; try exact I.
  intros; exact I.
Qed.

Lemma appends_weaken {A} (Q Q' : op -> Prop) (m : M A) :
  (forall o, Q o -> Q' o) -> appends Q m -> appends Q' m.
Proof.
  intros HQ Hm w. destruct (Hm w) as [ops [E F]]. exists ops.
  split; [assumption|]. eapply Forall_impl; eauto.
Qed.

Lemma appends_stageAndRender env c entries :
  appends (writes_only_manifest (manifest_object (manifest_options env c entries)))
          (stageAndRender env c entries).
Proof.
  unfold stageAndRender, populate, copyTheme, generateManifest, generateToC.
  repeat first
    [ apply (appends_weaken not_fs_write);
      [ intros [] ?; simpl in *; tauto | apply appends_generatePDF ]
    | appends_step ]; simpl; auto.
Qed.

(** The manifest that a run of [build] writes is the object built from
    the merged configuration and the parsed entries. *)
Lemma build_manifest_written env cliFlags p m :
  In (FsWrite p (ManifestJson m)) (trace (snd (run (build env cliFlags)))) ->
  exists c entries w',
    resolveEntries env cliFlags initial_world = (Returned (c, entries), w')
    /\ m = manifest_object (manifest_options env c entries).
Proof.
  unfold run, build, bind.
  pose proof (resolveEntries_trace env cliFlags initial_world) as Ht.
  destruct (resolveEntries env cliFlags initial_world) as [[[c entries]| |] w1];
    simpl in *; try (rewrite Ht; intros []).
  destruct (appends_stageAndRender env c entries w1) as [ops [E F]].
  rewrite E, Ht. simpl. intros Hin.
  rewrite Forall_forall in F. specialize (F _ Hin). simpl in F.
  exists c, entries, w1. auto.
Qed.

(** C5. In every run of [build], the manifest that is written has one
    [readingOrder] item per entry of the input, in the order of the
    input: the i-th [href] is the staged path of the i-th raw entry, which
    depends on that entry's path only, and the i-th title is the one
    resolved for the i-th entry. *)
Theorem manifest_reading_order env cliFlags p m :
  In (FsWrite p (ManifestJson m)) (trace (snd (run (build env cliFlags)))) ->
  exists config c entries w',
    collectVivliostyleConfig env (config_path env cliFlags) = Returned config
    /\ resolveEntries env cliFlags initial_world = (Returned (c, entries), w')
    /\ let raws := map normalizeEnry (rawEntries cliFlags config) in
       List.length (m_readingOrder m) = List.length raws
       /\ List.length (m_readingOrder m) = List.length entries
       /\ map ro_href (m_readingOrder m)
          = map (fun r =>
                   path_relative env (distDir c)
                     (target_path env (contextDir c) (artifactDir c) (e_path r)))
                raws
       /\ map ro_title (m_readingOrder m) = map pe_title entries.
Proof.
  intros Hin.
  destruct (build_manifest_written _ _ _ _ Hin) as [c [entries [w' [Hr ->]]]].
  destruct (resolveEntries_returned _ _ _ _ _ _ Hr)
    as [pkgJson [config [w1 [_ [Hc [_ [Hm _]]]]]]].
  exists config, c, entries, w'. split; [assumption|]. split; [assumption|].
  assert (HF : Forall2
                 (fun (x : Entry) (y : ParsedEntry) =>
                    path (pe_target y)
                    = target_path env (contextDir c) (artifactDir c) (e_path x))
                 (map normalizeEnry (rawEntries cliFlags config)) entries).
  { eapply mapM_Forall2; [|exact Hm].
    intros x w0 y w0' Hxy. now apply parseEntry_returned in Hxy. }
  pose proof (Forall2_length HF) as Hlen.
  cbv zeta. generalize dependent (map normalizeEnry (rawEntries cliFlags config)).
  intros raws _ HF Hlen.
  simpl m_readingOrder. unfold manifest_entries.
  rewrite !length_map, !map_map. simpl.
  split; [now symmetry|]. split; [reflexivity|]. split; [|reflexivity].
  clear -HF. induction HF; simpl; congruence.
Qed.

Lemma manifest_reading_order_witness :
  let env := Sample.env_of (Some Sample.two_entries) Sample.first_has_theme
               [Sample.toc_done] (Some 0) in
  In (FsWrite "/proj/.vivliostyle/manifest.json"
        (ManifestJson Sample.manifest))
     (trace (snd (run (build env Sample.no_flags))))
  /\ exists config c entries w',
       collectVivliostyleConfig env (config_path env Sample.no_flags)
       = Returned config
       /\ resolveEntries env Sample.no_flags initial_world
          = (Returned (c, entries), w')
       /\ let raws := map normalizeEnry (rawEntries Sample.no_flags config) in
          List.length (m_readingOrder Sample.manifest) = List.length raws
          /\ List.length (m_readingOrder Sample.manifest) = List.length entries
          /\ map ro_href (m_readingOrder Sample.manifest)
             = map (fun r =>
                      path_relative env (distDir c)
                        (target_path env (contextDir c) (artifactDir c)
                           (e_path r)))
                   raws
          /\ map ro_title (m_readingOrder Sample.manifest)
             = map pe_title entries.
Proof.
  intros env.
  assert (H : In (FsWrite "/proj/.vivliostyle/manifest.json"
                    (ManifestJson Sample.manifest))
                 (trace (snd (run (build env Sample.no_flags))))).
  { vm_compute. repeat (first [left; reflexivity | right]). }
  split; [exact H|].
  exact (manifest_reading_order env Sample.no_flags _ _ H).
Defined.

(** ** The contents round trip of [loadTOC] *)

Lemma is_toc_action_iff p : is_toc_action p = true <-> a p = "toc".
Proof. apply String.eqb_eq. Qed.

Lemma events_not_listening env evs w :
  listening w = false -> forM_ evs (emit_done env) w = (Returned tt, w).
Proof.
  intros Hl. induction evs as [|p evs IH]; simpl; [reflexivity|].
  unfold bind at 1. unfold emit_done at 1, bind, get_world.
  rewrite Hl. simpl. exact IH.
Qed.

Lemma events_listening env evs w :
  listening w = true ->
  forM_ evs (emit_done env) w
  = (Returned tt, if existsb is_toc_action evs then toc_read env w else w).
Proof.
  intros Hl. induction evs as [|p evs IH]; simpl; [reflexivity|].
  unfold bind at 1. unfold emit_done at 1, bind, get_world.
  rewrite Hl. unfold listener, is_toc_action.
  destruct (String.eqb (a p) "toc"); simpl.
  - apply events_not_listening. reflexivity.
  - exact IH.
Qed.

(** [loadTOC] in closed form: it returns the contents when one of the
    [done] events carries the action [toc], and stays pending otherwise. *)
Lemma loadTOC_eq env w :
  loadTOC env w
  = if existsb is_toc_action (done_events env)
    then (Returned (viewer_toc env), toc_read env (toc_shown w))
    else (Pending, toc_shown w).
Proof.
  unfold loadTOC, bind, new_promise, emit.
  change (apply_op (ShowTOC true)
            (apply_op AddListener
               {| themes := themes w; browser := browser w;
                  tocVisible := tocVisible w; listening := listening w;
                  tocPromise := None; trace := trace w |}))
    with (toc_shown w).
  rewrite (events_listening env (done_events env) (toc_shown w) eq_refl).
  destruct (existsb is_toc_action (done_events env)); reflexivity.
Qed.

Lemma precedes_b_sound p q tr : precedes_b p q tr = true -> precedes p q tr.
Proof.
  induction tr as [|x tr IH]; intros H pre o post E Hq.
  - destruct pre; discriminate.
  - simpl in H. destruct pre as [|y pre]; simpl in E; inversion E; subst.
    + rewrite Hq in H. discriminate.
    + destruct (q y); [discriminate|].
      destruct (p y) eqn:Hp.
      * exists y. split; [now left | assumption].
      * destruct (IH H pre o post eq_refl Hq) as [o' [Hin Ho']].
        exists o'. split; [now right | assumption].
Qed.

Lemma trace_toc_shown w :
  trace (toc_shown w) = trace w ++ [AddListener; ShowTOC true].
Proof. unfold toc_shown. simpl. now rewrite <- app_assoc. Qed.

Lemma trace_toc_read env w :
  trace (toc_read env w)
  = trace w ++ [RemoveListener; ShowTOC false; GetTOC; ResolveTOC].
Proof. unfold toc_read. simpl. now rewrite <- !app_assoc. Qed.

(** *** Case analysis on one step of a computation *)

Section Cases.
Context {A : Type} (G : outcome A * World -> Prop).

Lemma case_perform env o (k : unit -> M A) w :
  (forall e, fails env o = Some e -> G (Thrown e, w)) ->
  (fails env o = None -> G (k tt (apply_op o w))) ->
  G (bind (perform env o) k w).
Proof.
  intros Hf Hs. unfold bind, perform.
  destruct (fails env o) as [e|]; auto.
Qed.

Lemma case_lift {B} (o : outcome B) (k : B -> M A) w :
  (forall e, o = Thrown e -> G (Thrown e, w)) ->
  (o = Pending -> G (Pending, w)) ->
  (forall x, o = Returned x -> G (k x w)) ->
  G (bind (lift o) k w).
Proof. intros Ht Hp Hr. unfold bind, lift. destruct o; auto. Qed.

Lemma case_loadMetadata env (k : Meta -> M A) w :
  (forall e, fails env GetMetadata = Some e -> G (Thrown e, w)) ->
  (fails env GetMetadata = None ->
   G (k (viewer_metadata env) (apply_op GetMetadata w))) ->
  G (bind (loadMetadata env) k w).
Proof.
  intros Hf Hs. unfold loadMetadata, bind, perform, ret.
  destruct (fails env GetMetadata) as [e|]; auto.
Qed.

Lemma case_loadTOC env (k : list TOCItem -> M A) w :
  (existsb is_toc_action (done_events env) = false ->
   G (Pending, toc_shown w)) ->
  (existsb is_toc_action (done_events env) = true ->
   G (k (viewer_toc env) (toc_read env (toc_shown w)))) ->
  G (bind (loadTOC env) k w).
Proof.
  intros Hp Hr. unfold bind. rewrite loadTOC_eq.
  destruct (existsb is_toc_action (done_events env)); auto.
Qed.

Lemma case_waitForReady env timeout (k : unit -> M A) w :
  (timeout <> 0%Z -> never_ready_within env timeout ->
   G (Thrown TimeoutError, w)) ->
  (timeout = 0%Z -> ready_after env = None -> G (Pending, w)) ->
  (~ (timeout <> 0%Z /\ never_ready_within env timeout) ->
   G (k tt (apply_op (WaitForReady timeout) w))) ->
  G (bind (waitForReady env timeout) k w).
Proof.
  intros Ht Hp Hr. unfold bind, waitForReady, never_ready_within in *.
  destruct (ready_after env) as [n|].
  - destruct (Z.eqb_spec timeout 0) as [E|E]; simpl.
    + apply Hr. tauto.
    + destruct (Z.ltb_spec (Z.of_nat n * 1000) timeout); simpl.
      * apply Hr. intros [_ ?]. lia.
      * apply Ht; auto.
  - destruct (Z.eqb_spec timeout 0) as [E|E]; simpl; auto.
Qed.

End Cases.

Lemma bind_bind {A B C} (m : M A) (f : A -> M B) (g : B -> M C) w :
  bind (bind m f) g w = bind m (fun x => bind (f x) g) w.
Proof. unfold bind. destruct (m w) as [[x| |] w1]; reflexivity. Qed.

Lemma bind_ret {A B} (x : A) (k : A -> M B) w : bind (ret x) k w = k x w.
Proof. reflexivity. Qed.

(** Bring the trace of a state reached by a run to the form
    [trace w ++ ops]. *)
Ltac trace_norm :=
  simpl snd; simpl fst;
  repeat (rewrite trace_apply_op || rewrite trace_toc_read
          || rewrite trace_toc_shown);
  rewrite <- ?app_assoc; simpl app.

(** Walk through [generatePDF] one step at a time; [leaf] closes the
    goals in which the run has stopped, [absurd] the continuations that
    the hypotheses exclude. *)
Ltac pdf_cases G leaf absurd :=
  repeat first
    [ apply (case_perform G); [intros ? ?; leaf | intros ?]
    | apply (case_loadMetadata G); [intros ? ?; leaf | intros ?]
    | apply (case_loadTOC G); [intros ?; leaf | intros ?]
    | apply (case_waitForReady G);
      [intros ? ?; leaf | intros ? ?; leaf | intros ?; try solve [absurd]]
    | rewrite bind_bind
    | apply (case_lift G); [intros ? ?; leaf | intros ?; leaf | intros ? ?]
    | rewrite bind_ret
    | match goal with
      | |- context [let '(_, _) := ?x in _] => destruct x
      | |- context [if truthy (pa_size ?args) then _ else _] =>
          let E := fresh "Hsize" in
          destruct (pa_size args) as [?|] eqn:E;
          [ let T := fresh "Htruthy" in
            match goal with
            | |- context [truthy (Some ?s)] =>
                destruct (truthy (Some s)) eqn:T
            end
          | change (truthy (@None SizeVal)) with false; cbv iota ]
      end
    | progress cbv beta ].




(** ** Timeout of the pagination *)

Ltac timeout_leaf :=
  unfold timeout_outcome, ret;
  split;
  [ intros ?; simpl; discriminate
  | split;
    [ trace_norm; eexists;
      split; [first [reflexivity | symmetry; apply app_nil_r] | reflexivity]
    | let Hok := fresh "Hok" in
      let Hev := fresh "Hev" in
      let Hsz := fresh "Hsz" in
      intros [Hok [Hev Hsz]];
      first
        [ match goal with
          | H : fails _ _ = Some _ |- _ => rewrite Hok in H; discriminate
          end
        | match goal with
          | Hs : pa_size _ = Some ?s, Ht : truthy (Some ?s) = true |- _ =>
              let ps := fresh "ps" in
              let Hps := fresh "Hps" in
              destruct (Hsz s Hs Ht) as [ps Hps]; congruence
          end
        | congruence
        | split; reflexivity ] ] ].

Lemma generatePDF_timeout env args w :
  pa_timeout args <> 0%Z ->
  never_ready_within env (pa_timeout args) ->
  timeout_outcome env args w (generatePDF env args w).
Proof.
  intros Hne Hnever. unfold generatePDF. cbv zeta.
  pdf_cases (timeout_outcome env args w) timeout_leaf
    ltac:(exfalso; tauto).
Qed.

Lemma never_returns_bind_l {A B} (m : M A) (k : A -> M B) :
  never_returns m -> never_returns (bind m k).
Proof.
  intros Hm w y. unfold bind. specialize (Hm w).
  destruct (m w) as [[x| |] w1]; simpl in *; try discriminate.
  exfalso. now apply (Hm x).
Qed.

Lemma never_returns_bind_r {A B} (m : M A) (k : A -> M B) :
  (forall x, never_returns (k x)) -> never_returns (bind m k).
Proof.
  intros Hk w y. unfold bind.
  destruct (m w) as [[x| |] w1]; simpl; try discriminate. apply Hk.
Qed.

Lemma timeout_never_zero env cliFlags config pkgJson configPath :
  timeout (mergeConfig env cliFlags config pkgJson configPath) <> 0%Z.
Proof.
  simpl. unfold js_or, js_or_lit, truthy, truthy_option, truthy, truthy_Z.
  destruct (Z.eqb_spec (cli_timeout cliFlags) 0) as [E|E]; simpl.
  - destruct (opt_field config cfg_timeout) as [t|]; [|discriminate].
    destruct (Z.eqb_spec t 0); simpl; [discriminate | assumption].
  - destruct (Z.eqb_spec (cli_timeout cliFlags) 0); simpl; [contradiction|].
    assumption.
Qed.

Lemma stageAndRender_timeout env c entries :
  timeout c <> 0%Z ->
  never_ready_within env (timeout c) ->
  never_returns (stageAndRender env c entries)
  /\ appends (fun o => no_capture_save_close o = true)
             (stageAndRender env c entries).
Proof.
  intros Hne Hnever.
  assert (Hpdf : forall args,
             pa_timeout args = timeout c ->
             never_returns (generatePDF env args)
             /\ appends (fun o => no_capture_save_close o = true)
                        (generatePDF env args)).
  { intros args Ht. rewrite <- Ht in Hne, Hnever. split.
    - intros w x. apply (generatePDF_timeout env args w Hne Hnever).
    - intros w.
      destruct (generatePDF_timeout env args w Hne Hnever)
        as [_ [[ops [E F]] _]].
      exists ops. split; [exact E|].
      apply Forall_forall. rewrite forallb_forall in F. exact F. }
  unfold stageAndRender. split.
  - repeat match goal with
           | |- never_returns (bind (generatePDF _ _) _) => fail 1
           | |- _ => apply never_returns_bind_r; intros ?
           end.
    apply never_returns_bind_l. now apply Hpdf.
  - unfold populate, copyTheme, generateManifest.
    repeat first [ apply Hpdf; reflexivity | appends_step ]; reflexivity.
Qed.

Ltac sequence_leaf :=
  unfold runs_in_sequence, ret; trace_norm; eexists;
  (split; [first [reflexivity | symmetry; apply app_nil_r]|]);
  simpl in_sequence; repeat split; apply precedes_b_sound; reflexivity.

Lemma generatePDF_sequence env args w :
  runs_in_sequence w (generatePDF env args w).
Proof.
  unfold generatePDF. cbv zeta.
  pdf_cases (runs_in_sequence w) sequence_leaf ltac:(fail).
  all: sequence_leaf.
Qed.

Lemma stageAndRender_sections env c entries w :
  stageAndRender env c entries w
  = bind (stage env c entries) (fun _ => render_and_exit env c) w.
Proof.
  unfold stageAndRender, stage, stage_files, render_and_exit, render_args,
    bind, shell, get_world. cbv zeta.
  repeat match goal with
         | |- context [match ?m ?x with _ => _ end] =>
             lazymatch m with
             | forM_ _ _ => destruct (m x) as [[[]| |] ?]
             | generateManifest _ _ _ => destruct (m x) as [[[]| |] ?]
             end
         end; try reflexivity.
  all: destruct (truthy (toc c)); [destruct (toc c)|]; try reflexivity.
  all: match goal with
       | |- context [writeFileSync ?e ?p ?x ?y] =>
           destruct (writeFileSync e p x y) as [[[]| |] ?]
       end; reflexivity.
Qed.

(** C1 (as amended). When readiness is not reached within a non-zero
    timeout, [generatePDF] does not return a file; it captures no PDF,
    saves none, and does not close the browser; and when every step
    before the wait succeeds, it throws the timeout error of
    [waitForFunction] while the browser it launched is still running. The
    same holds of [build], whose timeout is never zero: it does not
    return, and neither captures, nor saves, nor closes the browser; and
    when the entries are resolved, the staging succeeds and every step
    of the render before the wait succeeds, [build] ends with that same
    timeout error, the browser still running. The browser is closed on
    one path only: in every run of [generatePDF] the closing comes after
    the capture, and the post-processing after the closing. *)
Theorem timeout_aborts_without_pdf :
  (forall env args w,
      pa_timeout args <> 0%Z ->
      never_ready_within env (pa_timeout args) ->
      let r := generatePDF env args w in
      (forall outputFile, fst r <> Returned outputFile)
      /\ (exists ops,
            trace (snd r) = trace w ++ ops
            /\ Forall (fun o => is_page_pdf o = false
                                /\ is_post_save o = false
                                /\ is_browser_close o = false) ops)
      /\ (reaches_pagination env args ->
          fst r = Thrown TimeoutError /\ browser (snd r) = Running))
  /\ (forall env cliFlags w,
        (forall c entries w',
            resolveEntries env cliFlags w = (Returned (c, entries), w') ->
            never_ready_within env (timeout c)) ->
        let r := build env cliFlags w in
        (forall u, fst r <> Returned u)
        /\ (exists ops,
              trace (snd r) = trace w ++ ops
              /\ Forall (fun o => is_page_pdf o = false
                                  /\ is_post_save o = false
                                  /\ is_browser_close o = false) ops))
  /\ (forall env cliFlags w c entries w1 w2,
        resolveEntries env cliFlags w = (Returned (c, entries), w1) ->
        stage env c entries w1 = (Returned tt, w2) ->
        reaches_pagination env (render_args env c) ->
        never_ready_within env (timeout c) ->
        let r := build env cliFlags w in
        fst r = Thrown TimeoutError /\ browser (snd r) = Running)
  /\ (forall env args w,
        exists ops,
          trace (snd (generatePDF env args w)) = trace w ++ ops
          /\ precedes (named "page.pdf") (named "browser.close") ops
          /\ precedes (named "browser.close") (named "PostProcess.load") ops).
Proof.
  assert (Hsplit : forall o, no_capture_save_close o = true ->
                             is_page_pdf o = false
                             /\ is_post_save o = false
                             /\ is_browser_close o = false).
  { intros o F. unfold no_capture_save_close in F.
    apply negb_true_iff in F.
    apply orb_false_iff in F as [F1 F3].
    apply orb_false_iff in F1 as [F1 F2]. auto. }
  split; [|split; [|split]].
  - intros env args w Hne Hnever r.
    destruct (generatePDF_timeout env args w Hne Hnever)
      as [Hret [[ops [E F]] Hok]].
    split; [exact Hret|]. split; [|exact Hok].
    exists ops. split; [exact E|].
    apply Forall_forall. intros o Ho.
    rewrite forallb_forall in F. auto.
  - intros env cliFlags w Hnever r. subst r. unfold build, bind.
    pose proof (resolveEntries_trace env cliFlags w) as Ht.
    destruct (resolveEntries env cliFlags w) as [[[c entries]| |] w1] eqn:Hr;
      simpl in *.
    + destruct (resolveEntries_returned _ _ _ _ _ _ Hr)
        as [pkgJson [config [w0 [_ [_ [Hc _]]]]]].
      assert (Hne : timeout c <> 0%Z)
        by (rewrite Hc; apply timeout_never_zero).
      destruct (stageAndRender_timeout env c entries Hne
                  (Hnever c entries w1 eq_refl)) as [Hnr Happ].
      split; [apply Hnr|].
      destruct (Happ w1) as [ops [E F]]. exists ops.
      split; [now rewrite E, Ht|].
      eapply Forall_impl; [|exact F]. exact Hsplit.
    + split; [discriminate|]. exists [].
      rewrite app_nil_r. split; [exact Ht | constructor].
    + split; [discriminate|]. exists [].
      rewrite app_nil_r. split; [exact Ht | constructor].
  - intros env cliFlags w c entries w1 w2 Hr Hst Hok Hnever r. subst r.
    destruct (resolveEntries_returned _ _ _ _ _ _ Hr)
      as [pkgJson [config [w0 [_ [_ [Hc _]]]]]].
    assert (Hne : pa_timeout (render_args env c) <> 0%Z)
      by (simpl; rewrite Hc; apply timeout_never_zero).
    destruct (generatePDF_timeout env (render_args env c) w2 Hne Hnever)
      as [_ [_ Hthrow]].
    destruct (Hthrow Hok) as [H1 H2].
    assert (Hb : build env cliFlags w = render_and_exit env c w2).
    { unfold build. unfold bind at 1. rewrite Hr.
      rewrite stageAndRender_sections. unfold bind at 1. now rewrite Hst. }
    rewrite Hb. unfold render_and_exit, bind.
    destruct (generatePDF env (render_args env c) w2) as [[f| |] w3];
      simpl in *; try discriminate.
    inversion H1. auto.
  - intros env args w.
    destruct (generatePDF_sequence env args w) as [ops [E H]].
    exists ops. split; [exact E|].
    simpl in H. tauto.
Qed.

Lemma timeout_aborts_without_pdf_witness :
  let env := Sample.env_of (Some Sample.two_entries) Sample.no_documents
               [Sample.toc_done] None in
  let r := generatePDF env (Sample.pdf_args 3000) initial_world in
  pa_timeout (Sample.pdf_args 3000) <> 0%Z
  /\ never_ready_within env (pa_timeout (Sample.pdf_args 3000))
  /\ reaches_pagination env (Sample.pdf_args 3000)
  /\ (fst r = Thrown TimeoutError /\ browser (snd r) = Running)
  /\ (forall u, fst (build env Sample.no_flags initial_world) <> Returned u)
  /\ (exists c entries w1 w2,
        resolveEntries env Sample.no_flags initial_world
        = (Returned (c, entries), w1)
        /\ stage env c entries w1 = (Returned tt, w2)
        /\ reaches_pagination env (render_args env c)
        /\ fst (build env Sample.no_flags initial_world) = Thrown TimeoutError
        /\ browser (snd (build env Sample.no_flags initial_world)) = Running).
Proof.
  intros env r.
  assert (H1 : pa_timeout (Sample.pdf_args 3000) <> 0%Z) by discriminate.
  assert (H2 : never_ready_within env (pa_timeout (Sample.pdf_args 3000)))
    by exact I.
  assert (H3 : reaches_pagination env (Sample.pdf_args 3000)).
  { split; [reflexivity|]. split; [reflexivity|]. intros s Hs. discriminate. }
  assert (H4 : forall c entries w',
             resolveEntries env Sample.no_flags initial_world
             = (Returned (c, entries), w') ->
             never_ready_within env (timeout c)).
  { intros c entries w' _. exact I. }
  split; [exact H1|]. split; [exact H2|]. split; [exact H3|].
  split; [|split].
  - exact (proj2 (proj2 (proj1 timeout_aborts_without_pdf env
                           (Sample.pdf_args 3000) initial_world H1 H2)) H3).
  - exact (proj1 (proj1 (proj2 timeout_aborts_without_pdf) env Sample.no_flags
                    initial_world H4)).
  - destruct (resolveEntries env Sample.no_flags initial_world)
      as [[[c entries]| |] w1] eqn:Hr; try (vm_compute in Hr; discriminate).
    destruct (stage env c entries w1) as [[[]| |] w2] eqn:Hs;
      try (vm_compute in Hr; inversion Hr; subst; vm_compute in Hs;
           discriminate).
    assert (H5 : reaches_pagination env (render_args env c)).
    { split; [reflexivity|]. split; [reflexivity|].
      vm_compute in Hr. inversion Hr; subst. intros s Hsz. discriminate. }
    exists c, entries, w1, w2. split; [reflexivity|]. split; [exact Hs|].
    split; [exact H5|].
    exact (proj1 (proj2 (proj2 timeout_aborts_without_pdf)) env Sample.no_flags
             initial_world c entries w1 w2 Hr Hs H5 I).
Defined.

(** C1, as the specification words it, fails: the viewer never becomes
    ready, the build stops with the timeout error and writes no PDF, but
    the browser is still running and was never closed. *)
Lemma timeout_leaves_browser_running :
  let env := Sample.env_of (Some Sample.two_entries) Sample.no_documents
               [Sample.toc_done] None in
  let r := run (build env Sample.no_flags) in
  fst r = Thrown TimeoutError
  /\ browser (snd r) = Running
  /\ existsb is_browser_close (trace (snd r)) = false
  /\ existsb is_post_save (trace (snd r)) = false.
Proof. repeat split. Qed.

(** On the path that captures the PDF the browser is closed before the
    post-processing, and the file is saved. *)
Example capture_closes_browser :
  let env := Sample.env_of (Some Sample.two_entries) Sample.no_documents
               [Sample.toc_done] (Some 2) in
  let r := run (build env Sample.no_flags) in
  fst r = Returned tt
  /\ browser (snd r) = Closed
  /\ precedes_b is_browser_close is_post_save (trace (snd r)) = true
  /\ existsb is_post_save (trace (snd r)) = true.
Proof. repeat split. Qed.

(** ** Configuration *)

Lemma precedence_of_three {A} {T : Truthy A} (x y z : option A) :
  if_truthy (x ||| y ||| z)
  = spec_precedence (if_truthy x) (if_truthy y) (if_truthy z) None.
Proof.
  unfold js_or, if_truthy, truthy, truthy_option.
  destruct x as [x|], y as [y|], z as [z|]; cbv beta iota;
    repeat match goal with
      | |- context [@truthy A T ?v] =>
          destruct (@truthy A T v) eqn:?; cbv beta iota
      end; try reflexivity; try congruence.
Qed.

Lemma precedence_of_two {A} {T : Truthy A} (x y : option A) :
  if_truthy (x ||| y)
  = spec_precedence (if_truthy x) (if_truthy y) None None.
Proof.
  unfold js_or, if_truthy, truthy, truthy_option.
  destruct x as [x|], y as [y|]; cbv beta iota;
    repeat match goal with
      | |- context [@truthy A T ?v] =>
          destruct (@truthy A T v) eqn:?; cbv beta iota
      end; try reflexivity; try congruence.
Qed.

Lemma precedence_of_two_lit {A} {T : Truthy A} (x y : option A) (d : A) :
  Some (x ||| y ||! d)
  = spec_precedence (if_truthy x) (if_truthy y) None (Some d).
Proof.
  unfold js_or, js_or_lit, if_truthy, truthy, truthy_option.
  destruct x as [x|], y as [y|]; cbv beta iota;
    repeat match goal with
      | |- context [@truthy A T ?v] =>
          destruct (@truthy A T v) eqn:?; cbv beta iota
      end; try reflexivity; try congruence.
  all: unfold truthy in *;
    repeat match goal with
      | E : _ = true |- _ => rewrite E; clear E
      | E : _ = false |- _ => rewrite E; clear E
      end; reflexivity.
Qed.

(** C2 (as amended). For title, author, size, timeout and pressReady the
    merged value is chosen by the precedence flag, then configuration
    file, then package descriptor (title and author only), then default
    ([3000] ms, [false]), where a falsy value (an empty string, [0],
    [false], [undefined]) counts as not supplied. *)
Theorem config_precedence env cliFlags config pkgJson configPath :
  let c := mergeConfig env cliFlags config pkgJson configPath in
  if_truthy (title c)
  = spec_precedence (if_truthy (cli_title cliFlags))
      (if_truthy (opt_field config cfg_title))
      (if_truthy (pkg_field pkgJson pkg_name)) None
  /\ if_truthy (author c)
     = spec_precedence (if_truthy (cli_author cliFlags))
         (if_truthy (opt_field config cfg_author))
         (if_truthy (pkg_field pkgJson pkg_author)) None
  /\ if_truthy (size c)
     = spec_precedence (if_truthy (cli_size cliFlags))
         (if_truthy (option_map SizeStr (opt_field config cfg_size)))
         None None
  /\ Some (timeout c)
     = spec_precedence (if_truthy (Some (cli_timeout cliFlags)))
         (if_truthy (opt_field config cfg_timeout)) None (Some 3000%Z)
  /\ Some (pressReady c)
     = spec_precedence (if_truthy (Some (cli_pressReady cliFlags)))
         (if_truthy (opt_field config cfg_pressReady)) None (Some false).
Proof.
  cbv zeta. simpl title. simpl author. simpl size. simpl timeout.
  simpl pressReady.
  split; [apply precedence_of_three|].
  split; [apply precedence_of_three|].
  split; [apply precedence_of_two|].
  split; apply precedence_of_two_lit.
Qed.

(** C2, as the specification words it, fails: an empty title and a zero
    timeout given on the command line do not override the values of the
    configuration file. *)
Lemma falsy_flag_does_not_override :
  let env := Sample.env_of (Some Sample.titled_config) Sample.no_documents [] None in
  let c := mergeConfig env Sample.falsy_flags (Some Sample.titled_config) None
             (config_path env Sample.falsy_flags) in
  title c = Some "Book"
  /\ spec_precedence (cli_title Sample.falsy_flags)
       (cfg_title Sample.titled_config) None None = Some ""
  /\ timeout c = 5000%Z
  /\ spec_precedence (Some (cli_timeout Sample.falsy_flags))
       (cfg_timeout Sample.titled_config) None (Some 3000%Z) = Some 0%Z.
Proof. repeat split. Qed.

(** What the merge does with [sandbox], [toc] and [language]: the result
    does not depend on the flag, respectively on the configuration. *)
Lemma sandbox_always_enabled env cliFlags config pkgJson configPath :
  sandbox (mergeConfig env cliFlags config pkgJson configPath) = true.
Proof. simpl. unfold js_or_lit. now destruct (cli_sandbox cliFlags). Qed.

Lemma toc_always_requested env cliFlags config pkgJson configPath :
  truthy (toc (mergeConfig env cliFlags config pkgJson configPath)) = true.
Proof.
  simpl. unfold js_or_lit.
  destruct (opt_field config cfg_toc) as [t|]; [|reflexivity].
  destruct (truthy t) eqn:E; [exact E | reflexivity].
Qed.

Lemma language_ignores_flag env cliFlags config pkgJson configPath :
  language (mergeConfig env cliFlags config pkgJson configPath)
  = opt_field config cfg_language ||! "en".
Proof. reflexivity. Qed.

Example slips_of_the_merge :
  let env := Sample.env_of (Some Sample.titled_config) Sample.no_documents [] None in
  let c := mergeConfig env Sample.falsy_flags (Some Sample.titled_config) None
             (config_path env Sample.falsy_flags) in
  cli_sandbox Sample.falsy_flags = false /\ sandbox c = true
  /\ cli_language Sample.falsy_flags = Some "ja" /\ language c = "en"
  /\ cfg_toc Sample.titled_config = Some (TocBool false)
  /\ toc c = TocBool true.
Proof. repeat split. Qed.

(** ** A configuration file that does not exist *)

Lemma js_or_none {A} {T : Truthy A} (x : option A) :
  truthy (x ||| None) = truthy x /\ (truthy x = true -> x ||| None = x).
Proof.
  unfold js_or. destruct (truthy x) eqn:E; split; auto. discriminate.
Qed.

(** C3 (as amended). When no file exists at the configuration path,
    whether the path was given on the command line or is the default
    one, [collectVivliostyleConfig] returns [undefined] without an error
    and the build goes on without a configuration. Without an input on
    the command line (and without a theme there, whose resolution comes
    first) it fails with the error [no entry found]; with an input it
    goes on with that input as its only entry, and the resolution
    returns once the theme of the command line, if any, and the document
    are read. *)
Theorem missing_config_is_not_an_error env cliFlags :
  existsSync env (config_path env cliFlags) = false ->
  collectVivliostyleConfig env (config_path env cliFlags) = Returned None
  /\ (forall pkgJson w,
        nearest_package env = Returned pkgJson ->
        truthy (cli_theme cliFlags) = false ->
        truthy (cli_input cliFlags) = false ->
        fst (resolveEntries env cliFlags w) = Thrown (Error "no entry found"))
  /\ (forall pkgJson w docTitle docTheme,
        nearest_package env = Returned pkgJson ->
        truthy (cli_input cliFlags) = true ->
        (truthy (cli_theme cliFlags) = true ->
         exists rootTheme,
           parseTheme env (cli_theme cliFlags) = Returned rootTheme) ->
        let c := mergeConfig env cliFlags None pkgJson
                   (config_path env cliFlags) in
        let sourcePath := path_resolve env (contextDir c) (cli_input cliFlags) in
        parseMetadata env
          (if endsWith sourcePath ".html" then Html else Markdown) sourcePath
        = Returned (docTitle, docTheme) ->
        exists pe w',
          resolveEntries env cliFlags w = (Returned (c, [pe]), w')
          /\ path (pe_source pe) = sourcePath
          /\ path (pe_target pe)
             = target_path env (contextDir c) (artifactDir c)
                 (cli_input cliFlags)).
Proof.
  intros Hex.
  assert (Hc : collectVivliostyleConfig env (config_path env cliFlags)
               = Returned None).
  { unfold collectVivliostyleConfig. now rewrite Hex. }
  split; [exact Hc|]. split.
  - intros pkgJson w Hpkg Hth Hin.
    unfold resolveEntries, bind, lift, reset_themes.
    rewrite Hpkg, Hc. simpl.
    assert (Ht : truthy (cli_theme cliFlags ||| None) = false).
    { unfold js_or. now rewrite Hth. }
    rewrite Ht. simpl. unfold rawEntries. rewrite Hin. reflexivity.
  - intros pkgJson w docTitle docTheme Hpkg Hin Hroot c sourcePath Hmeta.
    assert (Hone : forall w1,
               exists pe w',
                 mapM (parseEntry env None (contextDir c) (artifactDir c))
                   (map normalizeEnry (rawEntries cliFlags None)) w1
                 = (Returned [pe], w')
                 /\ path (pe_source pe) = sourcePath
                 /\ path (pe_target pe)
                    = target_path env (contextDir c) (artifactDir c)
                        (cli_input cliFlags)).
    { intros w1. unfold rawEntries. rewrite Hin. cbn [map mapM normalizeEnry].
      unfold bind at 1.
      destruct (parseEntry env None (contextDir c) (artifactDir c)
                  {| e_path := cli_input cliFlags; e_title := None;
                     e_theme := None |} w1) as [[pe| |] w2] eqn:Hpe.
      - exists pe, w2. split; [reflexivity|].
        destruct (parseEntry_returned _ _ _ _ _ _ _ _ Hpe) as [Hs [Ht _]].
        split; [exact Hs | exact Ht].
      - exfalso. revert Hpe. unfold parseEntry, bind, lift, get_world.
        cbn [e_path e_theme parseTheme]. fold sourcePath. rewrite Hmeta.
        cbv beta iota.
        destruct (None ||| docTheme ||| hd_error (themes w1)) as [t|];
          [destruct (name_is_new (themes w1) t)|]; discriminate.
      - exfalso. revert Hpe. unfold parseEntry, bind, lift, get_world.
        cbn [e_path e_theme parseTheme]. fold sourcePath. rewrite Hmeta.
        cbv beta iota.
        destruct (None ||| docTheme ||| hd_error (themes w1)) as [t|];
          [destruct (name_is_new (themes w1) t)|]; discriminate. }
    unfold resolveEntries. unfold bind at 1, lift at 1. rewrite Hpkg.
    cbv beta iota zeta. unfold bind at 1, lift at 1. rewrite Hc.
    cbv beta iota zeta. fold c. unfold bind at 1, reset_themes at 1.
    cbv beta iota.
    change (opt_field (@None VivliostyleConfig) cfg_theme) with (@None string).
    destruct (js_or_none (cli_theme cliFlags)) as [Ht Hx]. rewrite Ht.
    unfold bind at 1.
    destruct (truthy (cli_theme cliFlags)) eqn:Hth.
    + destruct (Hroot eq_refl) as [rootTheme Hp].
      rewrite (Hx eq_refl). unfold lift at 1. rewrite Hp.
      unfold bind at 1.
      destruct rootTheme as [t|]; cbn [push_theme ret];
        unfold bind at 1;
        match goal with
        | |- context [mapM ?f ?l ?w1] =>
            destruct (Hone w1) as [pe [w' [Hm [Hs Htg]]]]
        end;
        rewrite Hm; exists pe, w'; (split; [reflexivity | auto]).
    + unfold ret at 1. unfold bind at 1. unfold ret at 1.
      unfold bind at 1.
      match goal with
      | |- context [mapM ?f ?l ?w1] =>
          destruct (Hone w1) as [pe [w' [Hm [Hs Htg]]]]
      end.
      rewrite Hm. exists pe, w'. split; [reflexivity | auto].
Qed.

Lemma missing_config_is_not_an_error_witness :
  let env := Sample.env_of None Sample.no_documents [] None in
  let flags := Sample.missing_config_flags in
  config_path env flags = "/proj/missing.config.js"
  /\ existsSync env (config_path env flags) = false
  /\ collectVivliostyleConfig env (config_path env flags) = Returned None
  /\ fst (resolveEntries env Sample.no_flags initial_world)
     = Thrown (Error "no entry found")
  /\ exists c pe w',
       resolveEntries env flags initial_world = (Returned (c, [pe]), w')
       /\ path (pe_source pe) = "/proj/a.md".
Proof.
  intros env flags.
  assert (H : existsSync env (config_path env flags) = false) by reflexivity.
  assert (H0 : existsSync env (config_path env Sample.no_flags) = false)
    by reflexivity.
  split; [reflexivity|]. split; [exact H|]. split; [|split].
  - exact (proj1 (missing_config_is_not_an_error env flags H)).
  - exact (proj1 (proj2 (missing_config_is_not_an_error env Sample.no_flags H0))
             None initial_world eq_refl eq_refl eq_refl).
  - destruct (proj2 (proj2 (missing_config_is_not_an_error env flags H))
                None initial_world None None eq_refl eq_refl
                (fun E : false = true =>
                   False_ind _ (Bool.diff_false_true E))
                eq_refl)
      as [pe [w' [Hr [Hs _]]]].
    eexists _, pe, w'. split; [exact Hr | exact Hs].
Defined.

(** C3, as the specification words it, fails: a configuration path is
    given on the command line, no file exists there, and the resolution
    neither fails nor stops: the entry of the command line is parsed. *)
Lemma explicit_missing_config_is_ignored :
  let env := Sample.env_of None Sample.no_documents [] None in
  truthy (cli_configPath Sample.missing_config_flags) = true
  /\ config_path env Sample.missing_config_flags = "/proj/missing.config.js"
  /\ existsSync env "/proj/missing.config.js" = false
  /\ collectVivliostyleConfig env (config_path env Sample.missing_config_flags)
     = Returned None
  /\ option_map (fun r => map (fun e => path (pe_source e)) (snd r))
       (match fst (run (resolveEntries env Sample.missing_config_flags)) with
        | Returned r => Some r
        | _ => None
        end)
     = Some ["/proj/a.md"].
Proof. repeat split. Qed.

(** ** The resources of the manifest *)

(** What [generateManifest] puts into [resources]: the link to the
    contents page when the option [toc] is truthy, nothing otherwise. *)
Lemma manifest_resources options :
  m_resources (manifest_object options)
  = if truthy (mo_toc options)
    then [ {| res_href := "toc.html"; res_rel := "contents";
              res_type := "text/html"; res_title := "Table of Contents" |} ]
    else [].
Proof. reflexivity. Qed.

(** C8 fails on the code. The configuration file says [toc: false];
    [generateManifest] would leave [resources] empty for that option,
    but [build] hands it [config?.toc || true], which is [true]: the
    manifest lists [toc.html] as a resource and the contents page is
    generated. *)
Example disabled_toc_is_still_listed :
  let env := Sample.env_of (Some Sample.titled_config) Sample.no_documents
               [Sample.toc_done] (Some 0) in
  let tr := trace (snd (run (build env Sample.no_flags))) in
  let options (toc : option TocVal) :=
    {| mo_title := Some "Book"; mo_author := None;
       mo_language := Some "en";
       mo_modified := "2020-06-01T00:00:00.000Z";
       mo_entries := [ {| me_path := "artifacts/a.html";
                          me_title := Some "Book" |} ];
       mo_toc := toc |} in
  let written :=
    {| m_context := "https://readium.org/webpub-manifest/context.jsonld";
       m_metadata :=
         {| md_type := "http://schema.org/Book";
            md_title := Some "Book"; md_author := None;
            md_language := Some "en";
            md_modified := "2020-06-01T00:00:00.000Z" |};
       m_links := [];
       m_readingOrder :=
         [ {| ro_href := "artifacts/a.html"; ro_type := "text/html";
              ro_title := Some "Book" |} ];
       m_resources :=
         [ {| res_href := "toc.html"; res_rel := "contents";
              res_type := "text/html";
              res_title := "Table of Contents" |} ] |} in
  cfg_toc Sample.titled_config = Some (TocBool false)
  /\ m_resources (manifest_object (options (cfg_toc Sample.titled_config)))
     = []
  /\ fst (run (build env Sample.no_flags)) = Returned tt
  /\ In (FsWrite "/proj/.vivliostyle/manifest.json" (ManifestJson written)) tr
  /\ In (FsWrite "/proj/.vivliostyle/toc.html"
           (TocHtml [ {| tl_href := "artifacts/a.html";
                         tl_label := "Book" |} ])) tr.
Proof.
  intros env tr options written.
  split; [reflexivity|]. split; [reflexivity|]. split; [reflexivity|]. split.
  - vm_compute. do 4 right. left. reflexivity.
  - vm_compute. do 5 right. left. reflexivity.
Qed.

(** ** Document types *)

Lemma eq_Html_iff (b : bool) :
  ((if b then Html else Markdown) = Html <-> b = true)
  /\ ((if b then Html else Markdown) = Markdown <-> b = false).
Proof. destruct b; repeat split; auto; discriminate. Qed.

(** The type of a parsed entry is decided by the suffix of its resolved
    source path alone: [html] when the path ends in [.html], [markdown]
    otherwise. Staging an [html] entry does nothing but copy the source
    file to the target path, and creates no directory; staging a
    [markdown] entry does nothing but create the target directory and
    write there the output of the Markdown transform, which received the
    stylesheet reference. *)
Lemma staging_by_type env config ctx art entry w pe w' :
  parseEntry env config ctx art entry w = (Returned pe, w') ->
  path (pe_source pe) = path_resolve env ctx (e_path entry)
  /\ (pe_type pe = Html <-> endsWith (path (pe_source pe)) ".html" = true)
  /\ (pe_type pe = Markdown <-> endsWith (path (pe_source pe)) ".html" = false)
  /\ (pe_type pe = Html ->
      forall distDir w0,
        populate env distDir pe w0
        = (Returned tt,
           if shell_ok env
                (FsCp (path (pe_source pe)) (path (pe_target pe))) w0
           then apply_op (FsCp (path (pe_source pe)) (path (pe_target pe))) w0
           else w0))
  /\ (pe_type pe = Markdown ->
      forall distDir,
        appends (fun o =>
                   o = FsMkdirP (dir (pe_target pe))
                   \/ exists file,
                       markdown_render env (path (pe_source pe))
                         (stylesheet_of env distDir pe) = Returned file
                       /\ o = FsWrite (path (pe_target pe)) (Text file))
                (populate env distDir pe)).
Proof.
  intros Hpe. destruct (parseEntry_returned _ _ _ _ _ _ _ _ Hpe) as [Hs [_ Ht]].
  split; [exact Hs|]. rewrite Hs, Ht.
  split; [apply eq_Html_iff|]. split; [apply eq_Html_iff|].
  rewrite <- Ht, <- Hs. split.
  - intros Hty distDir w0. unfold populate. rewrite Hty. reflexivity.
  - intros Hty distDir w0. unfold populate. rewrite Hty.
    unfold bind at 1, lift.
    destruct (markdown_render env _ _) as [f| |] eqn:Hr;
      try (exists []; simpl; rewrite app_nil_r;
           split; [reflexivity|constructor]).
    refine (appends_bind _ _ _ _ _ w0);
      [apply appends_shell; now left | intros _].
    apply appends_writeFileSync. right. eauto.
Qed.

(** C10 fails on the code. The only entry is [chapter/index.html]. It is
    classified [html], but its file is not copied to the target path: the
    directory of the target does not exist, for [build] has removed the
    staging directory and created only [artifacts], and the branch for
    [html] entries has no [mkdir -p] of the target directory, which the
    branch for Markdown entries has. The failed copy is not noticed: the
    build completes and the manifest lists a file that was never staged.
    After a Markdown entry of the same directory, the copy is made. *)
Example html_entry_in_a_directory_is_not_copied :
  let env entries :=
    Sample.env_of (Some (Sample.config_with (EntryArray entries)))
      Sample.no_documents [Sample.toc_done] (Some 0) in
  let alone :=
    run (build (env [RawPath "chapter/index.html"]) Sample.no_flags) in
  let after_markdown :=
    run (build (env [RawPath "chapter/one.md"; RawPath "chapter/index.html"])
           Sample.no_flags) in
  let copy := FsCp "/proj/chapter/index.html"
                "/proj/.vivliostyle/artifacts/chapter/index.html" in
  option_map (fun r => map pe_type (snd r))
    (match fst (run (resolveEntries (env [RawPath "chapter/index.html"])
                       Sample.no_flags)) with
     | Returned r => Some r
     | _ => None
     end)
  = Some [Html]
  /\ fst alone = Returned tt
  /\ existsb (named "shelljs.cp") (trace (snd alone)) = false
  /\ firstn 2 (trace (snd alone))
     = [ FsRmRf "/proj/.vivliostyle";
         FsMkdirP "/proj/.vivliostyle/artifacts" ]
  /\ (exists m,
        nth_error (trace (snd alone)) 2
        = Some (FsWrite "/proj/.vivliostyle/manifest.json" (ManifestJson m))
        /\ map ro_href (m_readingOrder m) = ["artifacts/chapter/index.html"])
  /\ firstn 5 (trace (snd after_markdown))
     = [ FsRmRf "/proj/.vivliostyle";
         FsMkdirP "/proj/.vivliostyle/artifacts";
         FsMkdirP "/proj/.vivliostyle/artifacts/chapter";
         FsWrite "/proj/.vivliostyle/artifacts/chapter/one.html"
           (Text "<html>/proj/chapter/one.md</html>");
         copy ].
Proof.
  intros env alone after_markdown copy.
  split; [reflexivity|]. split; [reflexivity|]. split; [reflexivity|].
  split; [reflexivity|]. split; [|reflexivity].
  eexists. split; [vm_compute; reflexivity | reflexivity].
Qed.

(** Paths that end in [.htm] or [.txt] are Markdown entries, and are
    staged through the transform; the [.html] entry is copied. *)
Example other_suffixes_are_markdown :
  let env := Sample.env_of
               (Some (Sample.config_with
                        (EntryArray [RawPath "page.htm"; RawPath "notes.txt";
                                     RawPath "index.html"])))
               Sample.no_documents [] None in
  option_map (fun r => map pe_type (snd r))
    (match fst (run (resolveEntries env Sample.no_flags)) with
     | Returned r => Some r
     | _ => None
     end)
  = Some [Markdown; Markdown; Html]
  /\ firstn 7 (skipn 2 (trace (snd (run (build env Sample.no_flags)))))
     = [ FsMkdirP "/proj/.vivliostyle/artifacts";
         FsWrite "/proj/.vivliostyle/artifacts/page.htm"
           (Text "<html>/proj/page.htm</html>");
         FsMkdirP "/proj/.vivliostyle/artifacts";
         FsWrite "/proj/.vivliostyle/artifacts/notes.txt"
           (Text "<html>/proj/notes.txt</html>");
         FsCp "/proj/index.html" "/proj/.vivliostyle/artifacts/index.html";
         FsWrite "/proj/.vivliostyle/manifest.json"
           (ManifestJson
              (manifest_object
                 {| mo_title := None; mo_author := None;
                    mo_language := Some "en";
                    mo_modified := "2020-06-01T00:00:00.000Z";
                    mo_entries :=
                      [ {| me_path := "artifacts/page.htm"; me_title := None |};
                        {| me_path := "artifacts/notes.txt"; me_title := None |};
                        {| me_path := "artifacts/index.html"; me_title := None |} ];
                    mo_toc := Some (TocBool true) |}));
         FsWrite "/proj/.vivliostyle/toc.html"
           (TocHtml
              [ {| tl_href := "artifacts/page.htm"; tl_label := "page.htm" |};
                {| tl_href := "artifacts/notes.txt"; tl_label := "notes.txt" |};
                {| tl_href := "artifacts/index.html"; tl_label := "index" |} ]) ].
Proof. split; reflexivity. Qed.

(** ** The theme of an entry *)

(** C7 fails on the code. No theme is configured on the command line or
    in the configuration file; [a.md] names a stylesheet in its front
    matter, [b.md] names none and has no per-entry theme; yet [b.md] is
    given the theme found in [a.md], because the fallback is [themes[0]]
    and not the root theme. *)
Example theme_of_another_entry_is_inherited :
  let env := Sample.env_of (Some Sample.two_entries) Sample.first_has_theme
               [] None in
  cli_theme Sample.no_flags = None
  /\ cfg_theme Sample.two_entries = None
  /\ map e_theme (map normalizeEnry (rawEntries Sample.no_flags
                                       (Some Sample.two_entries)))
     = [None; None]
  /\ Sample.first_has_theme "/proj/b.md" = (None, None)
  /\ option_map (fun r => map (fun e => (path (pe_source e), pe_theme e)) (snd r))
       (match fst (run (resolveEntries env Sample.no_flags)) with
        | Returned r => Some r
        | _ => None
        end)
     = Some [ ("/proj/a.md", Some Sample.remote_theme);
              ("/proj/b.md", Some Sample.remote_theme) ].
Proof. repeat split. Qed.

(** Without a per-entry theme and without a theme in the document, the
    entry gets the first record of the theme set as it is then. *)
Lemma parseEntry_theme_fallback env config ctx art entry w pe w' ttl :
  parseEntry env config ctx art entry w = (Returned pe, w') ->
  parseTheme env (e_theme entry) = Returned None ->
  parseMetadata env
    (if endsWith (path_resolve env ctx (e_path entry)) ".html"
     then Html else Markdown)
    (path_resolve env ctx (e_path entry)) = Returned (ttl, None) ->
  pe_theme pe = hd_error (themes w).
Proof.
  unfold parseEntry, bind, lift, get_world, ret, push_theme.
  intros H He Hm. rewrite Hm, He in H. simpl in H.
  unfold js_or in H. simpl in H.
  destruct (hd_error (themes w)) as [t0|] eqn:Hh; simpl in H.
  - destruct (name_is_new (themes w) t0); inversion H; reflexivity.
  - inversion H. reflexivity.
Qed.

(** * Further properties of the pipeline *)

(** ** Strings *)

Lemma length_append (p s : string) :
  String.length (p ++ s) = String.length p + String.length s.
Proof. induction p as [|c p IH]; simpl; [reflexivity | now rewrite IH]. Qed.

Lemma substring_all (s : string) : substring 0 (String.length s) s = s.
Proof. induction s as [|c s IH]; simpl; [reflexivity | now rewrite IH]. Qed.

Lemma substring_append_skip (p s : string) i m :
  substring (String.length p + i) m (p ++ s) = substring i m s.
Proof. induction p as [|c p IH]; simpl; [reflexivity | exact IH]. Qed.

Lemma substring_append_prefix (p s : string) :
  substring 0 (String.length p) (p ++ s) = p.
Proof.
  induction p as [|c p IH]; simpl; [now destruct s | now rewrite IH].
Qed.

Lemma endsWith_append (p suffix : string) : endsWith (p ++ suffix) suffix = true.
Proof.
  unfold endsWith. rewrite length_append.
  replace (String.length p + String.length suffix - String.length suffix)
    with (String.length p + 0) by lia.
  rewrite substring_append_skip, substring_all, String.eqb_refl.
  rewrite andb_true_r. apply Nat.leb_le. lia.
Qed.

Lemma substring_split (s : string) n :
  n <= String.length s ->
  s = (substring 0 n s ++ substring n (String.length s - n) s)%string.
Proof.
  revert n. induction s as [|c s IH]; intros n Hn; simpl in *.
  - destruct n; reflexivity.
  - destruct n as [|n]; simpl.
    + now rewrite substring_all.
    + f_equal. apply IH. lia.
Qed.

Lemma endsWith_true (s suffix : string) :
  endsWith s suffix = true ->
  s = (substring 0 (String.length s - String.length suffix) s ++ suffix)%string.
Proof.
  unfold endsWith. intros H. apply andb_true_iff in H as [Hle He].
  apply Nat.leb_le in Hle. apply String.eqb_eq in He.
  remember (String.length suffix) as k eqn:Hk.
  assert (Hs : String.length s - k <= String.length s) by lia.
  apply substring_split in Hs.
  replace (String.length s - (String.length s - k)) with k in Hs by lia.
  now rewrite He in Hs.
Qed.

Lemma replace_md_suffix_not_md (s : string) :
  endsWith (replace_md_suffix s) ".md" = false.
Proof.
  unfold replace_md_suffix. destruct (endsWith s ".md") eqn:E; [|exact E].
  set (q := substring 0 (String.length s - 3) s).
  unfold endsWith. rewrite length_append. simpl String.length.
  replace (String.length q + 5 - 3) with (String.length q + 2) by lia.
  rewrite substring_append_skip. simpl. apply andb_false_r.
Qed.

Lemma split_components_no_comma (s : string) :
  Forall (fun part => no_comma part = true) (split ","%char s).
Proof.
  induction s as [|c s IH]; simpl; [repeat constructor|].
  destruct (Ascii.eqb c ","%char) eqn:Ec.
  - constructor; [reflexivity | exact IH].
  - pose proof (split_not_nil ","%char s) as Hne.
    destruct (split ","%char s) as [|h t]; [contradiction|].
    inversion IH; subst. constructor; [|assumption].
    simpl. now rewrite Ec.
Qed.

Lemma uint_string_no_comma (d : Decimal.uint) :
  no_comma (NilEmpty.string_of_uint d) = true.
Proof. induction d; simpl; auto. Qed.

Lemma string_of_Z_no_comma (n : Z) : no_comma (string_of_Z n) = true.
Proof.
  unfold string_of_Z, NilZero.string_of_int, NilZero.string_of_uint.
  destruct (Z.to_int n) as [d|d]; destruct d; simpl;
    try reflexivity; apply uint_string_no_comma.
Qed.

Lemma no_comma_app (p q : string) :
  no_comma (p ++ q) = no_comma p && no_comma q.
Proof.
  induction p as [|c p IH]; simpl; [reflexivity|].
  now rewrite IH, andb_assoc.
Qed.

Lemma no_comma_substring (s : string) : forall i m,
  no_comma s = true -> no_comma (substring i m s) = true.
Proof.
  induction s as [|c s IH]; intros i m H.
  - destruct i, m; reflexivity.
  - simpl in H. apply andb_true_iff in H as [Hc Hs].
    destruct i as [|i]; [destruct m as [|m]|]; simpl;
      [reflexivity | rewrite Hc; now apply IH | now apply IH].
Qed.

Lemma no_comma_zeros k : no_comma (zeros k) = true.
Proof. induction k; simpl; auto. Qed.

Lemma no_comma_digits s : no_comma (digits s) = true.
Proof. apply uint_string_no_comma. Qed.

Lemma number_to_string_no_comma (x : Number) :
  no_comma (number_to_string x) = true.
Proof.
  destruct x as [| |negative|negative s n]; try reflexivity.
  - destruct negative; reflexivity.
  - unfold number_to_string.
    repeat match goal with
           | |- context [if ?b then _ else _] => destruct b
           end;
      rewrite ?no_comma_app, ?no_comma_digits, ?no_comma_zeros,
        ?string_of_Z_no_comma,
        ?(no_comma_substring _ _ _ (no_comma_digits s));
      reflexivity.
Qed.

Lemma truthy_length (s : string) :
  (0 < String.length s)%nat -> truthy s = true.
Proof. destruct s; simpl; [lia | reflexivity]. Qed.

Lemma digits_length s : (0 < String.length (digits s))%nat.
Proof.
  unfold digits. pose proof (Unsigned.to_uint_nonnil s) as H.
  destruct (Pos.to_uint s); simpl; try lia. contradiction.
Qed.

Lemma number_to_string_truthy (x : Number) :
  truthy x = true -> truthy (number_to_string x) = true.
Proof.
  destruct x as [| |negative|negative s n]; try discriminate; intros _.
  - destruct negative; reflexivity.
  - apply truthy_length. unfold number_to_string.
    pose proof (digits_length s) as Hd.
    repeat match goal with
           | |- context [if ?b then _ else _] => destruct b
           end;
      rewrite ?length_append; simpl String.length; lia.
Qed.

(** ** Page size, continued *)

(** X1. A numeric size is never rejected, because the text that the
    template literal prints for a number has no comma: [NaN] and the
    zeros give the default format [Letter], every other number gives the
    format named by that text, be it a decimal numeral, a decimal
    fraction or in exponent notation. *)
Theorem parsePageSize_number (x : Number) :
  no_comma (number_to_string x) = true
  /\ parsePageSize (SizeNum x)
     = Returned (Format (if truthy x then number_to_string x else "Letter")).
Proof.
  split; [apply number_to_string_no_comma|].
  unfold parsePageSize. simpl size_to_string.
  change (truthy (SizeNum x)) with (truthy x).
  destruct (truthy x) eqn:Hx; [|reflexivity].
  rewrite (split_no_comma _ (number_to_string_no_comma x)).
  unfold js_or_lit. now rewrite (number_to_string_truthy x Hx).
Qed.

(** What the template literal prints for [10], [1e21], [1.5],
    [0.000001], [5e-7], [-123456] and [1.5e+300]. *)
Example number_rendering :
  map number_to_string
    [ Finite false 1 2; Finite false 1 22; Finite false 15 1;
      Finite false 1 (-5); Finite false 5 (-6); Finite true 123456 6;
      Finite false 15 301 ]
  = [ "10"; "1e+21"; "1.5"; "0.000001"; "5e-7"; "-123456"; "1.5e+300" ].
Proof. reflexivity. Qed.

(** X2. Whatever [parsePageSize] returns is well formed: a format is
    never the empty string, the two dimensions of a pair are never empty,
    and none of them contains a comma. *)
Theorem parsePageSize_well_formed (size : SizeVal) (ps : PageSize) :
  parsePageSize size = Returned ps ->
  match ps with
  | Format f => truthy f = true /\ no_comma f = true
  | Dimensions w h =>
      (truthy w = true /\ no_comma w = true)
      /\ (truthy h = true /\ no_comma h = true)
  end.
Proof.
  unfold parsePageSize.
  assert (Hparts : Forall (fun part => no_comma part = true)
                     (if truthy size
                      then split ","%char (size_to_string size) else [])).
  { destruct (truthy size); [apply split_components_no_comma | constructor]. }
  assert (Hfmt : forall w, no_comma w = true ->
                           truthy (Some w ||! "Letter") = true
                           /\ no_comma (Some w ||! "Letter") = true).
  { intros w Hw. unfold js_or_lit. destruct (truthy w) eqn:E; auto. }
  destruct (if truthy size then split ","%char (size_to_string size) else [])
    as [|w [|h [|x r]]]; intros H.
  - inversion H. auto.
  - inversion H. inversion Hparts; subst. now apply Hfmt.
  - inversion Hparts as [|? ? Hw Hr]; subst.
    inversion Hr as [|? ? Hh _]; subst.
    unfold js_and_cond in H.
    destruct (truthy w) eqn:Ew, (truthy h) eqn:Eh; simpl in H;
      inversion H; subst; auto; now apply Hfmt.
  - discriminate.
Qed.

Lemma parsePageSize_well_formed_witness :
  parsePageSize (SizeStr "148mm,210mm") = Returned (Dimensions "148mm" "210mm")
  /\ (truthy "148mm" = true /\ no_comma "148mm" = true)
  /\ (truthy "210mm" = true /\ no_comma "210mm" = true).
Proof.
  split; [reflexivity|].
  exact (parsePageSize_well_formed (SizeStr "148mm,210mm")
           (Dimensions "148mm" "210mm") eq_refl).
Defined.

(** ** Theme resolution *)

Lemma replace_slashes_no_slash (s : string) : no_slash (replace_slashes s) = true.
Proof.
  induction s as [|c s IH]; simpl; [reflexivity|].
  rewrite IH, andb_true_r.
  destruct (Ascii.eqb c "/"%char) eqn:E; [reflexivity | now rewrite E].
Qed.

Lemma no_slash_append (p s : string) :
  no_slash (p ++ s) = no_slash p && no_slash s.
Proof.
  induction p as [|c p IH]; simpl; [reflexivity|].
  now rewrite IH, andb_assoc.
Qed.

(** [parseTheme] on a string, case by case. *)
Lemma parseTheme_cases env s :
  (is_http_url s = true
   /\ parseTheme env (Some s)
      = Returned (Some {| t_type := ThemeUri;
                          t_name := path_basename env s;
                          t_location := s |}))
  \/ (is_http_url s = false /\ truthy (resolvePkg env s) = false
      /\ parseTheme env (Some s) = Thrown (Error ("package not found: " ++ s)))
  \/ (exists pkgRoot,
        is_http_url s = false /\ resolvePkg env s = Some pkgRoot
        /\ truthy pkgRoot = true /\ endsWith pkgRoot ".css" = true
        /\ parseTheme env (Some s)
           = Returned (Some {| t_type := ThemePath;
                               t_name := path_basename env pkgRoot;
                               t_location := pkgRoot |}))
  \/ (exists pkgRoot,
        is_http_url s = false /\ resolvePkg env s = Some pkgRoot
        /\ truthy pkgRoot = true /\ endsWith pkgRoot ".css" = false
        /\ match read_package_json env (path_join env pkgRoot "package.json") with
           | Thrown e => parseTheme env (Some s) = Thrown e
           | Pending => parseTheme env (Some s) = Pending
           | Returned packageJson =>
               match maybeCSS_of packageJson with
               | None =>
                   parseTheme env (Some s)
                   = Thrown (Error "invalid css file: undefined")
               | Some css =>
                   if truthy css && endsWith css ".css" then
                     match pkg_name packageJson with
                     | None => parseTheme env (Some s) = Thrown TypeError
                     | Some name =>
                         parseTheme env (Some s)
                         = Returned
                             (Some {| t_type := ThemePath;
                                      t_name := replace_slashes name ++ ".css";
                                      t_location := path_resolve env pkgRoot css |})
                     end
                   else
                     parseTheme env (Some s)
                     = Thrown (Error ("invalid css file: " ++ css))
               end
           end).
Proof.
  unfold parseTheme, maybeCSS_of.
  destruct (is_http_url s) eqn:Hu; [left; auto|]. right.
  destruct (resolvePkg env s) as [pkgRoot|] eqn:Hr; [|left; auto].
  destruct (truthy pkgRoot) eqn:Ht; simpl; [|left; auto]. right.
  destruct (endsWith pkgRoot ".css") eqn:He.
  - left. exists pkgRoot. auto.
  - right. exists pkgRoot. repeat split; auto.
    destruct (read_package_json env _) as [pj| |]; auto.
    destruct (_ ||| _ ||| _ ||| _) as [css|]; auto.
    destruct (truthy css), (endsWith css ".css"); simpl; auto.
    destruct (pkg_name pj); auto.
Qed.

Lemma parseTheme_some_not_none env s : parseTheme env (Some s) <> Returned None.
Proof.
  destruct (parseTheme_cases env s)
    as [[Hu E]|[[Hu [Hr E]]|[[root [Hu [Hr [Ht [He E]]]]]
                             |[root [Hu [Hr [Ht [He E]]]]]]]];
    try (rewrite E; discriminate).
  destruct (read_package_json env _) as [pj| |]; try congruence.
  destruct (maybeCSS_of pj) as [css|]; try congruence.
  destruct (truthy css && endsWith css ".css"); try congruence.
  destruct (pkg_name pj); congruence.
Qed.

(** X3. A theme reference that is a string never resolves silently to no
    theme: [parseTheme] returns a record or fails. The record is of type
    [uri] exactly when the reference is an http(s) URL, and then its
    location is the URL itself; a URL is never looked up as a package and
    never fails; any other reference that resolves names an installed
    package root. *)
Theorem parseTheme_string env s :
  parseTheme env (Some s) <> Returned None
  /\ (is_http_url s = true ->
      exists t, parseTheme env (Some s) = Returned (Some t))
  /\ (forall t,
        parseTheme env (Some s) = Returned (Some t) ->
        (t_type t = ThemeUri <-> is_http_url s = true)
        /\ (is_http_url s = true ->
            t_location t = s /\ t_name t = path_basename env s)
        /\ (is_http_url s = false ->
            t_type t = ThemePath
            /\ exists pkgRoot,
                resolvePkg env s = Some pkgRoot /\ truthy pkgRoot = true)).
Proof.
  destruct (parseTheme_cases env s)
    as [[Hu E]|[[Hu [Hr E]]|[[root [Hu [Hr [Ht [He E]]]]]
                             |[root [Hu [Hr [Ht [He E]]]]]]]].
  - rewrite E. split; [discriminate|]. split; [eauto|].
    intros t H. inversion H; subst; simpl. repeat split; auto; congruence.
  - rewrite E. split; [discriminate|]. split; [congruence|]. discriminate.
  - rewrite E. split; [discriminate|]. split; [congruence|].
    intros t H. inversion H; subst; simpl.
    split; [split; intros; congruence|]. split; [congruence|]. eauto.
  - split; [|split; [congruence|]].
    + destruct (read_package_json env _) as [pj| |]; try congruence.
      destruct (maybeCSS_of pj) as [css|]; try congruence.
      destruct (truthy css && endsWith css ".css"); try congruence.
      destruct (pkg_name pj); congruence.
    + intros t H.
      destruct (read_package_json env _) as [pj| |]; try congruence.
      destruct (maybeCSS_of pj) as [css|]; try congruence.
      destruct (truthy css && endsWith css ".css"); try congruence.
      destruct (pkg_name pj) as [name|]; try congruence.
      rewrite E in H. inversion H; subst; simpl.
      split; [split; intros; congruence|]. split; [congruence|]. eauto.
Qed.

Lemma parseTheme_string_witness :
  is_http_url "https://example.com/theme.css" = true
  /\ exists t,
       parseTheme package_env (Some "https://example.com/theme.css")
       = Returned (Some t).
Proof.
  split; [reflexivity|].
  exact (proj1 (proj2 (parseTheme_string package_env
                         "https://example.com/theme.css")) eq_refl).
Defined.

(** X4. The theme of a package that is not a bare stylesheet takes its
    name from the package name: the slashes of a scoped name become
    hyphens, so the name has no slash and ends in [.css]; its location is
    the stylesheet that the descriptor names first, which ends in [.css]. *)
Theorem package_theme_name env s pkgRoot t :
  is_http_url s = false ->
  resolvePkg env s = Some pkgRoot ->
  endsWith pkgRoot ".css" = false ->
  parseTheme env (Some s) = Returned (Some t) ->
  t_type t = ThemePath
  /\ no_slash (t_name t) = true
  /\ endsWith (t_name t) ".css" = true
  /\ exists packageJson css name,
       read_package_json env (path_join env pkgRoot "package.json")
       = Returned packageJson
       /\ maybeCSS_of packageJson = Some css
       /\ endsWith css ".css" = true
       /\ pkg_name packageJson = Some name
       /\ t_name t = (replace_slashes name ++ ".css")%string
       /\ t_location t = path_resolve env pkgRoot css.
Proof.
  intros Hu Hr He H.
  destruct (parseTheme_cases env s)
    as [[Hu' _]|[[_ [Hr' _]]|[[root [_ [Hr' [_ [He' _]]]]]
                              |[root [_ [Hr' [Ht [_ E]]]]]]]].
  - congruence.
  - rewrite Hr in Hr'. change (truthy pkgRoot = false) in Hr'.
    unfold parseTheme in H. rewrite Hu, Hr, Hr' in H. discriminate.
  - congruence.
  - assert (root = pkgRoot) by congruence. subst root.
    destruct (read_package_json env _) as [pj| |]; try congruence.
    destruct (maybeCSS_of pj) as [css|] eqn:Hc; try congruence.
    destruct (truthy css && endsWith css ".css") eqn:Hcss; try congruence.
    destruct (pkg_name pj) as [name|] eqn:Hn; try congruence.
    rewrite E in H. inversion H; subst; simpl.
    apply andb_true_iff in Hcss as [_ Hcss].
    split; [reflexivity|]. split.
    + rewrite no_slash_append, replace_slashes_no_slash. reflexivity.
    + split; [apply endsWith_append|].
      exists pj, css, name. repeat split; auto.
Qed.

Lemma package_theme_name_witness :
  let t := {| t_type := ThemePath;
              t_name := "@vivliostyle-theme-bunko.css";
              t_location :=
                "/proj/node_modules/@vivliostyle/theme-bunko/theme.css" |} in
  parseTheme package_env (Some "@vivliostyle/theme-bunko") = Returned (Some t)
  /\ no_slash (t_name t) = true
  /\ endsWith (t_name t) ".css" = true.
Proof.
  intros t.
  assert (H : parseTheme package_env (Some "@vivliostyle/theme-bunko")
              = Returned (Some t)) by reflexivity.
  split; [exact H|].
  pose proof (package_theme_name package_env "@vivliostyle/theme-bunko"
                "/proj/node_modules/@vivliostyle/theme-bunko" t
                eq_refl eq_refl eq_refl H) as [_ [H1 [H2 _]]].
  exact (conj H1 H2).
Defined.

(** X5. The failures of [parseTheme]: a reference that is not a URL and
    names no installed package is [package not found]; a descriptor whose
    first stylesheet candidate is missing or does not end in [.css] is
    [invalid css file], also when a later candidate would be a
    stylesheet; a descriptor without a name is a type error; anything
    else was thrown while reading the descriptor. A URL never fails. *)
Theorem parseTheme_failures env s e :
  parseTheme env (Some s) = Thrown e ->
  is_http_url s = false
  /\ ((truthy (resolvePkg env s) = false
       /\ e = Error ("package not found: " ++ s))
      \/ exists pkgRoot,
           resolvePkg env s = Some pkgRoot
           /\ endsWith pkgRoot ".css" = false
           /\ (read_package_json env (path_join env pkgRoot "package.json")
               = Thrown e
               \/ exists packageJson,
                    read_package_json env (path_join env pkgRoot "package.json")
                    = Returned packageJson
                    /\ ((e = Error ("invalid css file: "
                                    ++ show_opt (maybeCSS_of packageJson))
                         /\ forall css,
                              maybeCSS_of packageJson = Some css ->
                              truthy css && endsWith css ".css" = false)
                        \/ (e = TypeError /\ pkg_name packageJson = None)))).
Proof.
  intros H.
  destruct (parseTheme_cases env s)
    as [[Hu E]|[[Hu [Hr E]]|[[root [Hu [Hr [Ht [He E]]]]]
                             |[root [Hu [Hr [Ht [He E]]]]]]]];
    try congruence.
  - split; [exact Hu|]. left. split; [exact Hr | congruence].
  - split; [exact Hu|]. right. exists root.
    split; [exact Hr|]. split; [exact He|].
    destruct (read_package_json env _) as [pj| |]; try congruence.
    + right. exists pj. split; [reflexivity|].
      destruct (maybeCSS_of pj) as [css|] eqn:Hc.
      * destruct (truthy css && endsWith css ".css") eqn:Hcss.
        -- destruct (pkg_name pj); [congruence|].
           right. split; [congruence | reflexivity].
        -- left. split; [unfold show_opt; congruence|].
           intros css' Hc'. congruence.
      * left. split; [|discriminate].
        rewrite E in H. inversion H. reflexivity.
    + left. congruence.
Qed.

Lemma parseTheme_failures_witness :
  parseTheme package_env (Some "sassy")
  = Thrown (Error "invalid css file: theme.scss")
  /\ pkg_main sass_package = Some "theme.css"
  /\ is_http_url "sassy" = false.
Proof.
  assert (H : parseTheme package_env (Some "sassy")
              = Thrown (Error "invalid css file: theme.scss")) by reflexivity.
  split; [exact H|]. split; [reflexivity|].
  exact (proj1 (parseTheme_failures package_env "sassy" _ H)).
Defined.

(** ** Parsing one entry *)

Lemma js_or_theme (x y : option ParsedTheme) :
  x ||| y = match x with Some t => Some t | None => y end.
Proof. now destruct x. Qed.

(** X6. [parseEntry] touches nothing but the theme set, and only when it
    returns: a call that throws leaves the state as it was, so the theme
    of a document whose entry fails is not registered; a call that
    returns leaves the set as it was or has pushed the theme of the
    entry, whose name was new. *)
Theorem parseEntry_state env config ctx art entry w :
  let r := parseEntry env config ctx art entry w in
  trace (snd r) = trace w
  /\ browser (snd r) = browser w
  /\ match fst r with
     | Returned pe =>
         themes (snd r) = themes w
         \/ exists t,
              pe_theme pe = Some t
              /\ name_is_new (themes w) t = true
              /\ themes (snd r) = themes w ++ [t]
     | _ => snd r = w
     end.
Proof.
  unfold parseEntry, bind, lift, get_world, ret, push_theme.
  destruct (parseMetadata env _ _) as [[ttl th]| |]; simpl; auto.
  destruct (parseTheme env (e_theme entry)) as [et| |]; simpl; auto.
  destruct (et ||| th ||| hd_error (themes w)) as [t|]; simpl; auto.
  destruct (name_is_new (themes w) t) eqn:Hn; simpl; auto.
  repeat split; auto. right. exists t. auto.
Qed.

(** X7. The title and the theme of a parsed entry. The theme is the
    per-entry theme if the entry names one, else the theme found in the
    document, else the first record of the theme set at that moment. The
    title is the first truthy one of the entry title, the title found in
    the document and the title of the configuration file; the title
    given on the command line plays no part. *)
Theorem parseEntry_precedence env config ctx art entry w pe w' :
  parseEntry env config ctx art entry w = (Returned pe, w') ->
  exists docTitle docTheme entryTheme,
    parseMetadata env (pe_type pe) (path (pe_source pe))
    = Returned (docTitle, docTheme)
    /\ parseTheme env (e_theme entry) = Returned entryTheme
    /\ pe_theme pe
       = spec_precedence entryTheme docTheme (hd_error (themes w)) None
    /\ if_truthy (pe_title pe)
       = spec_precedence (if_truthy (e_title entry)) (if_truthy docTitle)
           (if_truthy (opt_field config cfg_title)) None.
Proof.
  intros H.
  destruct (parseEntry_returned _ _ _ _ _ _ _ _ H) as [Hs [_ Hty]].
  destruct (parseEntry_inv _ _ _ _ _ _ _ _ H)
    as [docTitle [docTheme [entryTheme [Hm [Hp [Hth [Htt _]]]]]]].
  exists docTitle, docTheme, entryTheme.
  rewrite Hs, Hty. split; [exact Hm|]. split; [exact Hp|]. split.
  - rewrite Hth, !js_or_theme.
    destruct entryTheme, docTheme, (hd_error (themes w)); reflexivity.
  - rewrite Htt. apply precedence_of_three.
Qed.

Lemma parseEntry_precedence_witness :
  let env := Sample.env_of None Sample.first_has_theme [] None in
  let entry := {| e_path := "a.md"; e_title := Some "Preface";
                  e_theme := None |} in
  let pe := {| pe_type := Markdown; pe_title := Some "Preface";
               pe_theme := Some Sample.remote_theme;
               pe_source := {| path := "/proj/a.md"; dir := "/proj" |};
               pe_target :=
                 {| path := "/proj/.vivliostyle/artifacts/a.html";
                    dir := "/proj/.vivliostyle/artifacts" |} |} in
  let w' := {| themes := [Sample.remote_theme]; browser := NotLaunched;
               tocVisible := false; listening := false;
               tocPromise := None; trace := [] |} in
  parseEntry env None "/proj" "/proj/.vivliostyle/artifacts" entry
    initial_world = (Returned pe, w')
  /\ exists docTitle docTheme entryTheme,
       parseMetadata env (pe_type pe) (path (pe_source pe))
       = Returned (docTitle, docTheme)
       /\ parseTheme env (e_theme entry) = Returned entryTheme
       /\ pe_theme pe
          = spec_precedence entryTheme docTheme
              (hd_error (themes initial_world)) None
       /\ if_truthy (pe_title pe)
          = spec_precedence (if_truthy (e_title entry)) (if_truthy docTitle)
              (if_truthy (opt_field None cfg_title)) None.
Proof.
  intros env entry pe w'.
  assert (H : parseEntry env None "/proj" "/proj/.vivliostyle/artifacts" entry
                initial_world = (Returned pe, w')) by reflexivity.
  split; [exact H|].
  exact (parseEntry_precedence env None "/proj" "/proj/.vivliostyle/artifacts"
           entry initial_world pe w' H).
Defined.

(** X8. The target path of a parsed entry never ends in [.md]: the staged
    path gets [.html] in place of a final [.md], and is kept as it is
    otherwise, whatever the type of the entry; the target directory is
    the directory of the target path. *)
Theorem target_path_never_md env config ctx art entry w pe w' :
  parseEntry env config ctx art entry w = (Returned pe, w') ->
  let staged :=
    path_resolve env art
      (path_relative env ctx (path_resolve env ctx (e_path entry))) in
  endsWith (path (pe_target pe)) ".md" = false
  /\ (endsWith staged ".md" = true ->
      (substring 0 (String.length staged - 3) staged ++ ".md")%string = staged
      /\ path (pe_target pe)
         = (substring 0 (String.length staged - 3) staged ++ ".html")%string
      /\ endsWith (path (pe_target pe)) ".html" = true)
  /\ (endsWith staged ".md" = false -> path (pe_target pe) = staged)
  /\ dir (pe_target pe) = path_dirname env (path (pe_target pe)).
Proof.
  intros H staged.
  destruct (parseEntry_returned _ _ _ _ _ _ _ _ H) as [_ [Ht _]].
  rewrite Ht. unfold target_path. fold staged.
  split; [apply replace_md_suffix_not_md|].
  unfold replace_md_suffix. split; [|split].
  - intros E. rewrite E. split; [|split; [reflexivity|apply endsWith_append]].
    symmetry. now apply endsWith_true in E.
  - intros E. now rewrite E.
  - clear Ht. revert H.
    unfold parseEntry, bind, lift, get_world, ret, push_theme.
    destruct (parseMetadata env _ _) as [[ttl th]| |]; simpl; try discriminate.
    destruct (parseTheme env (e_theme entry)) as [et| |]; simpl;
      try discriminate.
    destruct (et ||| th ||| hd_error (themes w)) as [t|]; simpl.
    + destruct (name_is_new (themes w) t); intros H; inversion H; reflexivity.
    + intros H; inversion H; reflexivity.
Qed.

Lemma target_path_never_md_witness :
  let env := Sample.env_of None Sample.no_documents [] None in
  let entry := normalizeEnry (RawPath "chapter/one.md") in
  let pe := {| pe_type := Markdown; pe_title := None; pe_theme := None;
               pe_source := {| path := "/proj/chapter/one.md";
                               dir := "/proj/chapter" |};
               pe_target :=
                 {| path := "/proj/.vivliostyle/artifacts/chapter/one.html";
                    dir := "/proj/.vivliostyle/artifacts/chapter" |} |} in
  parseEntry env None "/proj" "/proj/.vivliostyle/artifacts" entry
    initial_world = (Returned pe, initial_world)
  /\ endsWith (path (pe_target pe)) ".md" = false.
Proof.
  intros env entry pe.
  assert (H : parseEntry env None "/proj" "/proj/.vivliostyle/artifacts" entry
                initial_world = (Returned pe, initial_world)) by reflexivity.
  split; [exact H|].
  exact (proj1 (target_path_never_md env None "/proj"
                  "/proj/.vivliostyle/artifacts" entry initial_world pe
                  initial_world H)).
Defined.

(** ** The theme set and the entries *)

Lemma name_not_new ts t :
  name_is_new ts t = false -> exists t', In t' ts /\ t_name t' = t_name t.
Proof.
  unfold name_is_new. induction ts as [|x ts IH]; simpl; [discriminate|].
  destruct (String.eqb (t_name x) (t_name t)) eqn:E; simpl.
  - intros _. exists x. split; [now left | now apply String.eqb_eq].
  - intros H. destruct (IH H) as [t' [Hin Hn]]. exists t'. auto.
Qed.

(** [array.map] with an invariant of the state: what holds of every
    element under the invariant holds of the whole result. *)
Lemma mapM_Forall2_inv {A B} (f : A -> M B) (I : World -> Prop)
    (R : A -> B -> Prop) :
  (forall x w, I w -> I (snd (f x w))) ->
  (forall x w y w', I w -> f x w = (Returned y, w') -> R x y) ->
  forall l w outs w',
    I w -> mapM f l w = (Returned outs, w') -> Forall2 R l outs /\ I w'.
Proof.
  intros HI HR l. induction l as [|x l IH]; simpl; intros w outs w' Hw H.
  - inversion H; subst. split; [constructor | assumption].
  - unfold bind in H.
    destruct (f x w) as [[y| |] w1] eqn:Hx; try discriminate.
    destruct (mapM f l w1) as [[ys| |] w2] eqn:Hl; try discriminate.
    inversion H; subst.
    assert (Hw1 : I w1) by (specialize (HI x w Hw); now rewrite Hx in HI).
    destruct (IH _ _ _ Hw1 Hl) as [HF Hw2].
    split; [constructor; eauto | assumption].
Qed.

(** X9. After the entries are parsed, the theme set covers the names of
    their themes: for the theme of every parsed entry the set holds a
    record of the same name. *)
Theorem themes_cover_entries env config ctx art entries w outs w' :
  mapM (parseEntry env config ctx art) entries w = (Returned outs, w') ->
  Forall (fun pe =>
            forall t, pe_theme pe = Some t ->
                      exists t', In t' (themes w') /\ t_name t' = t_name t)
         outs.
Proof.
  revert w outs w'. induction entries as [|x l IH]; simpl; intros w outs w' H.
  - inversion H. constructor.
  - unfold bind in H.
    destruct (parseEntry env config ctx art x w) as [[y| |] w1] eqn:Hx;
      try discriminate.
    destruct (mapM _ l w1) as [[ys| |] w2] eqn:Hl; try discriminate.
    inversion H; subst. constructor; [|eapply IH; eauto].
    intros t Ht.
    destruct (parseEntry_inv _ _ _ _ _ _ _ _ Hx)
      as [_ [_ [_ [_ [_ [_ [_ Hth]]]]]]].
    rewrite Ht in Hth.
    pose proof (mapM_parseEntry_extends env config ctx art l w1) as [[added E] _].
    rewrite Hl in E. simpl in E.
    assert (Hin : exists t', In t' (themes w1) /\ t_name t' = t_name t).
    { destruct (name_is_new (themes w) t) eqn:Hn; rewrite Hth.
      - exists t. split; [apply in_or_app; right; now left | reflexivity].
      - now apply name_not_new. }
    destruct Hin as [t' [Hin Hn]]. exists t'. split; [|exact Hn].
    rewrite E. apply in_or_app. now left.
Qed.

Lemma themes_cover_entries_witness :
  let env := Sample.env_of None Sample.clashing_themes [] None in
  let r := mapM (parseEntry env None "/proj" "/proj/.vivliostyle/artifacts")
             Sample.two_raw_entries initial_world in
  exists outs w',
    r = (Returned outs, w')
    /\ Forall (fun pe =>
                 forall t, pe_theme pe = Some t ->
                           exists t', In t' (themes w') /\ t_name t' = t_name t)
              outs.
Proof.
  intros env r.
  destruct r as [[outs| |] w'] eqn:E; try (vm_compute in E; discriminate).
  exists outs, w'. split; [reflexivity|].
  exact (themes_cover_entries env None "/proj" "/proj/.vivliostyle/artifacts"
           Sample.two_raw_entries initial_world outs w' E).
Defined.

Lemma hd_error_app_keep {A} (l l' : list A) x :
  hd_error l = Some x -> hd_error (l ++ l') = Some x.
Proof. destruct l; simpl; [discriminate | auto]. Qed.

(** X10. When a theme is configured on the command line or in the
    configuration file, it is resolved once, stays the first record of
    the theme set, and is the theme of every entry that names none and
    whose document names none: with a root theme no entry is left
    without a theme. *)
Theorem root_theme_is_fallback env cliFlags w c entries w' :
  resolveEntries env cliFlags w = (Returned (c, entries), w') ->
  exists config,
    collectVivliostyleConfig env (config_path env cliFlags) = Returned config
    /\ (truthy (cli_theme cliFlags ||| opt_field config cfg_theme) = true ->
        exists root,
          parseTheme env (cli_theme cliFlags ||| opt_field config cfg_theme)
          = Returned (Some root)
          /\ hd_error (themes w') = Some root
          /\ Forall2
               (fun raw pe =>
                  pe_theme pe <> None
                  /\ (parseTheme env (e_theme raw) = Returned None ->
                      (forall docTitle docTheme,
                          parseMetadata env (pe_type pe) (path (pe_source pe))
                          = Returned (docTitle, docTheme) ->
                          docTheme = None) ->
                      pe_theme pe = Some root))
               (map normalizeEnry (rawEntries cliFlags config)) entries).
Proof.
  intros H.
  destruct (resolveEntries_returned_root _ _ _ _ _ _ H)
    as [pkgJson [config [rootTheme [w1 [_ [Hc [_ [Hroot [Hth Hm]]]]]]]]].
  exists config. split; [exact Hc|]. intros Ht. rewrite Ht in Hroot.
  destruct rootTheme as [root|].
  2:{ exfalso.
      destruct (cli_theme cliFlags ||| opt_field config cfg_theme) as [s|];
        [|discriminate].
      now apply (parseTheme_some_not_none env s). }
  exists root. split; [exact Hroot|].
  assert (HI : hd_error (themes w1) = Some root) by now rewrite Hth.
  destruct (mapM_Forall2_inv
              (parseEntry env config (contextDir c) (artifactDir c))
              (fun w0 => hd_error (themes w0) = Some root)
              (fun raw pe =>
                 pe_theme pe <> None
                 /\ (parseTheme env (e_theme raw) = Returned None ->
                     (forall docTitle docTheme,
                         parseMetadata env (pe_type pe) (path (pe_source pe))
                         = Returned (docTitle, docTheme) ->
                         docTheme = None) ->
                     pe_theme pe = Some root)))
    with (l := map normalizeEnry (rawEntries cliFlags config))
         (w := w1) (outs := entries) (w' := w') as [HF Hhd]; auto.
  - intros x w0 Hw0.
    destruct (parseEntry_themes env config (contextDir c) (artifactDir c) x w0)
      as [E|[t [E _]]]; rewrite E; [exact Hw0|].
    now apply hd_error_app_keep.
  - intros x w0 y w0' Hw0 Hxy.
    destruct (parseEntry_returned _ _ _ _ _ _ _ _ Hxy) as [Hs [_ Hty]].
    destruct (parseEntry_inv _ _ _ _ _ _ _ _ Hxy)
      as [docTitle [docTheme [entryTheme [Hmeta [Hp [Hthm _]]]]]].
    rewrite <- Hty, <- Hs in Hmeta.
    rewrite Hw0, !js_or_theme in Hthm. split.
    + rewrite Hthm. destruct entryTheme, docTheme; discriminate.
    + intros He Hdoc. rewrite He in Hp. inversion Hp; subst.
      rewrite (Hdoc _ _ Hmeta) in Hthm. exact Hthm.
Qed.

Lemma root_theme_is_fallback_witness :
  let flags :=
    {| cli_configPath := ""; cli_input := ""; cli_outFile := "";
       cli_rootDir := None;
       cli_theme := Some "https://example.com/house.css";
       cli_size := None; cli_title := None; cli_language := None;
       cli_author := None; cli_pressReady := false; cli_verbose := None;
       cli_timeout := 0; cli_loadMode := None; cli_sandbox := true;
       cli_executableChromium := None |} in
  let env := Sample.env_of (Some Sample.two_entries) Sample.first_has_theme
               [] None in
  exists c entries w',
    resolveEntries env flags initial_world = (Returned (c, entries), w')
    /\ map pe_theme entries
       = [Some Sample.remote_theme;
          Some {| t_type := ThemeUri; t_name := "house.css";
                  t_location := "https://example.com/house.css" |}]
    /\ exists config,
         collectVivliostyleConfig env (config_path env flags) = Returned config.
Proof.
  intros flags env.
  destruct (resolveEntries env flags initial_world)
    as [[[c entries]| |] w'] eqn:E; try (vm_compute in E; discriminate).
  exists c, entries, w'. split; [reflexivity|]. split.
  - vm_compute in E. inversion E. reflexivity.
  - destruct (root_theme_is_fallback env flags initial_world c entries w' E)
      as [config [Hc _]].
    exists config. exact Hc.
Defined.

(** ** The footprint of the staging *)

Lemma themes_apply_op o w : themes (apply_op o w) = themes w.
Proof. destruct o; try destruct visible; reflexivity. Qed.

Section AppendsWith.
Variable ts : list ParsedTheme.
Variable Q : op -> Prop.

Lemma with_nothing {A} (m : M A) :
  (forall w, snd (m w) = w) -> appends_with ts Q m.
Proof.
  intros H w Hw. rewrite H. split; [exact Hw|].
  exists []. rewrite app_nil_r. split; [reflexivity | constructor].
Qed.

Lemma with_ret {A} (x : A) : appends_with ts Q (ret x).
Proof. now apply with_nothing. Qed.

Lemma with_throw {A} e : appends_with ts Q (@throw A e).
Proof. now apply with_nothing. Qed.

Lemma with_never {A} : appends_with ts Q (@never A).
Proof. now apply with_nothing. Qed.

Lemma with_lift {A} (o : outcome A) : appends_with ts Q (lift o).
Proof. now apply with_nothing. Qed.

Lemma with_emit o : Q o -> appends_with ts Q (emit o).
Proof.
  intros HQ w Hw. unfold emit. simpl snd.
  rewrite themes_apply_op, trace_apply_op. split; [exact Hw|].
  exists [o]. split; [reflexivity | now constructor].
Qed.

Lemma with_perform env o : Q o -> appends_with ts Q (perform env o).
Proof.
  intros HQ w Hw. unfold perform. destruct (fails env o); simpl snd.
  - split; [exact Hw|]. exists []. rewrite app_nil_r.
    split; [reflexivity | constructor].
  - rewrite themes_apply_op, trace_apply_op. split; [exact Hw|].
    exists [o]. split; [reflexivity | now constructor].
Qed.

Lemma with_shell env o : Q o -> appends_with ts Q (shell env o).
Proof.
  intros HQ w Hw. unfold shell. destruct (shell_ok env o w); simpl snd.
  - rewrite themes_apply_op, trace_apply_op. split; [exact Hw|].
    exists [o]. split; [reflexivity | now constructor].
  - split; [exact Hw|]. exists []. rewrite app_nil_r.
    split; [reflexivity | constructor].
Qed.

Lemma with_writeFileSync env p c :
  Q (FsWrite p c) -> appends_with ts Q (writeFileSync env p c).
Proof.
  intros HQ w Hw. unfold writeFileSync.
  destruct (fails env (FsWrite p c));
    [|destruct (creatable env w p)]; simpl snd;
    try (split; [exact Hw|]; exists []; rewrite app_nil_r;
         split; [reflexivity | constructor]).
  rewrite themes_apply_op, trace_apply_op. split; [exact Hw|].
  exists [FsWrite p c]. split; [reflexivity | now constructor].
Qed.

Lemma with_resolve_toc t : Q ResolveTOC -> appends_with ts Q (resolve_toc t).
Proof.
  intros HQ w Hw. simpl. split; [exact Hw|].
  exists [ResolveTOC]. split; [reflexivity | now constructor].
Qed.

Lemma with_new_promise : appends_with ts Q new_promise.
Proof.
  intros w Hw. simpl. split; [exact Hw|].
  exists []. rewrite app_nil_r. split; [reflexivity | constructor].
Qed.

Lemma with_bind {A B} (m : M A) (k : A -> M B) :
  appends_with ts Q m -> (forall x, appends_with ts Q (k x)) ->
  appends_with ts Q (bind m k).
Proof.
  intros Hm Hk w Hw. unfold bind. destruct (Hm w Hw) as [T1 [ops1 [E1 F1]]].
  destruct (m w) as [[x| |] w1]; simpl in *; eauto.
  destruct (Hk x w1 T1) as [T2 [ops2 [E2 F2]]]. split; [exact T2|].
  exists (ops1 ++ ops2). rewrite E2, E1, app_assoc.
  split; [reflexivity | now apply Forall_app].
Qed.

(** Reading the state: the continuation is run in a state whose theme
    set is [ts]. *)
Lemma with_get_world {B} (k : World -> M B) :
  (forall x, themes x = ts -> appends_with ts Q (k x)) ->
  appends_with ts Q (bind get_world k).
Proof. intros Hk w Hw. unfold bind, get_world. now apply Hk. Qed.

Lemma with_forM_ {A} (l : list A) (body : A -> M unit) :
  (forall x, In x l -> appends_with ts Q (body x)) ->
  appends_with ts Q (forM_ l body).
Proof.
  induction l as [|x l IH]; simpl; intros Hb.
  - apply with_ret.
  - apply with_bind; [apply Hb; now left|]. intros _.
    apply IH. intros y Hy. apply Hb. now right.
Qed.

End AppendsWith.

Ltac with_step :=
  first
    [ apply with_ret | apply with_throw | apply with_never | apply with_lift
    | apply with_new_promise
    | match goal with
      | |- appends_with _ _ (bind get_world _) =>
          apply with_get_world; intros ? ?
      end
    | apply with_bind; [ | intros ? ]
    | apply with_forM_; intros ? ?
    | apply with_perform | apply with_shell | apply with_writeFileSync
    | apply with_emit | apply with_resolve_toc
    | match goal with
      | |- appends_with _ _ (match ?x with _ => _ end) => destruct x
      | |- appends_with _ _ (let '(_, _) := ?x in _) => destruct x
      end ].

Lemma with_generatePDF ts env args :
  appends_with ts (rendered_op env args) (generatePDF env args).
Proof.
  unfold generatePDF, loadMetadata, loadTOC, emit_done, listener, await_toc,
    waitForReady.
  repeat with_step; try exact I. split; reflexivity.
Qed.

Lemma with_weaken {A} ts (Q Q' : op -> Prop) (m : M A) :
  (forall o, Q o -> Q' o) -> appends_with ts Q m -> appends_with ts Q' m.
Proof.
  intros HQ Hm w Hw. destruct (Hm w Hw) as [T [ops [E F]]].
  split; [exact T|]. exists ops. split; [exact E|].
  eapply Forall_impl; eauto.
Qed.

Lemma with_populate ts env c entries pe :
  In pe entries ->
  appends_with ts (staged_op env c entries ts) (populate env (distDir c) pe).
Proof.
  intros Hin. unfold populate. destruct (pe_type pe) eqn:Hty.
  - intros w Hw. unfold bind at 1, lift.
    destruct (markdown_render env _ _) as [file| |] eqn:Hr; simpl snd;
      try (split; [exact Hw|]; exists []; rewrite app_nil_r;
           split; [reflexivity | constructor]).
    refine (with_bind ts _ _ _ _ _ w Hw); [ | intros _ ].
    + apply with_shell. simpl. right. exists pe. auto.
    + apply with_writeFileSync. simpl. exists pe. auto.
  - apply with_shell. simpl. left. exists pe. auto.
Qed.

Lemma with_stageAndRender env c entries ts :
  appends_with ts (staged_op env c entries ts) (stageAndRender env c entries).
Proof.
  unfold stageAndRender, copyTheme, generateManifest.
  apply with_bind; [apply with_shell; reflexivity | intros _].
  apply with_bind; [apply with_shell; now left | intros _].
  apply with_bind; [apply with_forM_; intros pe Hpe; now apply with_populate
                   | intros _].
  apply with_get_world. intros w0 Hw0. rewrite Hw0.
  apply with_bind.
  { apply with_forM_. intros t Ht. destruct (t_type t) eqn:Hty.
    - apply with_shell. simpl. right. left. exists t. auto.
    - apply with_ret. }
  intros _.
  apply with_bind; [apply with_writeFileSync; simpl; auto | intros _].
  apply with_bind.
  { destruct (toc c) as [b|p] eqn:Htoc.
    - destruct (truthy (TocBool b)); [|apply with_ret].
      apply with_writeFileSync. simpl. auto.
    - destruct (truthy (TocFile p)) eqn:Hp; [|apply with_ret].
      apply with_shell. simpl. right. right. exists p.
      change (truthy p = true) in Hp.
      unfold ctxPath, show_opt. rewrite Hp. auto. }
  intros _.
  apply with_bind.
  { eapply with_weaken; [|apply with_generatePDF].
    intros [] H; simpl in *; tauto. }
  intros outputFile. repeat with_step; exact I.
Qed.

(** Every operation of a run of [build] is one that the staging of the
    resolved entries allows. *)
Lemma build_ops_staged env cliFlags o :
  In o (trace (snd (run (build env cliFlags)))) ->
  exists c entries w',
    resolveEntries env cliFlags initial_world = (Returned (c, entries), w')
    /\ staged_op env c entries (themes w') o.
Proof.
  unfold run, build, bind.
  pose proof (resolveEntries_trace env cliFlags initial_world) as Ht.
  destruct (resolveEntries env cliFlags initial_world)
    as [[[c entries]| |] w1]; simpl in *; try (rewrite Ht; intros []).
  destruct (with_stageAndRender env c entries (themes w1) w1 eq_refl)
    as [_ [ops [E F]]].
  rewrite E, Ht. simpl. intros Hin.
  rewrite Forall_forall in F. exists c, entries, w1. auto.
Qed.



(** X12. The contents page that [build] generates and the manifest it
    writes agree: [toc.html] has one link per item of the reading order,
    in the same order and with the same [href], and the label of a link
    is the title of the item whenever that title is not empty. *)
Theorem toc_matches_manifest env cliFlags p m q items :
  In (FsWrite p (ManifestJson m)) (trace (snd (run (build env cliFlags)))) ->
  In (FsWrite q (TocHtml items)) (trace (snd (run (build env cliFlags)))) ->
  map tl_href items = map ro_href (m_readingOrder m)
  /\ List.length items = List.length (m_readingOrder m)
  /\ Forall2 (fun link item =>
                forall t, ro_title item = Some t -> truthy t = true ->
                          tl_label link = t)
             items (m_readingOrder m).
Proof.
  intros Hm Ht.
  destruct (build_ops_staged _ _ _ Hm) as [c [entries [w' [Hr [_ Em]]]]].
  destruct (build_ops_staged _ _ _ Ht) as [c' [entries' [w'' [Hr' [_ Et]]]]].
  rewrite Hr in Hr'. inversion Hr'; subst c' entries' w''. clear Hr'.
  unfold generateToC in Et. inversion Et; subst items m. clear Et.
  simpl m_readingOrder. unfold manifest_entries.
  rewrite !length_map, !map_map. simpl.
  split; [reflexivity|]. split; [reflexivity|].
  clear. induction entries as [|pe l IH]; simpl; constructor; auto.
  simpl. intros t Ht Htr. unfold js_or_lit. now rewrite Ht, Htr.
Qed.

Lemma toc_matches_manifest_witness :
  let env := Sample.env_of (Some Sample.two_entries) Sample.first_has_theme
               [Sample.toc_done] (Some 0) in
  let items := [ {| tl_href := "artifacts/a.html"; tl_label := "A" |};
                 {| tl_href := "artifacts/b.html"; tl_label := "b" |} ] in
  In (FsWrite "/proj/.vivliostyle/manifest.json" (ManifestJson Sample.manifest))
     (trace (snd (run (build env Sample.no_flags))))
  /\ In (FsWrite "/proj/.vivliostyle/toc.html" (TocHtml items))
        (trace (snd (run (build env Sample.no_flags))))
  /\ map tl_href items = map ro_href (m_readingOrder Sample.manifest).
Proof.
  intros env items.
  assert (H1 : In (FsWrite "/proj/.vivliostyle/manifest.json"
                     (ManifestJson Sample.manifest))
                  (trace (snd (run (build env Sample.no_flags))))).
  { vm_compute. repeat (first [left; reflexivity | right]). }
  assert (H2 : In (FsWrite "/proj/.vivliostyle/toc.html" (TocHtml items))
                  (trace (snd (run (build env Sample.no_flags))))).
  { vm_compute. repeat (first [left; reflexivity | right]). }
  split; [exact H1|]. split; [exact H2|].
  exact (proj1 (toc_matches_manifest env Sample.no_flags _ _ _ _ H1 H2)).
Defined.

Lemma language_always_truthy env cliFlags config pkgJson configPath :
  truthy (language (mergeConfig env cliFlags config pkgJson configPath)) = true.
Proof.
  simpl. unfold js_or_lit.
  destruct (opt_field config cfg_language) as [l|]; [|reflexivity].
  destruct (truthy l) eqn:E; [exact E | reflexivity].
Qed.

(** X13. Every manifest that [build] writes is written to
    [manifest.json] in the staging directory, lists the contents page
    [toc.html] as its only resource, has a non-empty language ([en]
    unless the configuration file sets one), no links, the current time
    as modification stamp, and a non-empty reading order whose items all
    have the type [text/html]. *)
Theorem build_manifest_shape env cliFlags p m :
  In (FsWrite p (ManifestJson m)) (trace (snd (run (build env cliFlags)))) ->
  m_resources m = [toc_resource]
  /\ (exists l, md_language (m_metadata m) = Some l /\ truthy l = true)
  /\ m_links m = []
  /\ md_modified (m_metadata m) = now_iso env
  /\ m_readingOrder m <> []
  /\ Forall (fun item => ro_type item = "text/html") (m_readingOrder m)
  /\ exists c entries w',
       resolveEntries env cliFlags initial_world = (Returned (c, entries), w')
       /\ p = path_join env (distDir c) "manifest.json".
Proof.
  intros Hin.
  destruct (build_ops_staged _ _ _ Hin) as [c [entries [w' [Hr [Hp ->]]]]].
  destruct (resolveEntries_returned _ _ _ _ _ _ Hr)
    as [pkgJson [config [w1 [_ [_ [Hc [_ Hne]]]]]]].
  assert (Htoc : truthy (mo_toc (manifest_options env c entries)) = true).
  { change (truthy (toc c) = true). rewrite Hc. apply toc_always_requested. }
  split; [unfold manifest_object; now rewrite Htoc|].
  split.
  { exists (language c). split; [reflexivity|].
    rewrite Hc. apply language_always_truthy. }
  split; [reflexivity|]. split; [reflexivity|]. split.
  { simpl. unfold manifest_entries.
    destruct entries; [congruence | discriminate]. }
  split.
  { apply Forall_forall. intros item Hi. simpl in Hi.
    apply in_map_iff in Hi as [x [<- _]]. reflexivity. }
  exists c, entries, w'. auto.
Qed.

Lemma build_manifest_shape_witness :
  let env := Sample.env_of (Some Sample.two_entries) Sample.first_has_theme
               [Sample.toc_done] (Some 0) in
  In (FsWrite "/proj/.vivliostyle/manifest.json" (ManifestJson Sample.manifest))
     (trace (snd (run (build env Sample.no_flags))))
  /\ m_resources Sample.manifest = [toc_resource].
Proof.
  intros env.
  assert (H : In (FsWrite "/proj/.vivliostyle/manifest.json"
                    (ManifestJson Sample.manifest))
                 (trace (snd (run (build env Sample.no_flags))))).
  { vm_compute. repeat (first [left; reflexivity | right]). }
  split; [exact H|].
  exact (proj1 (build_manifest_shape env Sample.no_flags _ _ H)).
Defined.

(** X14. Nothing is staged unless every entry and theme was resolved:
    when the resolution of the configuration, the themes or the entries
    does not return, [build] ends in the same way and has performed no
    operation at all, so the staging directory of an earlier build is
    left as it was. This is the case when the list of entries is empty. *)
Theorem build_stops_before_staging env cliFlags w :
  ((forall r, fst (resolveEntries env cliFlags w) <> Returned r) ->
   trace (snd (build env cliFlags w)) = trace w
   /\ (forall e, fst (build env cliFlags w) = Thrown e
                 <-> fst (resolveEntries env cliFlags w) = Thrown e)
   /\ (forall u, fst (build env cliFlags w) <> Returned u))
  /\ (forall config,
        collectVivliostyleConfig env (config_path env cliFlags)
        = Returned config ->
        rawEntries cliFlags config = [] ->
        forall r, fst (resolveEntries env cliFlags w) <> Returned r).
Proof.
  split.
  - intros Hnr. unfold build, bind.
    pose proof (resolveEntries_trace env cliFlags w) as Ht.
    destruct (resolveEntries env cliFlags w) as [[r| |] w1]; simpl in *.
    + exfalso. now apply (Hnr r).
    + split; [exact Ht|]. split; [|intros u; discriminate].
      intros e0; split; intros H; inversion H; reflexivity.
    + split; [exact Ht|]. split; [|intros u; discriminate].
      intros e0; split; intros; discriminate.
  - intros config Hc Hraw [c entries] H.
    destruct (resolveEntries env cliFlags w) as [o w'] eqn:E.
    simpl in H. subst o.
    destruct (resolveEntries_returned _ _ _ _ _ _ E)
      as [pkgJson [config' [w1 [_ [Hc' [_ [Hm Hne]]]]]]].
    assert (config' = config) by congruence. subst config'.
    rewrite Hraw in Hm. simpl in Hm. inversion Hm. congruence.
Qed.

Lemma build_stops_before_staging_witness :
  let env := Sample.env_of (Some (Sample.config_with (EntryArray [])))
               Sample.no_documents [] None in
  rawEntries Sample.no_flags (Some (Sample.config_with (EntryArray []))) = []
  /\ trace (snd (build env Sample.no_flags initial_world))
     = trace initial_world
  /\ fst (build env Sample.no_flags initial_world)
     = Thrown (Error "no entry found").
Proof.
  intros env.
  assert (Hc : collectVivliostyleConfig env (config_path env Sample.no_flags)
               = Returned (Some (Sample.config_with (EntryArray []))))
    by reflexivity.
  assert (Hraw : rawEntries Sample.no_flags
                   (Some (Sample.config_with (EntryArray []))) = [])
    by reflexivity.
  split; [exact Hraw|]. split; [|reflexivity].
  exact (proj1 (proj1 (build_stops_before_staging env Sample.no_flags
                         initial_world)
                  (proj2 (build_stops_before_staging env Sample.no_flags
                            initial_world) _ Hc Hraw))).
Defined.

Lemma appends_stage_files env c entries :
  appends (fun o => named "shelljs.rm" o = false) (stage_files env c entries).
Proof.
  unfold stage_files, populate, copyTheme, generateManifest.
  repeat appends_step; reflexivity.
Qed.

Lemma appends_render_and_exit_no_rm env c :
  appends (fun o => named "shelljs.rm" o = false) (render_and_exit env c).
Proof.
  unfold render_and_exit, generatePDF, loadMetadata.
  repeat first [ apply appends_loadTOC | apply appends_waitForReady
               | appends_step ]; try reflexivity.
Qed.

(** X15. Staging starts with the clean-up, and the clean-up is not
    checked. Before anything else is done to the outside, [build]
    removes the staging directory and then creates the artifact
    directory; each of the two is done unless the command fails. The
    run then goes on with the same steps whether they were done or not,
    for the program reads no result of shelljs. Nothing is removed
    later. *)
Theorem staging_starts_clean env c entries w :
  let rm := FsRmRf (distDir c) in
  let mk := FsMkdirP (artifactDir c) in
  let w' := after_shell env mk (after_shell env rm w) in
  stageAndRender env c entries w
  = bind (stage_files env c entries) (fun _ => render_and_exit env c) w'
  /\ trace w'
     = trace w
       ++ (match fails env rm with Some _ => [] | None => [rm] end)
       ++ (match fails env mk with Some _ => [] | None => [mk] end)
  /\ (exists rest,
        trace (snd (stageAndRender env c entries w)) = trace w' ++ rest
        /\ Forall (fun o => named "shelljs.rm" o = false) rest).
Proof.
  intros rm mk w'.
  assert (H : stageAndRender env c entries w
              = bind (stage_files env c entries)
                  (fun _ => render_and_exit env c) w').
  { rewrite stageAndRender_sections. unfold stage, bind at 1 2.
    unfold shell at 1 2. unfold bind at 2. reflexivity. }
  split; [exact H|]. split.
  - subst w'. unfold after_shell, shell, shell_ok. simpl snd.
    subst rm mk.
    destruct (fails env (FsRmRf (distDir c)));
      destruct (fails env (FsMkdirP (artifactDir c)));
      rewrite ?trace_apply_op, <- ?app_assoc, ?app_nil_r; reflexivity.
  - rewrite H.
    destruct (appends_bind _ _ _ (appends_stage_files env c entries)
                (fun _ => appends_render_and_exit_no_rm env c) w')
      as [rest [E F]].
    exists rest. auto.
Qed.

(** X16. An input given on the command line replaces the entries of the
    configuration file: the manifest then has a single item in its
    reading order, the staged path of that input. *)
Theorem input_replaces_config_entries env cliFlags p m :
  truthy (cli_input cliFlags) = true ->
  In (FsWrite p (ManifestJson m)) (trace (snd (run (build env cliFlags)))) ->
  exists c entries w' title,
    resolveEntries env cliFlags initial_world = (Returned (c, entries), w')
    /\ m_readingOrder m
       = [ {| ro_href :=
                path_relative env (distDir c)
                  (target_path env (contextDir c) (artifactDir c)
                     (cli_input cliFlags));
              ro_type := "text/html";
              ro_title := title |} ].
Proof.
  intros Hi Hin.
  destruct (build_manifest_written _ _ _ _ Hin) as [c [entries [w' [Hr ->]]]].
  destruct (resolveEntries_returned _ _ _ _ _ _ Hr)
    as [pkgJson [config [w1 [_ [_ [_ [Hm _]]]]]]].
  unfold rawEntries in Hm. rewrite Hi in Hm. simpl in Hm.
  unfold bind in Hm.
  destruct (parseEntry env config (contextDir c) (artifactDir c) _ w1)
    as [[pe| |] w2] eqn:Hpe; try discriminate.
  simpl in Hm. inversion Hm; subst entries.
  destruct (parseEntry_returned _ _ _ _ _ _ _ _ Hpe) as [_ [Ht _]].
  exists c, [pe], w', (pe_title pe). split; [exact Hr|].
  simpl. now rewrite Ht.
Qed.

Lemma input_replaces_config_entries_witness :
  let flags :=
    {| cli_configPath := ""; cli_input := "c.md"; cli_outFile := "";
       cli_rootDir := None; cli_theme := None; cli_size := None;
       cli_title := None; cli_language := None; cli_author := None;
       cli_pressReady := false; cli_verbose := None; cli_timeout := 0;
       cli_loadMode := None; cli_sandbox := true;
       cli_executableChromium := None |} in
  let env := Sample.env_of (Some Sample.two_entries) Sample.no_documents
               [Sample.toc_done] (Some 0) in
  let m := manifest_object
             {| mo_title := None; mo_author := None; mo_language := Some "en";
                mo_modified := "2020-06-01T00:00:00.000Z";
                mo_entries := [ {| me_path := "artifacts/c.html";
                                   me_title := None |} ];
                mo_toc := Some (TocBool true) |} in
  truthy (cli_input flags) = true
  /\ In (FsWrite "/proj/.vivliostyle/manifest.json" (ManifestJson m))
        (trace (snd (run (build env flags))))
  /\ List.length (m_readingOrder m) = 1.
Proof.
  intros flags env m.
  assert (H : In (FsWrite "/proj/.vivliostyle/manifest.json" (ManifestJson m))
                 (trace (snd (run (build env flags))))).
  { vm_compute. repeat (first [left; reflexivity | right]). }
  split; [reflexivity|]. split; [exact H|].
  destruct (input_replaces_config_entries env flags _ m eq_refl H)
    as [c [entries [w' [title [_ E]]]]].
  now rewrite E.
Defined.

Lemma dirs_after_last tr o before d :
  dirs_after (tr ++ [o]) before d
  = dirs_after [o] (dirs_after tr before) d.
Proof.
  revert before. induction tr as [|x tr IH]; intros before; [reflexivity|].
  destruct x; simpl app; cbn [dirs_after]; apply IH.
Qed.

Lemma creatable_after_cp env src dst w p :
  creatable env (apply_op (FsCp src dst) w) p = creatable env w p.
Proof.
  unfold creatable. now rewrite trace_apply_op, dirs_after_last.
Qed.

Lemma shell_ok_after_cp env src dst o w :
  shell_ok env o (apply_op (FsCp src dst) w) = shell_ok env o w.
Proof.
  unfold shell_ok. destruct (fails env o); [reflexivity|].
  destruct o; try reflexivity. apply creatable_after_cp.
Qed.

(** The copy that the loop "copy theme" makes of a theme. *)
Lemma copyTheme_eq env distDir t w :
  copyTheme env distDir t w
  = (Returned tt,
     if is_path_theme t
        && shell_ok env
             (FsCp (t_location t) (path_join env distDir (t_name t))) w
     then apply_op (FsCp (t_location t) (path_join env distDir (t_name t))) w
     else w).
Proof.
  unfold copyTheme, is_path_theme, shell.
  destruct (t_type t); reflexivity.
Qed.

(** X17. The loop that copies the themes never stops the build. It
    copies each theme of type [path] once, in the order of the theme
    set, to the staging directory under the name of the theme, unless
    that copy fails, and skips every theme of type [uri]; when no copy
    fails, the copies made are exactly those of the themes of type
    [path]. *)
Theorem copy_themes_exact env distDir ts w :
  let cp t := FsCp (t_location t) (path_join env distDir (t_name t)) in
  fst (forM_ ts (copyTheme env distDir) w) = Returned tt
  /\ trace (snd (forM_ ts (copyTheme env distDir) w))
     = trace w
       ++ map cp (filter (fun t => is_path_theme t && shell_ok env (cp t) w)
                    ts)
  /\ ((forall t, In t ts -> is_path_theme t = true ->
                 shell_ok env (cp t) w = true) ->
      trace (snd (forM_ ts (copyTheme env distDir) w))
      = trace w ++ map cp (filter is_path_theme ts)).
Proof.
  intros cp.
  assert (H : fst (forM_ ts (copyTheme env distDir) w) = Returned tt
              /\ trace (snd (forM_ ts (copyTheme env distDir) w))
                 = trace w
                   ++ map cp (filter (fun t => is_path_theme t
                                               && shell_ok env (cp t) w) ts)).
  { revert w. induction ts as [|t ts IH]; intros w.
    - simpl. now rewrite app_nil_r.
    - change (forM_ (t :: ts) (copyTheme env distDir) w)
        with (bind (copyTheme env distDir t)
                (fun _ => forM_ ts (copyTheme env distDir)) w).
      unfold bind. rewrite (copyTheme_eq env distDir t w). simpl filter.
      fold (cp t).
      destruct (is_path_theme t && shell_ok env (cp t) w).
      + destruct (IH (apply_op (cp t) w)) as [H1 H2].
        split; [exact H1|]. rewrite H2, trace_apply_op, <- app_assoc.
        simpl. do 3 f_equal. apply filter_ext. intros t'.
        unfold cp. now rewrite shell_ok_after_cp.
      + apply IH. }
  destruct H as [H1 H2]. split; [exact H1|]. split; [exact H2|].
  intros Hok. rewrite H2. do 2 f_equal.
  apply filter_ext_in. intros t Ht.
  destruct (is_path_theme t) eqn:Hp; [|reflexivity].
  now rewrite (Hok t Ht Hp).
Qed.

Lemma copy_themes_exact_witness :
  let env := Sample.env_of None Sample.no_documents [] None in
  let local := {| t_type := ThemePath; t_name := "local.css";
                  t_location := "/proj/local.css" |} in
  let w := apply_op (FsMkdirP "/proj/.vivliostyle/artifacts") initial_world in
  let cp t := FsCp (t_location t) (path_join env "/proj/.vivliostyle" (t_name t)) in
  (forall t, In t [Sample.remote_theme; local] -> is_path_theme t = true ->
             shell_ok env (cp t) w = true)
  /\ trace (snd (forM_ [Sample.remote_theme; local]
                   (copyTheme env "/proj/.vivliostyle") w))
     = [ FsMkdirP "/proj/.vivliostyle/artifacts";
         FsCp "/proj/local.css" "/proj/.vivliostyle/local.css" ].
Proof.
  intros env local w cp.
  assert (H : forall t, In t [Sample.remote_theme; local] ->
                        is_path_theme t = true ->
                        shell_ok env (cp t) w = true).
  { intros t [<-|[<-|[]]] Hp; [discriminate | reflexivity]. }
  split; [exact H|].
  exact (proj2 (proj2 (copy_themes_exact env "/proj/.vivliostyle"
                         [Sample.remote_theme; local] w)) H).
Defined.

(** After a removal that failed, the build goes on and completes. *)
Lemma staging_starts_clean_witness :
  let env := with_failures
               (Sample.env_of None Sample.no_documents [Sample.toc_done]
                  (Some 0)) rm_fails in
  let c := mergeConfig env Sample.no_flags None None
             (config_path env Sample.no_flags) in
  fails env (FsRmRf (distDir c)) = Some (External "EACCES")
  /\ fst (stageAndRender env c [] initial_world) = Returned tt
  /\ hd_error (trace (snd (stageAndRender env c [] initial_world)))
     = Some (FsMkdirP (artifactDir c)).
Proof.
  intros env c.
  split; [reflexivity|].
  rewrite (proj1 (staging_starts_clean env c [] initial_world)).
  split; reflexivity.
Defined.

(** ** The render session *)

Lemma ready_not_timeout env t :
  ready_in_time env t -> ~ (t <> 0%Z /\ never_ready_within env t).
Proof.
  unfold ready_in_time, never_ready_within. intros [k [E H]] [Hne Hn].
  rewrite E in Hn. lia.
Qed.

Lemma ready_not_pending env t :
  ready_in_time env t -> ready_after env = None -> False.
Proof. intros [k [E _]] H. congruence. Qed.

Lemma list_ends_with {A} (l : list A) (d : A) :
  l <> [] -> exists before, l = before ++ [last l d].
Proof. intros H. exists (removelast l). now apply app_removelast_last. Qed.

Ltac saved_leaf :=
  unfold returns_saved, ret;
  split;
  [ let f := fresh "f" in
    let Hf := fresh "Hf" in
    intros f Hf; simpl fst in Hf;
    first
      [ discriminate
      | inversion Hf; subst f;
        split; [reflexivity|];
        split; [reflexivity|];
        split; [reflexivity|];
        split; [reflexivity|];
        trace_norm;
        match goal with
        | |- exists before, _ ++ ?l = _ ++ before ++ [_] =>
            destruct (list_ends_with l BrowserClose ltac:(discriminate))
              as [before Hb];
            exists before; rewrite Hb at 1; reflexivity
        end ]
  | let Hok := fresh "Hok" in
    let Hev := fresh "Hev" in
    let Hsz := fresh "Hsz" in
    let Hrd := fresh "Hrd" in
    intros [Hok [Hev Hsz]] Hrd;
    first
      [ reflexivity
      | match goal with
        | H : fails _ _ = Some _ |- _ => rewrite Hok in H; discriminate
        end
      | match goal with
        | Hs : pa_size _ = Some ?s, Ht : truthy (Some ?s) = true |- _ =>
            let ps := fresh "ps" in
            let Hps := fresh "Hps" in
            destruct (Hsz s Hs Ht) as [ps Hps]; congruence
        end
      | congruence
      | solve [exfalso; apply (ready_not_timeout _ _ Hrd); split; assumption]
      | solve [exfalso; apply (ready_not_pending _ _ Hrd); assumption] ] ].

Lemma generatePDF_returns_saved env args w :
  returns_saved env args w (generatePDF env args w).
Proof.
  unfold generatePDF. cbv zeta. fold (output_file env args).
  pdf_cases (returns_saved env args w) saved_leaf ltac:(fail).
  all: saved_leaf.
Qed.

(** X18. [generatePDF] returns only the file it has saved: when it
    returns, the value is the output path, or [output.pdf] inside it when
    the output path is an existing directory; the last operation was the
    save of that file with the requested [pressReady]; the browser is
    closed, the contents panel hidden and the listener removed. And it
    does return when no operation fails, the page size parses, the viewer
    reports the [toc] action and readiness is seen in time. *)
Theorem generatePDF_returns env args w :
  (forall f w',
      generatePDF env args w = (Returned f, w') ->
      f = output_file env args
      /\ browser w' = Closed
      /\ tocVisible w' = false
      /\ listening w' = false
      /\ exists before,
           trace w' = trace w ++ before ++ [PostSave f (pa_pressReady args)])
  /\ (reaches_pagination env args -> ready_in_time env (pa_timeout args) ->
      fst (generatePDF env args w) = Returned (output_file env args)).
Proof.
  destruct (generatePDF_returns_saved env args w) as [H1 H2].
  split; [|exact H2].
  intros f w' E. rewrite E in H1. now apply H1.
Qed.

Lemma generatePDF_returns_witness :
  let env := Sample.env_of None Sample.no_documents [Sample.toc_done] (Some 2) in
  reaches_pagination env (Sample.pdf_args 3000)
  /\ ready_in_time env (pa_timeout (Sample.pdf_args 3000))
  /\ fst (generatePDF env (Sample.pdf_args 3000) initial_world)
     = Returned "/proj/output.pdf".
Proof.
  intros env.
  assert (H1 : reaches_pagination env (Sample.pdf_args 3000)).
  { split; [reflexivity|]. split; [reflexivity|]. intros s Hs. discriminate. }
  assert (H2 : ready_in_time env (pa_timeout (Sample.pdf_args 3000))).
  { exists 2. split; [reflexivity|]. right. reflexivity. }
  split; [exact H1|]. split; [exact H2|].
  exact (proj2 (generatePDF_returns env (Sample.pdf_args 3000) initial_world)
           H1 H2).
Defined.


Ltac before_launch_leaf :=
  first
    [ solve [ exfalso;
              match goal with
              | H : Thrown _ = Returned _ |- _ => discriminate H
              | H : Thrown _ = Pending |- _ => discriminate H
              end ]
    | unfold fails_before_launch, ret;
      split; [reflexivity|];
      split; [eexists; reflexivity|];
      split;
      [ trace_norm; eexists;
        split; [first [reflexivity | symmetry; apply app_nil_r] | reflexivity]
      | let Hok := fresh "Hok" in
        intros Hok;
        first
          [ match goal with
            | H : fails _ _ = Some _ |- _ => rewrite Hok in H; discriminate
            end
          | match goal with
            | H : Thrown _ = Thrown _ |- _ => inversion H; reflexivity
            end ] ] ].

(** X20. A page size that does not parse stops [generatePDF] before
    anything is launched: the call throws, the parse error itself when
    the two file lookups before it succeed, and it has started neither
    the servers nor the browser. *)
Theorem bad_size_fails_before_launch env args w s e :
  pa_size args = Some s ->
  truthy s = true ->
  parsePageSize s = Thrown e ->
  let r := generatePDF env args w in
  browser (snd r) = browser w
  /\ (exists e', fst r = Thrown e')
  /\ (exists ops,
        trace (snd r) = trace w ++ ops
        /\ forallb (fun o => named "statFile" o || named "findEntryPointFile" o)
             ops = true)
  /\ ((forall o, fails env o = None) -> fst r = Thrown e).
Proof.
  intros Hsize Htruthy Hthrow r. subst r.
  change (fails_before_launch env e w (generatePDF env args w)).
  unfold generatePDF. cbv zeta. rewrite Hsize.
  change (truthy (Some s)) with (truthy s). rewrite Htruthy, Hthrow.
  pdf_cases (fails_before_launch env e w) before_launch_leaf ltac:(fail).
  all: before_launch_leaf.
Qed.

Lemma bad_size_fails_before_launch_witness :
  let env := Sample.env_of None Sample.no_documents [Sample.toc_done] (Some 0) in
  let args :=
    {| pa_input := "/proj/.vivliostyle/manifest.json";
       pa_rootDir := Some "/proj/.vivliostyle";
       pa_outputPath := "/proj/output.pdf";
       pa_size := Some (SizeStr "10cm,20cm,30cm");
       pa_loadMode := Book; pa_executableChromium := None;
       pa_sandbox := true; pa_verbose := false; pa_timeout := 3000;
       pa_pressReady := false |} in
  parsePageSize (SizeStr "10cm,20cm,30cm")
  = Thrown (Error "Cannot parse size: 10cm,20cm,30cm")
  /\ fst (generatePDF env args initial_world)
     = Thrown (Error "Cannot parse size: 10cm,20cm,30cm")
  /\ browser (snd (generatePDF env args initial_world)) = NotLaunched.
Proof.
  intros env args.
  assert (H : parsePageSize (SizeStr "10cm,20cm,30cm")
              = Thrown (Error "Cannot parse size: 10cm,20cm,30cm"))
    by reflexivity.
  split; [exact H|].
  destruct (bad_size_fails_before_launch env args initial_world
              (SizeStr "10cm,20cm,30cm") _ eq_refl eq_refl H)
    as [Hb [_ [_ He]]].
  split; [apply He; reflexivity | exact Hb].
Defined.

Lemma appends_generatePDF_launch env args :
  appends (launched_as
             (Some (pa_executableChromium args ||! default_chromium env))
             [if pa_sandbox args then "" else "--no-sandbox"])
          (generatePDF env args).
Proof.
  unfold generatePDF, loadMetadata.
  repeat first [ apply appends_loadTOC | apply appends_waitForReady
               | appends_step ]; try exact I; simpl; auto.
Qed.

Lemma appends_stageAndRender_launch env c entries :
  appends (launched_as
             (Some (executableChromium c ||! default_chromium env))
             [if sandbox c then "" else "--no-sandbox"])
          (stageAndRender env c entries).
Proof.
  unfold stageAndRender, populate, copyTheme, generateManifest.
  repeat first [ apply appends_generatePDF_launch | appends_step ]; exact I.
Qed.

(** X21. The browser is launched with the configured executable, or the
    bundled one when none is configured, and with the single argument
    [--no-sandbox] when the sandbox is off and an empty argument when it
    is on. In a run of [build] the argument is always the empty one: the
    sandbox flag of the command line has no effect. *)
Theorem launch_arguments :
  (forall env args w,
      exists ops,
        trace (snd (generatePDF env args w)) = trace w ++ ops
        /\ forall exe argv,
             In (LaunchBrowser exe argv) ops ->
             exe = Some (pa_executableChromium args ||! default_chromium env)
             /\ argv = [if pa_sandbox args then "" else "--no-sandbox"])
  /\ (forall env cliFlags exe argv,
        In (LaunchBrowser exe argv) (trace (snd (run (build env cliFlags)))) ->
        exe = Some (cli_executableChromium cliFlags ||! default_chromium env)
        /\ argv = [""]).
Proof.
  split.
  - intros env args w.
    destruct (appends_generatePDF_launch env args w) as [ops [E F]].
    exists ops. split; [exact E|]. intros exe argv Hin.
    rewrite Forall_forall in F. exact (F _ Hin).
  - intros env cliFlags exe argv. unfold run, build, bind.
    pose proof (resolveEntries_trace env cliFlags initial_world) as Ht.
    destruct (resolveEntries env cliFlags initial_world)
      as [[[c entries]| |] w1] eqn:Hr; simpl in *;
      try (rewrite Ht; intros []).
    destruct (appends_stageAndRender_launch env c entries w1) as [ops [E F]].
    rewrite E, Ht. simpl. intros Hin.
    rewrite Forall_forall in F. destruct (F _ Hin) as [He Ha].
    destruct (resolveEntries_returned _ _ _ _ _ _ Hr)
      as [pkgJson [config [w0 [_ [_ [Hc _]]]]]].
    rewrite Hc in He, Ha.
    rewrite sandbox_always_enabled in Ha. simpl in He. split; congruence.
Qed.

Lemma launch_arguments_witness :
  let env := Sample.env_of (Some Sample.two_entries) Sample.no_documents
               [Sample.toc_done] (Some 0) in
  cli_sandbox Sample.falsy_flags = false
  /\ In (LaunchBrowser (Some "/usr/bin/chromium") [""])
        (trace (snd (run (build env Sample.falsy_flags)))).
Proof.
  intros env.
  assert (H : In (LaunchBrowser (Some "/usr/bin/chromium") [""])
                 (trace (snd (run (build env Sample.falsy_flags))))).
  { vm_compute. repeat (first [left; reflexivity | right]). }
  split; [reflexivity|].
  destruct (proj2 launch_arguments env Sample.falsy_flags _ _ H) as [_ _].
  exact H.
Defined.

(** ** The end of a build *)

Lemma bind_returned {A B} (m : M A) (k : A -> M B) w y w' :
  bind m k w = (Returned y, w') ->
  exists x w1, m w = (Returned x, w1) /\ k x w1 = (Returned y, w').
Proof.
  unfold bind. destruct (m w) as [[x| |] w1]; try discriminate. eauto.
Qed.

Lemma returns_prefix {A B} (P : B -> World -> list op -> Prop)
    (m : M A) (k : A -> M B) :
  appends (fun _ => True) m ->
  (forall x, returns_with P (k x)) ->
  (forall y w' a b, P y w' b -> P y w' (a ++ b)) ->
  returns_with P (bind m k).
Proof.
  intros Hm Hk Hp w y w' H.
  apply bind_returned in H as [x [w1 [E1 E2]]].
  destruct (Hm w) as [ops1 [T1 _]]. rewrite E1 in T1. simpl in T1.
  destruct (Hk x w1 y w' E2) as [ops2 [T2 HP]].
  exists (ops1 ++ ops2). rewrite T2, T1, app_assoc. auto.
Qed.

Lemma ends_with_exit_prefix u w' a b :
  ends_with_exit u w' b -> ends_with_exit u w' (a ++ b).
Proof.
  intros [Hb [before [f [pr E]]]]. split; [exact Hb|].
  exists (a ++ before), f, pr. now rewrite E, app_assoc.
Qed.

Lemma perform_returned env o w u w' :
  perform env o w = (Returned u, w') -> w' = apply_op o w.
Proof.
  unfold perform. destruct (fails env o); intros H; inversion H. reflexivity.
Qed.

Lemma render_and_exit_returns env args :
  returns_with ends_with_exit
    (outputFile <- generatePDF env args ;;
     perform env (Log "Done") ;;;
     perform env (Log (outputFile ++ " has been created")) ;;;
     perform env (ProcessExit 0)).
Proof.
  intros w u w' H.
  apply bind_returned in H as [f [w1 [E1 H]]].
  apply bind_returned in H as [u1 [w2 [E2 H]]].
  apply bind_returned in H as [u2 [w3 [E3 E4]]].
  apply perform_returned in E2, E3, E4. subst w' w3 w2.
  destruct (generatePDF_returns_saved env args w) as [Hs _].
  rewrite E1 in Hs. destruct (Hs f eq_refl) as [_ [Hb [_ [_ [before T]]]]].
  simpl in Hb, T.
  exists (before ++ [ PostSave f (pa_pressReady args); Log "Done";
                      Log (f ++ " has been created"); ProcessExit 0 ]).
  split.
  - rewrite !trace_apply_op, T, <- !app_assoc. reflexivity.
  - split; [exact Hb|]. exists before, f, (pa_pressReady args). reflexivity.
Qed.

Lemma stageAndRender_returns env c entries :
  returns_with ends_with_exit (stageAndRender env c entries).
Proof.
  unfold stageAndRender, populate, copyTheme, generateManifest.
  repeat match goal with
         | |- returns_with _ (bind (generatePDF _ _) _) => fail 1
         | |- _ =>
             apply returns_prefix;
             [ repeat appends_step; exact I
             | intros ?
             | apply ends_with_exit_prefix ]
         end.
  apply render_and_exit_returns.
Qed.

Lemma precedes_free p q ops :
  Forall (fun o => q o = false) ops -> precedes p q ops.
Proof.
  intros F pre o post E Hq. rewrite Forall_forall in F.
  assert (Hin : In o ops) by (rewrite E; apply in_or_app; right; now left).
  rewrite (F _ Hin) in Hq. discriminate.
Qed.

Lemma precedes_app_free p q ops1 ops2 :
  Forall (fun o => q o = false) ops1 -> precedes p q ops2 ->
  precedes p q (ops1 ++ ops2).
Proof.
  intros F. revert ops2. induction ops1 as [|x l IH]; intros ops2 H; [exact H|].
  inversion F as [|? ? Hx Hl]; subst.
  intros pre o post E Hq. destruct pre as [|y pre]; simpl in E; inversion E; subst.
  - congruence.
  - destruct (IH Hl ops2 H pre o post H2 Hq) as [o' [Hin Hp]].
    exists o'. split; [now right | exact Hp].
Qed.

Lemma precedes_app_seen p q ops1 ops2 :
  Forall (fun o => q o = false) ops1 ->
  (exists o, In o ops1 /\ p o = true) ->
  precedes p q (ops1 ++ ops2).
Proof.
  intros F [o1 [Hin1 Hp1]] pre o post E Hq.
  rewrite Forall_forall in F.
  assert (Hlen : List.length ops1 <= List.length pre).
  { destruct (Nat.le_gt_cases (List.length ops1) (List.length pre)) as [H|H];
      [exact H|].
    exfalso.
    assert (Ho : In o ops1).
    { assert (nth_error (ops1 ++ ops2) (List.length pre) = Some o)
        by (rewrite E, nth_error_app2, Nat.sub_diag; [reflexivity | lia]).
      rewrite nth_error_app1 in H0 by exact H.
      now apply nth_error_In in H0. }
    rewrite (F _ Ho) in Hq. discriminate. }
  assert (Hpre : firstn (List.length ops1) pre = ops1).
  { assert (firstn (List.length ops1) (ops1 ++ ops2) = ops1)
      by (rewrite firstn_app, Nat.sub_diag, firstn_all; simpl;
          apply app_nil_r).
    rewrite E, firstn_app in H.
    replace (List.length ops1 - List.length pre) with 0 in H by lia.
    simpl in H. now rewrite app_nil_r in H. }
  exists o1. split; [|exact Hp1].
  rewrite <- (firstn_skipn (List.length ops1) pre), Hpre.
  apply in_or_app. now left.
Qed.

Lemma ordered_bind {A B} p q (m : M A) (k : A -> M B) :
  appends (fun o => q o = false) m ->
  (forall x, ordered p q (k x)) ->
  ordered p q (bind m k).
Proof.
  intros Hm Hk w. unfold bind. destruct (Hm w) as [ops1 [E1 F1]].
  destruct (m w) as [[x| |] w1]; simpl in *.
  - destruct (Hk x w1) as [ops2 [E2 H2]].
    exists (ops1 ++ ops2). rewrite E2, E1, app_assoc.
    split; [reflexivity | now apply precedes_app_free].
  - exists ops1. split; [exact E1 | now apply precedes_free].
  - exists ops1. split; [exact E1 | now apply precedes_free].
Qed.

Lemma appends_generatePDF_no_exit env args :
  appends (fun o => named "process.exit" o = false) (generatePDF env args).
Proof.
  unfold generatePDF, loadMetadata.
  repeat first [ apply appends_loadTOC | apply appends_waitForReady
               | appends_step ]; try reflexivity.
Qed.

Lemma render_and_exit_ordered env args :
  ordered (named "post.save") (named "process.exit")
    (outputFile <- generatePDF env args ;;
     perform env (Log "Done") ;;;
     perform env (Log (outputFile ++ " has been created")) ;;;
     perform env (ProcessExit 0)).
Proof.
  intros w. unfold bind at 1.
  destruct (appends_generatePDF_no_exit env args w) as [ops1 [E1 F1]].
  destruct (generatePDF_returns_saved env args w) as [Hs _].
  destruct (generatePDF env args w) as [[f| |] w1] eqn:Hg; simpl in *.
  - match goal with
    | |- context [?m w1] =>
        assert (Happ : appends (fun _ => True) m)
          by (repeat appends_step; exact I);
        destruct (Happ w1) as [ops2 [E2 _]]
    end.
    exists (ops1 ++ ops2). rewrite E2, E1, app_assoc. split; [reflexivity|].
    apply precedes_app_seen; [exact F1|].
    destruct (Hs f eq_refl) as [_ [_ [_ [_ [before T]]]]].
    rewrite E1 in T. apply app_inv_head in T. subst ops1.
    exists (PostSave f (pa_pressReady args)).
    split; [apply in_or_app; right; now left | reflexivity].
  - exists ops1. split; [exact E1 | now apply precedes_free].
  - exists ops1. split; [exact E1 | now apply precedes_free].
Qed.

Lemma stageAndRender_ordered env c entries :
  ordered (named "post.save") (named "process.exit")
    (stageAndRender env c entries).
Proof.
  unfold stageAndRender, populate, copyTheme, generateManifest.
  repeat match goal with
         | |- ordered _ _ (bind (generatePDF _ _) _) => fail 1
         | |- _ =>
             apply ordered_bind;
             [ repeat appends_step; reflexivity | intros ? ]
         end.
  apply render_and_exit_ordered.
Qed.

(** X22. [build] exits the process with code 0 only after the PDF was
    saved: in every run, an exit comes after a save; and when [build]
    returns, its last operations are the save of the file, the two
    closing messages that name it, and the exit, with the browser
    closed. *)
Theorem build_exits_after_save env cliFlags w :
  (exists ops,
      trace (snd (build env cliFlags w)) = trace w ++ ops
      /\ precedes (named "post.save") (named "process.exit") ops)
  /\ (forall u w',
        build env cliFlags w = (Returned u, w') ->
        browser w' = Closed
        /\ exists before f pressReady,
             trace w'
             = trace w ++ before
               ++ [ PostSave f pressReady; Log "Done";
                    Log (f ++ " has been created"); ProcessExit 0 ]).
Proof.
  pose proof (resolveEntries_trace env cliFlags w) as Ht.
  split.
  - unfold build, bind.
    destruct (resolveEntries env cliFlags w) as [[[c entries]| |] w1];
      simpl in *.
    + destruct (stageAndRender_ordered env c entries w1) as [ops [E H]].
      exists ops. split; [now rewrite E, Ht | exact H].
    + exists []. rewrite app_nil_r. split; [exact Ht|].
      apply precedes_free. constructor.
    + exists []. rewrite app_nil_r. split; [exact Ht|].
      apply precedes_free. constructor.
  - intros u w' H. unfold build in H.
    apply bind_returned in H as [[c entries] [w1 [E1 E2]]].
    rewrite E1 in Ht. simpl in Ht.
    destruct (stageAndRender_returns env c entries w1 u w' E2)
      as [ops [T [Hb [before [f [pr Eo]]]]]].
    split; [exact Hb|]. exists before, f, pr. now rewrite T, Ht, Eo.
Qed.

Lemma build_exits_after_save_witness :
  let env := Sample.env_of (Some Sample.two_entries) Sample.no_documents
               [Sample.toc_done] (Some 0) in
  exists w',
    build env Sample.no_flags initial_world = (Returned tt, w')
    /\ browser w' = Closed.
Proof.
  intros env.
  destruct (build env Sample.no_flags initial_world) as [o w'] eqn:E.
  assert (Ho : o = Returned tt).
  { change o with (fst (o, w')). rewrite <- E. reflexivity. }
  subst o. exists w'. split; [reflexivity|].
  exact (proj1 (proj2 (build_exits_after_save env Sample.no_flags
                         initial_world) tt w' E)).
Defined.

(** ** A viewer that never reports its contents *)

Lemma no_toc_action env :
  (forall p, In p (done_events env) -> a p <> "toc") ->
  existsb is_toc_action (done_events env) = false.
Proof.
  intros Hno. destruct (existsb is_toc_action (done_events env)) eqn:E;
    [|reflexivity].
  apply existsb_exists in E as [p [Hin Hp]].
  apply is_toc_action_iff in Hp. now apply Hno in Hin.
Qed.

Ltac waiting_leaf Hno :=
  first
    [ solve [ exfalso;
              match goal with
              | H : existsb is_toc_action _ = true |- _ =>
                  rewrite Hno in H; discriminate H
              end ]
    | unfold waits_for_contents, ret;
      split; [intros ? ?; discriminate|];
      split;
      [ trace_norm; eexists;
        split; [first [reflexivity | symmetry; apply app_nil_r] | reflexivity]
      | let Hok := fresh "Hok" in
        let Hsz := fresh "Hsz" in
        intros Hok Hsz;
        first
          [ match goal with
            | H : fails _ _ = Some _ |- _ => rewrite Hok in H; discriminate
            end
          | match goal with
            | Hs : pa_size _ = Some ?s, Ht : truthy (Some ?s) = true |- _ =>
                let ps := fresh "ps" in
                let Hps := fresh "Hps" in
                destruct (Hsz s Hs Ht) as [ps Hps]; congruence
            end
          | repeat split; reflexivity ] ] ].

(** X23. The timeout does not cover the wait for the contents: when
    none of the viewer's [done] events carries the action [toc],
    [generatePDF] never returns, whatever the timeout. It never removes
    the listener, sets no media type, waits for no readiness, captures,
    post-processes and saves nothing and does not close the browser; and
    when every operation before that succeeds and the page size parses,
    the call stays pending with the browser running, the contents panel
    shown and the listener registered. *)
Theorem no_toc_event_stalls env args w :
  (forall p, In p (done_events env) -> a p <> "toc") ->
  let r := generatePDF env args w in
  (forall f, fst r <> Returned f)
  /\ (exists ops,
        trace (snd r) = trace w ++ ops
        /\ forallb (fun o => negb (after_contents o)) ops = true)
  /\ ((forall o, fails env o = None) ->
      (forall s, pa_size args = Some s -> truthy s = true ->
                 exists ps, parsePageSize s = Returned ps) ->
      fst r = Pending
      /\ browser (snd r) = Running
      /\ tocVisible (snd r) = true
      /\ listening (snd r) = true).
Proof.
  intros Hno r. subst r. apply no_toc_action in Hno.
  change (waits_for_contents env args w (generatePDF env args w)).
  unfold generatePDF. cbv zeta.
  pdf_cases (waits_for_contents env args w) ltac:(waiting_leaf Hno)
    ltac:(fail).
  all: waiting_leaf Hno.
Qed.

Lemma no_toc_event_stalls_witness :
  let env := Sample.env_of None Sample.no_documents [Sample.nav_done]
               (Some 0) in
  let r := generatePDF env (Sample.pdf_args 3000) initial_world in
  (forall p, In p (done_events env) -> a p <> "toc")
  /\ fst r = Pending
  /\ browser (snd r) = Running.
Proof.
  intros env r.
  assert (Hno : forall p, In p (done_events env) -> a p <> "toc").
  { intros p [<-|[]]. discriminate. }
  split; [exact Hno|].
  destruct (no_toc_event_stalls env (Sample.pdf_args 3000) initial_world Hno)
    as [_ [_ H]].
  destruct H as [H1 [H2 _]].
  - reflexivity.
  - intros s Hs. discriminate.
  - split; [exact H1 | exact H2].
Defined.
